(** * ags widget construction engine: a shallow embedding

    The development follows the three source modules of the repository:
    - the widget module (src/unnamed/part_000, imported as [./widget.js]):
      [handleEvent], [parseEventListeners], [parseParams], [Widget] and the
      registry [widgets];
    - [src/src/widgets.js]: the leaf constructors ([Box], [Overlay],
      [Slider], ...);
    - the window module (src/unnamed/part_001): the layer-shell surface
      constructor [Window].
    [utils.js] ([typecheck], [restcheck], [warning], [error], [interval],
    [runCmd]) is not among the sources.

    JavaScript values are a first-order datatype; user functions are names
    whose results are supplied by a host environment; live toolkit objects
    are records of what the engine did to them.  Evaluation threads a world
    (diagnostics and the log of user-function calls) and returns an outcome
    that is either a value or a thrown exception. *)

From Stdlib Require Import List String Ascii Bool Arith Lia Floats.PrimFloat DecimalString.
Import ListNotations.
Local Open Scope string_scope.
Local Open Scope list_scope.

Set Implicit Arguments.
#[local] Set Warnings "-register-all".

(** ** JavaScript values and live objects *)

Inductive family := Focus | Key | Motion | Scroll | Legacy.

Inductive jsval :=
| VUndefined
| VNull
| VBool (b : bool)
| VNum (x : float)
| VStr (s : string)
| VTemplate (parts : list jsval)      (* a template string with a part whose text the host decides *)
| VFun (id : nat)                     (* a function supplied by the caller *)
| VScaleFactory (orientation min max drawValue inverted : jsval)
                                      (* the factory closure built inside Slider *)
| VSliderScroll                       (* the onScroll closure built inside Slider *)
| VHelper (name : string)             (* a function that is not the caller's: a closure the
                                         engine attaches to the object it built, or a
                                         method of the language's library *)
| VArr (items : list jsval)
| VObj (fields : list (string * jsval))
| VWidget (w : gtk)
with gtk :=
| MkGtk (gclass : string)                     (* toolkit class, e.g. Gtk.Label *)
        (gattrs : list (string * jsval))      (* properties that were set *)
        (gcss : list string)                  (* css classes *)
        (gproviders : list jsval)             (* style providers, in order *)
        (gcalls : list (string * jsval))      (* other toolkit calls on it, in order *)
        (gsignals : list (string * handler))  (* signal connections in order *)
        (gtimers : list (jsval * jsval))      (* interval(period, callback) *)
        (gctrls : list controller)            (* controllers in attachment order *)
with handler :=
| HUser (cb : jsval)                  (* the caller's function itself *)
| HEvent0 (cb : jsval)                (* () => handleEvent(cb, widget) *)
| HEventArgs (cb : jsval)             (* (_s, ...a) => handleEvent(cb, widget, ...a) *)
| HScrollUp (cb : jsval)
| HScrollDown (cb : jsval)
| HButtonPressed (cb : jsval)
| HButtonReleased (cb : jsval)
| HRunCmd (cmd : jsval)               (* () => runCmd(cmd, widget) *)
| HNotify (cb : jsval)                (* function ? cb(widget, v) : runCmd(cb.replace(..)) *)
| HEntryChange (onAccept onChange : jsval)
with controller :=
| MkCtrl (cfamily : family)
         (cflags : list string)
         (chandlers : list (string * handler)).  (* connections in order *)

Definition gclass (w : gtk) := let 'MkGtk c _ _ _ _ _ _ _ := w in c.
Definition gattrs (w : gtk) := let 'MkGtk _ a _ _ _ _ _ _ := w in a.
Definition gcss (w : gtk) := let 'MkGtk _ _ c _ _ _ _ _ := w in c.
Definition gproviders (w : gtk) := let 'MkGtk _ _ _ p _ _ _ _ := w in p.
Definition gcalls (w : gtk) := let 'MkGtk _ _ _ _ k _ _ _ := w in k.
Definition gsignals (w : gtk) := let 'MkGtk _ _ _ _ _ s _ _ := w in s.
Definition gtimers (w : gtk) := let 'MkGtk _ _ _ _ _ _ t _ := w in t.
Definition gctrls (w : gtk) := let 'MkGtk _ _ _ _ _ _ _ c := w in c.

Definition cfamily (c : controller) := let 'MkCtrl f _ _ := c in f.
Definition cflags (c : controller) := let 'MkCtrl _ f _ := c in f.
Definition chandlers (c : controller) := let 'MkCtrl _ _ h := c in h.

Definition family_eqb (a b : family) : bool :=
  match a, b with
  | Focus, Focus | Key, Key | Motion, Motion | Scroll, Scroll | Legacy, Legacy => true
  | _, _ => false
  end.

(** ** Objects as association lists *)

Fixpoint lookup (k : string) (fs : list (string * jsval)) : jsval :=
  match fs with
  | [] => VUndefined
  | (k', v) :: r => if String.eqb k k' then v else lookup k r
  end.

Fixpoint has_key (k : string) (fs : list (string * jsval)) : bool :=
  match fs with
  | [] => false
  | (k', _) :: r => String.eqb k k' || has_key k r
  end.

Fixpoint delete (k : string) (fs : list (string * jsval)) : list (string * jsval) :=
  match fs with
  | [] => []
  | (k', v) :: r => if String.eqb k k' then delete k r else (k', v) :: delete k r
  end.

Definition delete_all (ks : list string) (fs : list (string * jsval)) :=
  fold_left (fun acc k => delete k acc) ks fs.

(** [o[k] = v] on an object whose key order is kept. *)
Fixpoint assign (k : string) (v : jsval) (fs : list (string * jsval)) :=
  match fs with
  | [] => [(k, v)]
  | (k', v') :: r => if String.eqb k k' then (k, v) :: r else (k', v') :: assign k v r
  end.

(** Destructuring with a default: the default applies to [undefined] only. *)
Definition dflt (v d : jsval) : jsval :=
  match v with VUndefined => d | _ => v end.

(** ** typeof, truthiness, strict comparison with the literals used *)

Inductive kind := KString | KNumber | KBoolean | KArray | KFunction | KUndefined | KObject.

Definition kind_eqb (a b : kind) : bool :=
  match a, b with
  | KString, KString | KNumber, KNumber | KBoolean, KBoolean | KArray, KArray
  | KFunction, KFunction | KUndefined, KUndefined | KObject, KObject => true
  | _, _ => false
  end.

Definition is_function (v : jsval) : bool :=
  match v with
  | VFun _ | VScaleFactory _ _ _ _ _ | VSliderScroll | VHelper _ => true
  | _ => false
  end.

Definition is_string (v : jsval) : bool :=
  match v with VStr _ | VTemplate _ => true | _ => false end.

Definition is_boolean (v : jsval) : bool :=
  match v with VBool _ => true | _ => false end.

Definition is_number (v : jsval) : bool :=
  match v with VNum _ => true | _ => false end.

(** [if (v)]: JavaScript truthiness.  A template built by the engine always
    carries literal text, so it is never the empty string. *)
Definition truthy (v : jsval) : bool :=
  match v with
  | VUndefined | VNull => false
  | VBool b => b
  | VNum x => negb (PrimFloat.eqb x 0%float) && PrimFloat.eqb x x
  | VStr s => negb (String.eqb s "")
  | _ => true
  end.

(** The semantic kind that the validator compares against its expected set. *)
Definition kind_of (v : jsval) : kind :=
  match v with
  | VUndefined => KUndefined
  | VBool _ => KBoolean
  | VNum _ => KNumber
  | VStr _ | VTemplate _ => KString
  | VFun _ | VScaleFactory _ _ _ _ _ | VSliderScroll | VHelper _ => KFunction
  | VArr _ => KArray
  | VNull | VObj _ | VWidget _ => KObject
  end.

(** ** Strings *)

Definition upper_ascii (a : ascii) : ascii :=
  let n := nat_of_ascii a in
  if ((97 <=? n) && (n <=? 122))%nat then ascii_of_nat (n - 32) else a.

(** A string is the sequence of its UTF-8 bytes: a character of the ASCII
    range is one byte below 128, and every byte of any other character is
    128 or above. *)
Definition is_ascii (a : ascii) : bool := (nat_of_ascii a <? 128)%nat.

Fixpoint ascii_only (s : string) : bool :=
  match s with
  | EmptyString => true
  | String a r => is_ascii a && ascii_only r
  end.

Fixpoint upper_chars (s : string) : string :=
  match s with
  | EmptyString => EmptyString
  | String a r => String (upper_ascii a) (upper_chars r)
  end.

(** [s.toUpperCase()].  On a string of ASCII characters the case mapping
    works character by character.  On any other string it is the case
    mapping of Unicode, which can change the length of the string and is
    not embedded: there the function has no result here, and what calls it
    leaves the development. *)
Definition toUpperCase (s : string) : option string :=
  if ascii_only s then Some (upper_chars s) else None.

(** [s.split(c)] for a one-character separator. *)
Fixpoint split (c : ascii) (s : string) : list string :=
  match s with
  | EmptyString => [""]
  | String a r =>
      if Ascii.eqb a c then "" :: split c r
      else match split c r with
           | h :: t => String a h :: t
           | [] => [String a ""]
           end
  end.

Definition is_space (a : ascii) : bool :=
  let n := nat_of_ascii a in
  ((n =? 32) || ((9 <=? n) && (n <=? 13)))%nat.

Fixpoint trim_start (s : string) : string :=
  match s with
  | String a r => if is_space a then trim_start r else s
  | EmptyString => EmptyString
  end.

Fixpoint trim_end (s : string) : string :=
  match s with
  | EmptyString => EmptyString
  | String a r =>
      match trim_end r with
      | EmptyString => if is_space a then EmptyString else String a EmptyString
      | r' => String a r'
      end
  end.

(** [s.trim()].  Among the ASCII characters the white space and the line
    terminators are the space and the characters 9 to 13; a string with
    other characters may start or end with white space of Unicode, which is
    not embedded: there the function has no result here. *)
Definition trim (s : string) : option string :=
  if ascii_only s then Some (trim_end (trim_start s)) else None.

(** The text of a value inside a template literal, where the language fixes it. *)
Definition plain_text (v : jsval) : option string :=
  match v with
  | VStr s => Some s
  | VUndefined => Some "undefined"
  | VNull => Some "null"
  | VBool true => Some "true"
  | VBool false => Some "false"
  | _ => None
  end.

Fixpoint concat_plain (parts : list jsval) : option string :=
  match parts with
  | [] => Some ""
  | p :: r =>
      match plain_text p, concat_plain r with
      | Some a, Some b => Some (a ++ b)%string
      | _, _ => None
      end
  end.

(** A template literal: a string when every part has a fixed text, and the
    list of its parts otherwise. *)
Definition template (parts : list jsval) : jsval :=
  match concat_plain parts with
  | Some s => VStr s
  | None => VTemplate parts
  end.

(** ** Worlds, outcomes and the evaluation monad *)

Inductive diag :=
| DError (msg : jsval)
| DWarning (msg : jsval)
| DTypecheck (name : string) (context : jsval)
| DRestcheck (key : string) (context : jsval).

(** Both lists are in chronological order. *)
Record world := MkWorld {
  diags : list diag;
  calls : list (jsval * list jsval)
}.

Definition empty_world : world := MkWorld [] [].

(** [Beyond]: evaluation went on with a receiver or a collaborator that this
    development does not describe (a plain object used as a widget, the
    command runner).  [OutOfFuel] is the recursion bound of [Widget_fuel]. *)
Inductive outcome (A : Type) :=
| Ok (a : A)
| Throw (e : string)
| Beyond
| OutOfFuel.
Arguments Throw {A} e.
Arguments Beyond {A}.
Arguments OutOfFuel {A}.

(** Computations over a state [S] that may throw. *)
Definition St (S A : Type) := S -> outcome A * S.
Definition M (A : Type) := St world A.

Definition ret {S A} (a : A) : St S A := fun s => (Ok a, s).
Definition throw {S A} (e : string) : St S A := fun s => (Throw e, s).
Definition beyond {S A} : St S A := fun s => (Beyond, s).

Definition bind {S A B} (m : St S A) (k : A -> St S B) : St S B :=
  fun s =>
    match m s with
    | (Ok a, s') => k a s'
    | (Throw e, s') => (Throw e, s')
    | (Beyond, s') => (Beyond, s')
    | (OutOfFuel, s') => (OutOfFuel, s')
    end.

Notation "x <- m ;; k" := (bind m (fun x => k))
  (at level 61, m at next level, right associativity).
Notation "m ;;; k" := (bind m (fun _ => k))
  (at level 61, right associativity).

(** [try { m } catch (err) { h }] *)
Definition try_catch {S A} (m : St S A) (h : St S A) : St S A :=
  fun s =>
    match m s with
    | (Throw _, s') => h s'
    | r => r
    end.

Definition when {S} (c : bool) (m : St S unit) : St S unit := if c then m else ret tt.

(** [xs.forEach(f)] *)
Fixpoint forEach {S A} (f : A -> St S unit) (xs : list A) : St S unit :=
  match xs with
  | [] => ret tt
  | x :: r => f x ;;; forEach f r
  end.

(** A [forEach] whose body updates the object under construction. *)
Fixpoint foldM {S A B} (f : B -> A -> St S B) (b : B) (xs : list A) : St S B :=
  match xs with
  | [] => ret b
  | x :: r => b' <- f b x ;; foldM f b' r
  end.

Definition emit_diag (d : diag) : M unit :=
  fun W => (Ok tt, MkWorld (diags W ++ [d]) (calls W)).

Definition log_call (f : jsval) (args : list jsval) : M unit :=
  fun W => (Ok tt, MkWorld (diags W) (calls W ++ [(f, args)])).

(** ** The collaborators of utils.js *)

(** Modelled from the spec: [warning] of utils.js, which is not among the
    sources; a side-effecting diagnostic sink. *)
Definition warning (msg : jsval) : M unit := emit_diag (DWarning msg).

(** Modelled from the spec: [error] of utils.js, the other diagnostic sink. *)
Definition error (msg : jsval) : M unit := emit_diag (DError msg).

(** Modelled from the spec: [typecheck] of utils.js; when the kind of the
    value is not among the expected kinds it emits a diagnostic naming the
    context and the property, and never throws. *)
Definition typecheck (name : string) (value : jsval) (expected : list kind)
    (context : jsval) : M unit :=
  when (negb (existsb (kind_eqb (kind_of value)) expected))
       (emit_diag (DTypecheck name context)).

(** Modelled from the spec: [restcheck] of utils.js; one diagnostic per
    leftover key, naming the context. *)
Definition restcheck (rest : list (string * jsval)) (context : jsval) : M unit :=
  forEach (fun kv => emit_diag (DRestcheck (fst kv) context)) rest.

(** ** The host: caller-supplied functions and the toolkit's choices *)

Record host := MkHost {
  (* the value a caller-supplied function returns; such functions are
     taken not to throw *)
  user_ret : nat -> list jsval -> jsval;
  (* the members of the toolkit's enumerations with their numbers,
     by enumeration name; they are declared outside the sources *)
  enum : string -> list (string * float);
  (* whether the toolkit throws when [undefined] is given for an enum *)
  enum_strict : bool;
  (* whether the display has a monitor at this index *)
  monitor_at : jsval -> bool
}.

Fixpoint member_value (k : string) (ms : list (string * float)) : jsval :=
  match ms with
  | [] => VUndefined
  | (k', x) :: r => if String.eqb k k' then VNum x else member_value k r
  end.

(** ** Live objects: what the toolkit calls do to the record *)

Definition new_gtk (cls : string) (attrs : list (string * jsval)) : gtk :=
  MkGtk cls attrs [] [] [] [] [] [].

Definition set_attr (k : string) (v : jsval) (w : gtk) : gtk :=
  let 'MkGtk c a cs p ks sg t ct := w in MkGtk c (assign k v a) cs p ks sg t ct.

Definition has_class (cn : string) (w : gtk) : bool :=
  existsb (String.eqb cn) (gcss w).

Definition add_css_class (cn : string) (w : gtk) : gtk :=
  let 'MkGtk c a cs p ks sg t ct := w in
  if existsb (String.eqb cn) cs then w else MkGtk c a (cs ++ [cn]) p ks sg t ct.

Definition remove_css_class (cn : string) (w : gtk) : gtk :=
  let 'MkGtk c a cs p ks sg t ct := w in
  MkGtk c a (filter (fun x => negb (String.eqb cn x)) cs) p ks sg t ct.

Definition add_provider (style : jsval) (w : gtk) : gtk :=
  let 'MkGtk c a cs p ks sg t ct := w in MkGtk c a cs (p ++ [style]) ks sg t ct.

(** A toolkit method called on the object with this argument. *)
Definition invoke (slot : string) (child : jsval) (w : gtk) : gtk :=
  let 'MkGtk c a cs p ks sg t ct := w in MkGtk c a cs p (ks ++ [(slot, child)]) sg t ct.

Definition connect (signal : string) (h : handler) (w : gtk) : gtk :=
  let 'MkGtk c a cs p ks sg t ct := w in MkGtk c a cs p ks (sg ++ [(signal, h)]) t ct.

(** Modelled from the spec: [interval(period, callback, scope)] of utils.js,
    which is not among the sources; it schedules the callback against the
    object, and the record keeps the schedule. *)
Definition add_timer (period cb : jsval) (w : gtk) : gtk :=
  let 'MkGtk c a cs p ks sg t ct := w in MkGtk c a cs p ks sg (t ++ [(period, cb)]) ct.

Definition add_controller (ctl : controller) (w : gtk) : gtk :=
  let 'MkGtk c a cs p ks sg t ct := w in MkGtk c a cs p ks sg t (ct ++ [ctl]).

Definition ctl_connect (signal : string) (h : handler) (ctl : controller) : controller :=
  let 'MkCtrl f fl hs := ctl in MkCtrl f fl (hs ++ [(signal, h)]).

Definition ctl_set_flags (flag : string) (ctl : controller) : controller :=
  let 'MkCtrl f _ hs := ctl in MkCtrl f [flag] hs.

(** The controllers of one family that an object carries. *)
Definition controllers_of (f : family) (w : gtk) : list controller :=
  filter (fun c => family_eqb (cfamily c) f) (gctrls w).

(** ** widget.ts: style helpers *)

Definition setStyle (widget : gtk) (css : jsval) : gtk :=
  add_provider (template [VStr "* { "; css; VStr " }"]) widget.

Definition toggleClassName (widget : gtk) (className : string) (condition : bool) : gtk :=
  if condition then add_css_class className widget
  else remove_css_class className widget.

Section Engine.

Variable H : host.

(** [E[key]] for a toolkit enumeration [E]. *)
Definition enum_member (E : string) (key : jsval) : jsval :=
  match key with
  | VStr k => member_value k (enum H E)
  | _ => VUndefined
  end.

(** Giving the toolkit a value where it expects a member of an enumeration. *)
Definition as_enum (v : jsval) : M jsval :=
  match v with
  | VUndefined =>
      if enum_strict H then throw "the toolkit rejects undefined for an enum"
      else ret VUndefined
  | _ => ret v
  end.

(** [v.toUpperCase()] *)
Definition upper_of (v : jsval) : M jsval :=
  match v with
  | VStr s =>
      match toUpperCase s with
      | Some u => ret (VStr u)
      | None => beyond
      end
  | VTemplate _ => beyond
  | VObj fs =>
      if is_function (lookup "toUpperCase" fs) then beyond
      else throw "TypeError: toUpperCase is not a function"
  | _ => throw "TypeError: toUpperCase is not a function"
  end.

(** [a === 'lit'] *)
Definition str_is (lit : string) (v : jsval) : bool :=
  match v with VStr s => String.eqb s lit | _ => false end.

(** [const [a, b, c] = v]: the items that array destructuring reads. *)
Definition destructure (v : jsval) : M (list jsval) :=
  match v with
  | VArr items => ret items
  | VStr t =>
      if ascii_only t
      then ret (map (fun c => VStr (String c "")) (list_ascii_of_string t))
      else beyond
  | VTemplate _ => beyond
  | _ => throw "TypeError: not iterable"
  end.

Definition item (i : nat) (items : list jsval) : jsval := nth i items VUndefined.

(** The items that [v.forEach] visits. *)
Definition forEach_items (v : jsval) : M (list jsval) :=
  match v with
  | VArr items => ret items
  | VObj fs =>
      if is_function (lookup "forEach" fs) then beyond
      else throw "TypeError: forEach is not a function"
  | _ => throw "TypeError: forEach is not a function"
  end.

(** [v.toString()] *)
Definition toString_of (v : jsval) : M jsval :=
  match v with
  | VStr t => ret (VStr t)
  | VUndefined | VNull => throw "TypeError: cannot read properties of undefined"
  | _ => ret (VTemplate [v])
  end.

(** ** widgets.js: [_orientation] *)

Definition _orientation (str : jsval) : M jsval :=
  let str := if str_is "v" str then VStr "vertical" else str in
  let str := if str_is "h" str then VStr "horizontal" else str in
  try_catch
    (u <- upper_of str ;; ret (enum_member "Gtk.Orientation" u))
    (warning (VStr "wrong orientation value") ;;;
     ret (enum_member "Gtk.Orientation" (VStr "HORIZONTAL"))).

(** [(max - min) / 100] on numbers. *)
Definition step_increment (min max : jsval) : M jsval :=
  match min, max with
  | VNum a, VNum b => ret (VNum (PrimFloat.div (PrimFloat.sub b a) 100%float))
  | _, _ => beyond
  end.

(** ** Calling a function value *)

(** A caller's function is logged with its arguments and returns what the
    host says.  The two closures of Slider are the engine's own: the factory
    builds the scale; the scroll closure moves the adjustment, which this
    record of the object does not follow. *)
Definition call (f : jsval) (args : list jsval) : M jsval :=
  match f with
  | VFun id => log_call f args ;;; ret (user_ret H id args)
  | VScaleFactory orientation min max drawValue inverted =>
      o <- _orientation orientation ;;
      step <- step_increment min max ;;
      o <- as_enum o ;;
      ret (VWidget (new_gtk "Gtk.Scale"
             [("orientation", o);
              ("adjustment", VObj [("value", min); ("lower", min); ("upper", max);
                                   ("step_increment", step)]);
              ("drawValue", drawValue);
              ("inverted", inverted)]))
  | VSliderScroll => log_call f args ;;; ret VUndefined
  | VHelper _ => beyond
  | _ => throw "TypeError: not a function"
  end.

(** ** widget.ts: [handleEvent] *)

Definition handleEvent (callback : jsval) (args : list jsval) : M jsval :=
  r <- call callback args ;;
  if is_boolean r then ret r else ret (VBool true).

(** Running a connected closure when its signal fires on [widget].  [args]
    are the signal's arguments after the emitter; a legacy event is an
    object with its [event_type] and [button]. *)
Definition run_handler (widget : gtk) (h : handler) (args : list jsval) : M jsval :=
  match h with
  | HUser cb => call cb (VWidget widget :: args)
  | HEvent0 cb => handleEvent cb [VWidget widget]
  | HEventArgs cb => handleEvent cb (VWidget widget :: args)
  | HScrollUp cb =>
      match args with
      | [VNum dx; VNum dy] =>
          if PrimFloat.ltb dy 0%float || PrimFloat.ltb dx 0%float
          then handleEvent cb [VWidget widget; VNum dx; VNum dy]
          else ret (VBool false)
      | _ => beyond
      end
  | HScrollDown cb =>
      match args with
      | [VNum dx; VNum dy] =>
          if PrimFloat.ltb 0%float dy || PrimFloat.ltb 0%float dx
          then handleEvent cb [VWidget widget; VNum dx; VNum dy]
          else ret (VBool false)
      | _ => beyond
      end
  | HButtonPressed cb =>
      match args with
      | [VObj e] =>
          if str_is "BUTTON_PRESS" (lookup "event_type" e)
          then handleEvent cb [VWidget widget; lookup "button" e]
          else ret (VBool false)
      | _ => beyond
      end
  | HButtonReleased cb =>
      match args with
      | [VObj e] =>
          if str_is "BUTTON_RELEASE" (lookup "event_type" e)
          then handleEvent cb [VWidget widget; lookup "button" e]
          else ret (VBool false)
      | _ => beyond
      end
  | HNotify cb =>
      if is_function cb then call cb (VWidget widget :: args) else beyond
  | HEntryChange onAccept onChange =>
      if is_function onAccept then call onChange (VWidget widget :: args) else beyond
  | HRunCmd _ => beyond
  end.

(** Modelled from the spec: the toolkit's emission of an event over the
    closures connected to a controller, which is not among the sources; the
    propagation convention of the spec is its description.  The closures
    run in the order they were connected, and one that hands back the
    boolean [stop] ends the propagation to the closures after it; any other
    value lets it continue.  The convention of the spec is [stop = false]: a
    literal [false] stops the propagation.  The result tells whether the
    propagation was stopped. *)
Fixpoint emit (stop : bool) (widget : gtk) (hs : list handler) (args : list jsval)
    : M bool :=
  match hs with
  | [] => ret false
  | h :: r =>
      v <- run_handler widget h args ;;
      match v with
      | VBool b => if Bool.eqb b stop then ret true else emit stop widget r args
      | _ => emit stop widget r args
      end
  end.

(** ** widget.ts: [parseEventListeners] *)

(** [if (slot) controller.connect(signal, closure)] *)
Definition wire (slot : jsval) (signal : string) (h : jsval -> handler)
    (ctl : controller) : controller :=
  if truthy slot then ctl_connect signal (h slot) ctl else ctl.

(** The controller is attached first and wired afterwards in the source;
    the object holds it by reference, so the record shows it fully wired. *)
Definition parseEventListeners (widget : gtk) (ls : list (string * jsval)) : gtk :=
  let onFocusEnter := lookup "onFocusEnter" ls in
  let onFocusLeave := lookup "onFocusLeave" ls in
  let onKeyPressed := lookup "onKeyPressed" ls in
  let onKeyReleased := lookup "onKeyReleased" ls in
  let onMotion := lookup "onMotion" ls in
  let onHoverEnter := lookup "onHoverEnter" ls in
  let onHoverLeave := lookup "onHoverLeave" ls in
  let onScroll := lookup "onScroll" ls in
  let onScrollUp := lookup "onScrollUp" ls in
  let onScrollDown := lookup "onScrollDown" ls in
  let onButtonPressed := lookup "onButtonPressed" ls in
  let onButtonReleased := lookup "onButtonReleased" ls in
  let widget :=
    if truthy onFocusLeave || truthy onFocusEnter then
      add_controller
        (wire onFocusLeave "leave" HEvent0
        (wire onFocusEnter "enter" HEvent0
        (MkCtrl Focus [] []))) widget
    else widget in
  let widget :=
    if truthy onKeyReleased || truthy onKeyPressed then
      add_controller
        (wire onKeyReleased "key-released" HEventArgs
        (wire onKeyPressed "key-pressed" HEventArgs
        (MkCtrl Key [] []))) widget
    else widget in
  let widget :=
    if truthy onMotion || truthy onHoverLeave || truthy onHoverEnter then
      add_controller
        (wire onHoverEnter "enter" HEventArgs
        (wire onHoverLeave "leave" HEvent0
        (wire onMotion "motion" HEventArgs
        (MkCtrl Motion [] [])))) widget
    else widget in
  let widget :=
    if truthy onScroll || truthy onScrollUp || truthy onScrollDown then
      add_controller
        (wire onScrollDown "scroll" HScrollDown
        (wire onScrollUp "scroll" HScrollUp
        (wire onScroll "scroll" HEventArgs
        (ctl_set_flags "BOTH_AXES" (MkCtrl Scroll [] []))))) widget
    else widget in
  let widget :=
    if truthy onButtonPressed || truthy onButtonReleased then
      add_controller
        (wire onButtonReleased "event" HButtonReleased
        (wire onButtonPressed "event" HButtonPressed
        (MkCtrl Legacy [] []))) widget
    else widget in
  widget.

Definition listener_slots : list string :=
  ["onFocusEnter"; "onFocusLeave"; "onKeyPressed"; "onKeyReleased";
   "onMotion"; "onHoverEnter"; "onHoverLeave";
   "onButtonPressed"; "onButtonReleased";
   "onScroll"; "onScrollDown"; "onScrollUp"].

(** The slots of a controller family. *)
Definition slots_of (f : family) : list string :=
  match f with
  | Focus => ["onFocusEnter"; "onFocusLeave"]
  | Key => ["onKeyPressed"; "onKeyReleased"]
  | Motion => ["onMotion"; "onHoverEnter"; "onHoverLeave"]
  | Scroll => ["onScroll"; "onScrollUp"; "onScrollDown"]
  | Legacy => ["onButtonPressed"; "onButtonReleased"]
  end.

(** A family has a populated slot: the test the source makes. *)
Definition populated (f : family) (ls : list (string * jsval)) : bool :=
  existsb (fun k => truthy (lookup k ls)) (slots_of f).

(** The same on whatever value stands where the widget should be: with no
    slot populated nothing is touched; otherwise [add_controller] is looked
    up on the receiver. *)
Definition parseEventListeners_on (widget : jsval) (ls : list (string * jsval)) : M jsval :=
  match widget with
  | VWidget w => ret (VWidget (parseEventListeners w ls))
  | _ =>
      if existsb (fun f => populated f ls) [Focus; Key; Motion; Scroll; Legacy] then
        match widget with
        | VObj _ => beyond
        | _ => throw "TypeError: add_controller is not a function"
        end
      else ret widget
  end.

(** ** widget.ts: [parseParams] *)

(** [className.split(' ').forEach(cn => { if (cn) widget.add_css_class(cn) })] *)
Definition apply_classes (className : string) (widget : gtk) : gtk :=
  fold_left (fun w cn => if negb (String.eqb cn "") then add_css_class cn w else w)
            (split " " className) widget.

(** [try { widget[attr] = Gtk.Align[v.toUpperCase()] } catch (err) { warning(msg) }] *)
Definition apply_align (attr : string) (v : jsval) (msg : string) (widget : gtk) : M gtk :=
  if is_string v then
    try_catch
      (u <- upper_of v ;;
       a <- as_enum (enum_member "Gtk.Align" u) ;;
       ret (set_attr attr a widget))
      (warning (VStr msg) ;;; ret widget)
  else ret widget.

(** [widget[`_${key}`] = value] for each pair of [properties]. *)
Definition apply_property (widget : gtk) (entry : jsval) : M gtk :=
  kv <- destructure entry ;;
  match template [VStr "_"; item 0 kv] with
  | VStr name => ret (set_attr name (item 1 kv) widget)
  | _ => beyond
  end.

(** One triple of [connections]. *)
Definition apply_connection (widget : gtk) (triple : jsval) : M gtk :=
  t <- destructure triple ;;
  let s := item 0 t in
  let callback := item 1 t in
  let event := item 2 t in
  match s with
  | VStr signal => ret (connect signal (HUser callback) widget)
  | VTemplate _ => beyond
  | VNum _ => ret (add_timer s callback widget)
  | VObj fs =>
      match lookup "instance" fs with
      | VObj inst =>
          call (lookup "connectWidget" inst) [VWidget widget; callback; event] ;;;
          ret widget
      | _ => throw "TypeError: connectWidget is not a function"
      end
  | _ => throw "TypeError: cannot read properties of instance"
  end.

Definition typechecks (ps : list (string * jsval)) (type : jsval) : M unit :=
  typecheck "className" (lookup "className" ps) [KString; KUndefined] type ;;;
  typecheck "style" (lookup "style" ps) [KString; KUndefined] type ;;;
  typecheck "sensitive" (lookup "sensitive" ps) [KBoolean; KUndefined] type ;;;
  typecheck "tooltip" (lookup "tooltip" ps) [KString; KUndefined] type ;;;
  typecheck "halign" (lookup "halign" ps) [KString; KUndefined] type ;;;
  typecheck "valign" (lookup "valign" ps) [KString; KUndefined] type ;;;
  typecheck "hexpand" (lookup "hexpand" ps) [KBoolean; KUndefined] type ;;;
  typecheck "vexpand" (lookup "vexpand" ps) [KBoolean; KUndefined] type ;;;
  typecheck "visible" (dflt (lookup "visible" ps) (VBool true)) [KBoolean] type.

(** Everything [parseParams] does before it looks at [setup]. *)
Definition configure (widget : gtk) (ps : list (string * jsval)) : M gtk :=
  let className := lookup "className" ps in
  let style := lookup "style" ps in
  let sensitive := lookup "sensitive" ps in
  let tooltip := lookup "tooltip" ps in
  let connections := lookup "connections" ps in
  let properties := lookup "properties" ps in
  let halign := lookup "halign" ps in
  let valign := lookup "valign" ps in
  let hexpand := lookup "hexpand" ps in
  let vexpand := lookup "vexpand" ps in
  let visible := dflt (lookup "visible" ps) (VBool true) in
  let widget := set_attr "setStyle" (VHelper "setStyle") widget in
  let widget := set_attr "toggleClassName" (VHelper "toggleClassName") widget in
  widget <- match className with
            | VStr cn => ret (apply_classes cn widget)
            | VTemplate _ => beyond
            | _ => ret widget
            end ;;
  widget <- apply_align "halign" halign "wrong halign value" widget ;;
  widget <- apply_align "valign" valign "wrong valign value" widget ;;
  let widget := if is_boolean hexpand then set_attr "hexpand" hexpand widget else widget in
  let widget := if is_boolean vexpand then set_attr "vexpand" vexpand widget else widget in
  let widget := if is_boolean sensitive then set_attr "sensitive" sensitive widget else widget in
  let widget := if is_string tooltip then set_attr "tooltip_text" tooltip widget else widget in
  let widget := if is_string style then setStyle widget style else widget in
  let widget := if is_boolean visible then set_attr "visible" visible widget else widget in
  widget <- (if truthy properties
             then ps <- forEach_items properties ;; foldM apply_property widget ps
             else ret widget) ;;
  widget <- (if truthy connections
             then cs <- forEach_items connections ;; foldM apply_connection widget cs
             else ret widget) ;;
  ret widget.

Definition parseParams (widget : gtk) (ps : list (string * jsval)) : M gtk :=
  type <- toString_of (lookup "type" ps) ;;
  typechecks ps type ;;;
  widget <- configure widget ps ;;
  let setup := lookup "setup" ps in
  if is_function setup
  then call setup [VWidget widget] ;;; ret widget
  else ret widget.

(** The same on whatever value stands where the widget should be: the
    first write, [widget.setStyle = ...], throws on a primitive. *)
Definition parseParams_on (widget : jsval) (ps : list (string * jsval)) : M jsval :=
  match widget with
  | VWidget w => w' <- parseParams w ps ;; ret (VWidget w')
  | _ =>
      type <- toString_of (lookup "type" ps) ;;
      typechecks ps type ;;;
      match widget with
      | VArr _ | VObj _ | VFun _ | VScaleFactory _ _ _ _ _ | VSliderScroll | VHelper _ =>
          beyond
      | _ => throw "TypeError: cannot create property setStyle"
      end
  end.

(** ** Descriptors under construction

    A constructor receives a copy of the descriptor's properties; the values
    in it are the caller's own objects.  The frame is the descriptor as the
    caller holds it: what the engine writes through those shared objects is
    written there. *)

Definition fields := list (string * jsval).
Definition frame := (fields * world)%type.
Definition F (A : Type) := St frame A.

Definition lift {A} (m : M A) : F A :=
  fun s => let (o, W') := m (snd s) in (o, (fst s, W')).

(** [Widget]: the built value and the descriptor as it is afterwards. *)
Definition builder := jsval -> world -> (outcome jsval * jsval) * world.

Fixpoint replace_nth {A} (i : nat) (x : A) (l : list A) : list A :=
  match l, i with
  | [], _ => []
  | _ :: r, O => x :: r
  | y :: r, S j => y :: replace_nth j x r
  end.

Definition put_key (k : string) (v : jsval) (fs : fields) : fields :=
  if has_key k fs then assign k v fs else fs.

Definition item_at (k : string) (i : nat) (fs : fields) : jsval :=
  match lookup k fs with
  | VArr items => nth i items VUndefined
  | _ => VUndefined
  end.

Definition put_item (k : string) (i : nat) (v : jsval) (fs : fields) : fields :=
  match lookup k fs with
  | VArr items => assign k (VArr (replace_nth i v items)) fs
  | _ => fs
  end.

(** The second element of the array at [k][i], or the second character of
    the string there: what [const [name, widget] = item] binds to [widget]. *)
Definition second_at (k : string) (i : nat) (fs : fields) : jsval :=
  match item_at k i fs with
  | VArr xs => nth 1 xs VUndefined
  | VStr t =>
      match String.get 1 t with
      | Some c => VStr (String c "")
      | None => VUndefined
      end
  | _ => VUndefined
  end.

Definition put_second (k : string) (i : nat) (v : jsval) (fs : fields) : fields :=
  match item_at k i fs with
  | VArr xs => put_item k i (VArr (replace_nth 1 v xs)) fs
  | _ => fs
  end.

(** [Widget(x)] for a descriptor [x] that the frame holds. *)
Definition build_at (build : builder) (get : fields -> jsval)
    (put : jsval -> fields -> fields) : F jsval :=
  fun s =>
    let '((o, post), W') := build (get (fst s)) (snd s) in
    (o, (put post (fst s), W')).

Definition build_key (build : builder) (k : string) : F jsval :=
  build_at build (lookup k) (put_key k).

Definition build_item (build : builder) (k : string) (i : nat) : F jsval :=
  build_at build (item_at k i) (put_item k i).

Definition build_second (build : builder) (k : string) (i : nat) : F jsval :=
  build_at build (second_at k i) (put_second k i).

(** [a || b] *)
Definition js_or (a b : jsval) : jsval := if truthy a then a else b.

(** [if (child) parent.set_child(Widget(child))] *)
Definition set_child_of (build : builder) (child : jsval) (parent : gtk) : F gtk :=
  if truthy child
  then c <- build_key build "child" ;; ret (invoke "set_child" c parent)
  else ret parent.

(** [try { parent[attr] = E[v.toUpperCase()] } catch (err) { h }] *)
Definition set_enum_attr (attr E : string) (v : jsval) (parent : gtk) (h : M gtk) : M gtk :=
  try_catch
    (u <- upper_of v ;;
     a <- as_enum (enum_member E u) ;;
     ret (set_attr attr a parent))
    h.

(** A [catch (error) { error(msg) }] block of widgets.js: inside it [error]
    is the caught exception, which is not a function. *)
Definition call_caught_error {A} : M A := throw "TypeError: error is not a function".

(** ** widgets.js: the leaf constructors *)

Definition check (name : string) (value : jsval) (expected : list kind)
    (context : jsval) : F unit :=
  lift (typecheck name value expected context).

Section Constructors.

Variable build : builder.   (* [Widget], for nested descriptors *)

Fixpoint append_children (i : nat) (items : list jsval) (box : gtk) : F gtk :=
  match items with
  | [] => ret box
  | _ :: r =>
      c <- build_item build "children" i ;;
      append_children (S i) r (invoke "append" c box)
  end.

Definition Box (props : fields) : F jsval :=
  let type := lookup "type" props in
  let orientation := dflt (lookup "orientation" props) (VStr "horizontal") in
  let homogeneous := dflt (lookup "homogeneous" props) (VBool false) in
  let children := dflt (lookup "children" props) (VArr []) in
  let rest := delete_all ["type"; "orientation"; "homogeneous"; "children"] props in
  check "orientation" orientation [KString] type ;;;
  check "homogeneous" homogeneous [KBoolean] type ;;;
  check "children" children [KArray] type ;;;
  lift (restcheck rest type) ;;;
  o <- lift (_orientation orientation) ;;
  o <- lift (as_enum o) ;;
  let box := new_gtk "Gtk.Box" [("orientation", o); ("homogeneous", homogeneous)] in
  items <- lift (forEach_items children) ;;
  box <- append_children 0 items box ;;
  ret (VWidget (set_attr "removeChildren" (VHelper "removeChildren") box)).

Definition CenterBox (props : fields) : F jsval :=
  let type := lookup "type" props in
  let orientation := dflt (lookup "orientation" props) (VStr "horizontal") in
  let rest := delete_all ["type"; "startWidget"; "centerWidget"; "endWidget";
                          "orientation"] props in
  lift (restcheck rest type) ;;;
  o <- lift (_orientation orientation) ;;
  s <- build_key build "startWidget" ;;
  c <- build_key build "centerWidget" ;;
  e <- build_key build "endWidget" ;;
  o <- lift (as_enum o) ;;
  ret (VWidget (new_gtk "Gtk.CenterBox"
         [("orientation", o); ("start_widget", s); ("center_widget", c);
          ("end_widget", e)])).

Definition Icon (props : fields) : F jsval :=
  let type := lookup "type" props in
  let iconName := dflt (lookup "iconName" props) (VStr "") in
  let icon := lookup "icon" props in
  let rest := delete_all ["type"; "iconName"; "icon"] props in
  let iconName := if truthy icon then icon else iconName in
  check "iconName" iconName [KString] type ;;;
  lift (restcheck rest type) ;;;
  ret (VWidget (new_gtk "Gtk.Image" [("icon_name", iconName)])).

Definition Label (props : fields) : F jsval :=
  let type := lookup "type" props in
  let label := dflt (lookup "label" props) (VStr "") in
  let markup := dflt (lookup "markup" props) (VBool false) in
  let wrap := dflt (lookup "wrap" props) (VBool false) in
  let maxWidth := dflt (lookup "maxWidth" props) (VNum (-1)%float) in
  let justify := dflt (lookup "justify" props) (VStr "center") in
  let xalign := dflt (lookup "xalign" props) (VNum 0.5%float) in
  let yalign := dflt (lookup "yalign" props) (VNum 0.5%float) in
  let rest := delete_all ["type"; "label"; "markup"; "wrap"; "maxWidth"; "justify";
                          "xalign"; "yalign"] props in
  check "label" label [KString] type ;;;
  check "markup" (js_or markup (VBool false)) [KBoolean] type ;;;
  check "wrap" (js_or wrap (VBool false)) [KBoolean] type ;;;
  check "justify" (js_or justify (VStr "")) [KString] type ;;;
  check "xalign" xalign [KNumber] type ;;;
  check "yalign" yalign [KNumber] type ;;;
  lift (restcheck rest type) ;;;
  let lbl := new_gtk "Gtk.Label"
               [("label", label); ("use_markup", markup); ("max_width_chars", maxWidth);
                ("wrap", wrap); ("xalign", xalign); ("yalign", yalign)] in
  lbl <- lift (set_enum_attr "justify" "Gtk.Justification" justify lbl
                 (warning (VStr "wrong justify value") ;;; ret lbl)) ;;
  ret (VWidget lbl).

Definition Button (props : fields) : F jsval :=
  let type := lookup "type" props in
  let child := lookup "child" props in
  let onClick := dflt (lookup "onClick" props) (VStr "") in
  let rest := delete_all ["type"; "child"; "onClick"] props in
  check "onClick" onClick [KString; KFunction] type ;;;
  lift (restcheck rest type) ;;;
  let btn := new_gtk "Gtk.Button" [] in
  btn <- set_child_of build child btn ;;
  ret (VWidget (connect "clicked" (HRunCmd onClick) btn)).

Definition Slider (props : fields) : F jsval :=
  let type := lookup "type" props in
  let inverted := dflt (lookup "inverted" props) (VBool false) in
  let orientation := dflt (lookup "orientation" props) (VStr "horizontal") in
  let min := dflt (lookup "min" props) (VNum 0%float) in
  let max := dflt (lookup "max" props) (VNum 1%float) in
  let value := dflt (lookup "value" props) (VNum 0%float) in
  let onChange := dflt (lookup "onChange" props) (VStr "") in
  let drawValue := dflt (lookup "drawValue" props) (VBool false) in
  let rest := delete_all ["type"; "inverted"; "orientation"; "min"; "max"; "value";
                          "onChange"; "drawValue"] props in
  check "inverted" inverted [KBoolean] type ;;;
  check "orientation" orientation [KString] type ;;;
  check "min" min [KNumber] type ;;;
  check "max" max [KNumber] type ;;;
  check "onChange" onChange [KString; KFunction] type ;;;
  check "value" value [KNumber] type ;;;
  check "drawValue" drawValue [KBoolean] type ;;;
  lift (restcheck rest type) ;;;
  slider <- lift (fun W =>
              let '((o, _), W') :=
                build (VObj [("type", VScaleFactory orientation min max drawValue inverted);
                             ("onScroll", VSliderScroll)]) W in
              (o, W')) ;;
  match slider with
  | VWidget w =>
      if truthy onChange
      then ret (VWidget (connect "adjustment::notify::value" (HNotify onChange) w))
      else ret slider
  | _ => if truthy onChange then beyond else ret slider
  end.

(** [items.forEach(([name, widget]) => { if (widget) stack.add_named(Widget(widget), name) })] *)
Fixpoint add_items (i : nat) (items : list jsval) (stack : gtk) : F gtk :=
  match items with
  | [] => ret stack
  | entry :: r =>
      nw <- lift (destructure entry) ;;
      stack <- (if truthy (item 1 nw)
                then c <- build_second build "items" i ;;
                     ret (invoke "add_named" c
                            (invoke "name" (item 0 nw) stack))
                else ret stack) ;;
      add_items (S i) r stack
  end.

Definition Stack (props : fields) : F jsval :=
  let type := lookup "type" props in
  let items := dflt (lookup "items" props) (VArr []) in
  let hhomogeneous := dflt (lookup "hhomogeneous" props) (VBool true) in
  let vhomogeneous := dflt (lookup "vhomogeneous" props) (VBool true) in
  let interpolateSize := dflt (lookup "interpolateSize" props) (VBool false) in
  let transition := dflt (lookup "transition" props) (VStr "none") in
  let transitionDuration := dflt (lookup "transitionDuration" props) (VNum 200%float) in
  let rest := delete_all ["type"; "items"; "hhomogeneous"; "vhomogeneous";
                          "interpolateSize"; "transition"; "transitionDuration"] props in
  check "hhomogeneous" hhomogeneous [KBoolean] type ;;;
  check "vhomogeneous" vhomogeneous [KBoolean] type ;;;
  check "interpolateSize" interpolateSize [KBoolean] type ;;;
  check "transition" transition [KString] type ;;;
  check "transitionDuration" transitionDuration [KNumber] type ;;;
  check "items" items [KArray] type ;;;
  lift (restcheck rest type) ;;;
  let stack := new_gtk "Gtk.Stack"
                 [("hhomogeneous", hhomogeneous); ("vhomogeneous", vhomogeneous);
                  ("interpolateSize", interpolateSize);
                  ("transitionDuration", transitionDuration)] in
  stack <- lift (set_enum_attr "transitionType" "Gtk.StackTransitionType" transition
                   stack call_caught_error) ;;
  its <- lift (forEach_items items) ;;
  stack <- add_items 0 its stack ;;
  ret (VWidget (set_attr "showChild" (VHelper "showChild") stack)).

Definition Entry (props : fields) : F jsval :=
  let type := lookup "type" props in
  let text := dflt (lookup "text" props) (VStr "") in
  let placeholderText := dflt (lookup "placeholderText" props) (VStr "") in
  let visibility := dflt (lookup "visibility" props) (VBool true) in
  let onChange := dflt (lookup "onChange" props) (VStr "") in
  let onAccept := dflt (lookup "onAccept" props) (VStr "") in
  let rest := delete_all ["type"; "text"; "placeholderText"; "visibility"; "onChange";
                          "onAccept"] props in
  check "text" text [KString] type ;;;
  check "placeholderText" placeholderText [KString] type ;;;
  check "onChange" onChange [KString; KFunction] type ;;;
  check "onAccept" onAccept [KString; KFunction] type ;;;
  check "visibility" visibility [KBoolean] type ;;;
  lift (restcheck rest type) ;;;
  let entry := new_gtk "Gtk.Entry"
                 [("placeholderText", placeholderText); ("visibility", visibility);
                  ("text", text)] in
  let entry := if truthy onAccept
               then connect "activate" (HNotify onAccept) entry else entry in
  let entry := if truthy onChange
               then connect "buffer::notify::text" (HEntryChange onAccept onChange) entry
               else entry in
  ret (VWidget entry).

Definition Scrollable (props : fields) : F jsval :=
  let type := lookup "type" props in
  let child := lookup "child" props in
  let hscroll := dflt (lookup "hscroll" props) (VStr "automatic") in
  let vscroll := dflt (lookup "vscroll" props) (VStr "automatic") in
  let rest := delete_all ["type"; "child"; "hscroll"; "vscroll"] props in
  check "hscroll" hscroll [KString] type ;;;
  check "vscroll" vscroll [KString] type ;;;
  lift (restcheck rest type) ;;;
  let scrollable := new_gtk "Gtk.ScrolledWindow"
                      [("hadjustment", VObj []); ("vadjustment", VObj [])] in
  scrollable <- lift (try_catch
                  (hu <- upper_of hscroll ;;
                   vu <- upper_of vscroll ;;
                   h <- as_enum (enum_member "Gtk.PolicyType" hu) ;;
                   v <- as_enum (enum_member "Gtk.PolicyType" vu) ;;
                   ret (set_attr "vscrollbar_policy" v
                          (set_attr "hscrollbar_policy" h scrollable)))
                  call_caught_error) ;;
  scrollable <- set_child_of build child scrollable ;;
  ret (VWidget scrollable).

Definition Revealer (props : fields) : F jsval :=
  let type := lookup "type" props in
  let transition := dflt (lookup "transition" props) (VStr "crossfade") in
  let transitionDuration := dflt (lookup "transitionDuration" props) (VNum 250%float) in
  let duration := lookup "duration" props in
  let child := lookup "child" props in
  let rest := delete_all ["type"; "transition"; "transitionDuration"; "duration";
                          "child"] props in
  let transitionDuration := if truthy duration then duration else transitionDuration in
  check "transition" transition [KString] type ;;;
  check "transitionDuration" transitionDuration [KNumber] type ;;;
  lift (restcheck rest type) ;;;
  let revealer := new_gtk "Gtk.Revealer" [("transitionDuration", transitionDuration)] in
  revealer <- lift (set_enum_attr "transitionType" "Gtk.RevealerTransitionType"
                      transition revealer call_caught_error) ;;
  revealer <- set_child_of build child revealer ;;
  ret (VWidget revealer).

(** [delete w.measure; delete w.clip] *)
Definition delete_measure_clip (w : jsval) : jsval :=
  match w with
  | VObj fs => VObj (delete "clip" (delete "measure" fs))
  | _ => w
  end.

(** [w.k] on an overlay entry; a live object has no boolean under these names. *)
Definition entry_prop (k : string) (w : jsval) : jsval :=
  match w with
  | VObj fs => lookup k fs
  | _ => VUndefined
  end.

(** [const { measure, clip } = w; delete w.measure; delete w.clip] on the
    entry [w] at index [i] of [overlays]: the entry as it was read, and the
    frame with the two keys gone from it. *)
Definition take_measure_clip (i : nat) : F jsval :=
  fun s =>
    let w := item_at "overlays" i (fst s) in
    match w with
    | VUndefined | VNull => (Throw "TypeError: cannot destructure", s)
    | _ => (Ok w, (put_item "overlays" i (delete_measure_clip w) (fst s), snd s))
    end.

Fixpoint add_overlays (i : nat) (items : list jsval) (overlay : gtk) : F gtk :=
  match items with
  | [] => ret overlay
  | _ :: r =>
      w <- take_measure_clip i ;;
      let measure := entry_prop "measure" w in
      let clip := entry_prop "clip" w in
      widget <- build_item build "overlays" i ;;
      let overlay := invoke "add_overlay" widget overlay in
      let overlay := if is_boolean clip
                     then invoke "set_clip_overlay" clip overlay else overlay in
      let overlay := if is_boolean measure
                     then invoke "set_measure_overlay" measure overlay else overlay in
      add_overlays (S i) r overlay
  end.

Definition Overlay (props : fields) : F jsval :=
  let type := lookup "type" props in
  let overlays := dflt (lookup "overlays" props) (VArr []) in
  let child := lookup "child" props in
  let rest := delete_all ["type"; "overlays"; "child"] props in
  check "children" overlays [KArray] type ;;;
  lift (restcheck rest type) ;;;
  let overlay := new_gtk "Gtk.Overlay" [] in
  overlay <- set_child_of build child overlay ;;
  items <- lift (forEach_items overlays) ;;
  overlay <- add_overlays 0 items overlay ;;
  ret (VWidget overlay).

Definition Switch (props : fields) : F jsval :=
  let type := lookup "type" props in
  let active := dflt (lookup "active" props) (VBool false) in
  let onActivate := dflt (lookup "onActivate" props) (VStr "") in
  let rest := delete_all ["type"; "active"; "onActivate"] props in
  check "active" active [KBoolean] type ;;;
  check "onActivate" onActivate [KString; KFunction] type ;;;
  lift (restcheck rest type) ;;;
  let gtkswitch := new_gtk "Gtk.Switch" [("active", active)] in
  ret (VWidget (if truthy onActivate
                then connect "notify::active" (HNotify onActivate) gtkswitch
                else gtkswitch)).

End Constructors.

(** ** widget.ts: the registry *)

(** [Basic.ProgressBar] is not exported by widgets.js: the key is there and
    its value is [undefined]. *)
Definition widgets (build : builder) : list (string * option (fields -> F jsval)) :=
  [("box", Some (Box build));
   ("button", Some (Button build));
   ("centerbox", Some (CenterBox build));
   ("entry", Some Entry);
   ("icon", Some Icon);
   ("label", Some Label);
   ("overlay", Some (Overlay build));
   ("progressbar", None);
   ("revealer", Some (Revealer build));
   ("scrollable", Some (Scrollable build));
   ("slider", Some (Slider build));
   ("stack", Some (Stack build));
   ("switch", Some Switch)].

(** The properties every object literal inherits from [Object.prototype]. *)
Definition object_prototype : list string :=
  ["constructor"; "__defineGetter__"; "__defineSetter__"; "hasOwnProperty";
   "__lookupGetter__"; "__lookupSetter__"; "isPrototypeOf"; "propertyIsEnumerable";
   "toString"; "valueOf"; "__proto__"; "toLocaleString"].

Fixpoint own {A} (k : string) (table : list (string * A)) : option A :=
  match table with
  | [] => None
  | (k', a) :: r => if String.eqb k k' then Some a else own k r
  end.

Definition is_some {A} (o : option A) : bool :=
  match o with Some _ => true | None => false end.

(** [type in widgets]: own keys and inherited ones (the keys of the table
    do not depend on the builder it is given). *)
Definition in_widgets (type : string) : bool :=
  is_some (own type (widgets (fun p W => ((Beyond, p), W))))
  || existsb (String.eqb type) object_prototype.

(** [widgets[type](props)] for a [type] that is [in widgets]. *)
Definition widgets_call (build : builder) (type : string) (props : fields) : F jsval :=
  match own type (widgets build) with
  | Some (Some constructor) => constructor props
  | Some None => throw "TypeError: widgets[type] is not a function"
  | None =>
      if String.eqb type "toString" || String.eqb type "toLocaleString"
      then ret (VStr "[object Object]")
      else if String.eqb type "isPrototypeOf"
      then ret (VBool false)
      else if String.eqb type "__proto__" || String.eqb type "__defineGetter__"
              || String.eqb type "__defineSetter__"
      then throw "TypeError: not a function"
      else beyond
  end.

(** ** widget.ts: [Widget] *)

Definition dquote : string := String (ascii_of_nat 34) EmptyString.

Definition param_keys : list string :=
  ["type"; "className"; "style"; "halign"; "valign"; "connections"; "properties";
   "hexpand"; "vexpand"; "sensitive"; "tooltip"; "visible"; "setup"].

(** [{ k1, k2, ... }] built from the destructured names. *)
Definition pick (ks : list string) (fs : fields) : fields :=
  map (fun k => (k, lookup k fs)) ks.

(** [new Gtk.Label({ label })] *)
Definition text_label (label : jsval) : jsval :=
  VWidget (new_gtk "Gtk.Label" [("label", label)]).

(** The two passes over the object that was obtained: [parseParams], then
    [parseEventListeners]. *)
Definition finish (widget : jsval) (fs : fields) : M jsval :=
  widget <- parseParams_on widget (pick param_keys fs) ;;
  parseEventListeners_on widget (pick listener_slots fs).

(** The structured path of [Widget], from the destructuring on, for a
    descriptor with fields [fs]; it runs on the frame of that descriptor. *)
Definition structured (build : builder) (fs : fields) : F jsval :=
  let type := lookup "type" fs in
  let props := delete_all (param_keys ++ listener_slots) fs in
  widget <- (if is_function type then lift (call type []) else ret VNull) ;;
  widget <- match type with
            | VStr t =>
                if in_widgets t then widgets_call build t (("type", type) :: props)
                else ret widget
            | VTemplate _ => beyond
            | _ => ret widget
            end ;;
  match widget with
  | VNull =>
      lift (error (template [VStr "There is no widget with type "; type])) ;;;
      ret (text_label (template [type; VStr " doesn't exist"]))
  | _ => lift (finish widget fs)
  end.

Fixpoint Widget_fuel (n : nat) (params : jsval) (W : world)
    : (outcome jsval * jsval) * world :=
  match n with
  | O => ((OutOfFuel, params), W)
  | S n' =>
      if negb (truthy params) then
        let (_, W') := error (VStr "Widget from null/undefined") W in
        ((Ok (text_label (template [VStr "error widget from: "; VStr dquote; params;
                                    VStr dquote])), params), W')
      else if is_string params then ((Ok (text_label params), params), W)
      else if is_function params then
        let (o, W') := call params [] W in ((o, params), W')
      else
        match params with
        | VWidget _ => ((Ok params, params), W)
        | VObj fs =>
            let '(o, (fs', W')) := structured (Widget_fuel n') fs (fs, W) in
            ((o, VObj fs'), W')
        | _ =>
            let '(o, (_, W')) := structured (Widget_fuel n') [] ([], W) in
            ((o, params), W')
        end
  end.

(** How deep arrays and objects nest inside a value. *)
Fixpoint depth (v : jsval) : nat :=
  match v with
  | VArr items =>
      S ((fix go (l : list jsval) : nat :=
            match l with [] => 0 | x :: r => Nat.max (depth x) (go r) end) items)
  | VObj fs =>
      S ((fix go (l : list (string * jsval)) : nat :=
            match l with [] => 0 | (_, x) :: r => Nat.max (depth x) (go r) end) fs)
  | _ => 0
  end.

Definition Widget (params : jsval) (W : world) : (outcome jsval * jsval) * world :=
  Widget_fuel (S (S (depth params))) params W.

(** ** window.ts: [Window] *)

(** The [switch (margin.length)] table: side and index into [margin]. *)
Definition margins_for (length : nat) : list (string * nat) :=
  match length with
  | 1 => [("TOP", 0); ("RIGHT", 0); ("BOTTOM", 0); ("LEFT", 0)]
  | 2 => [("TOP", 0); ("RIGHT", 1); ("BOTTOM", 0); ("LEFT", 1)]
  | 3 => [("TOP", 0); ("RIGHT", 1); ("BOTTOM", 2); ("LEFT", 1)]
  | 4 => [("TOP", 0); ("RIGHT", 1); ("BOTTOM", 2); ("LEFT", 3)]
  | _ => []
  end.

(** [margin.length] against the four cases, for the values that have one. *)
Definition margin_table (margin : jsval) : M (list (string * nat)) :=
  match margin with
  | VArr items => ret (margins_for (List.length items))
  | VStr t => if ascii_only t then ret (margins_for (String.length t)) else beyond
  | VObj fs =>
      match lookup "length" fs with
      | VNum x =>
          ret (if PrimFloat.eqb x 1%float then margins_for 1
               else if PrimFloat.eqb x 2%float then margins_for 2
               else if PrimFloat.eqb x 3%float then margins_for 3
               else if PrimFloat.eqb x 4%float then margins_for 4
               else [])
      | _ => ret []
      end
  | VBool _ | VNum _ => ret []
  | _ => beyond
  end.

Definition index_key (i : nat) : string :=
  match i with 0 => "0" | 1 => "1" | 2 => "2" | _ => "3" end.

(** [margin[i]] for [i] below four. *)
Definition margin_index (margin : jsval) (i : nat) : jsval :=
  match margin with
  | VArr items => nth i items VUndefined
  | VStr t => match String.get i t with
              | Some c => VStr (String c "")
              | None => VUndefined
              end
  | VObj fs => lookup (index_key i) fs
  | _ => VUndefined
  end.

Definition apply_margin (margin : jsval) (win : gtk) : M gtk :=
  if truthy margin then
    let margin := if is_number margin then VArr [margin] else margin in
    margins <- margin_table margin ;;
    foldM (fun win si =>
             e <- as_enum (enum_member "GtkLayerShell.Edge" (VStr (fst si))) ;;
             ret (invoke "set_margin" (VArr [e; margin_index margin (snd si)]) win))
          win margins
  else ret win.

Definition apply_anchor (anchor : jsval) (win : gtk) : M gtk :=
  if truthy anchor then
    match anchor with
    | VStr a =>
        match trim a with
        | Some t =>
            foldM (fun win side =>
                     try_catch
                       (u <- upper_of (VStr side) ;;
                        e <- as_enum (enum_member "GtkLayerShell.Edge" u) ;;
                        ret (invoke "set_anchor" (VArr [e; VBool true]) win))
                       (warning (VStr "wrong anchor value") ;;; ret win))
                  win (split " " t)
        | None => beyond
        end
    | VTemplate _ | VObj _ => beyond
    | _ => throw "TypeError: anchor.trim is not a function"
    end
  else ret win.

(** [GtkLayerShell.set_layer(win, GtkLayerShell.Layer[layer?.toUpperCase()])] *)
Definition apply_layer (layer : jsval) (win : gtk) : M gtk :=
  u <- match layer with
       | VUndefined | VNull => ret VUndefined
       | _ => upper_of layer
       end ;;
  l <- as_enum (enum_member "GtkLayerShell.Layer" u) ;;
  ret (invoke "set_layer" l win).

Definition apply_monitor (monitor : jsval) (win : gtk) : M gtk :=
  if is_number monitor then
    if monitor_at H monitor then ret (invoke "set_monitor" monitor win)
    else warning (template [VStr "Coulnd not find monitor with id "; monitor]) ;;;
         ret win
  else ret win.

Definition window_keys : list string :=
  ["name"; "anchor"; "margin"; "layer"; "exclusive"; "focusable"; "child";
   "className"; "style"; "monitor"; "visible"; "dialog"; "setup"].

(** Everything [Window] does to the object it has just created, up to
    showing it. *)
Definition prepare_window (build : builder) (fs : fields) (win : gtk) : F gtk :=
  let name := dflt (lookup "name" fs) (VStr "gtk-layer-shell") in
  let anchor := dflt (lookup "anchor" fs) (VStr "") in
  let margin := dflt (lookup "margin" fs) (VArr []) in
  let layer := dflt (lookup "layer" fs) (VStr "top") in
  let exclusive := dflt (lookup "exclusive" fs) (VBool false) in
  let focusable := dflt (lookup "focusable" fs) (VBool false) in
  let child := dflt (lookup "child" fs) VNull in
  let className := dflt (lookup "className" fs) (VStr "") in
  let style := dflt (lookup "style" fs) (VStr "") in
  let monitor := lookup "monitor" fs in
  let visible := dflt (lookup "visible" fs) (VBool true) in
  let win := invoke "set_default_size" (VArr [VNum 1%float; VNum 1%float]) win in
  let win := invoke "init_for_window" VUndefined win in
  let win := invoke "set_namespace" name win in
  let win := set_attr "setStyle" (VHelper "setStyle") win in
  let win := set_attr "toggleClassName" (VHelper "toggleClassName") win in
  win <- lift (apply_anchor anchor win) ;;
  win <- lift (apply_margin margin win) ;;
  win <- lift (apply_layer layer win) ;;
  let win := if truthy exclusive
             then invoke "auto_exclusive_zone_enable" VUndefined win else win in
  win <- lift (apply_monitor monitor win) ;;
  win <- match className with
         | VStr cn => ret (apply_classes cn win)
         | VTemplate _ => beyond
         | _ => ret win
         end ;;
  let win := if truthy style then setStyle win style else win in
  win <- (if truthy child
          then c <- build_key build "child" ;; ret (invoke "set_child" c win)
          else ret win) ;;
  win <- (if truthy focusable
          then m <- lift (as_enum (enum_member "GtkLayerShell.KeyboardMode"
                                     (VStr "ON_DEMAND"))) ;;
               ret (invoke "set_keyboard_mode" m win)
          else ret win) ;;
  ret (if truthy visible then invoke "present" VUndefined win
       else set_attr "visible" (VBool false) win).

(** [if (setup) setup(win); return win] after the preparation. *)
Definition configure_window (build : builder) (fs : fields) (win : gtk) : F jsval :=
  let setup := lookup "setup" fs in
  win <- prepare_window build fs win ;;
  (if truthy setup then lift (call setup [VWidget win]) ;;; ret tt else ret tt) ;;;
  ret (VWidget win).

Definition window_checks (fs : fields) : M unit :=
  let name := dflt (lookup "name" fs) (VStr "gtk-layer-shell") in
  let window := VStr "window" in
  typecheck "name" name [KString] window ;;;
  typecheck "anchor" (dflt (lookup "anchor" fs) (VStr "")) [KString] window ;;;
  typecheck "margin" (dflt (lookup "margin" fs) (VArr [])) [KNumber; KArray] window ;;;
  typecheck "layer" (dflt (lookup "layer" fs) (VStr "top")) [KString] window ;;;
  typecheck "exclusive" (dflt (lookup "exclusive" fs) (VBool false)) [KBoolean] window ;;;
  typecheck "focusable" (dflt (lookup "focusable" fs) (VBool false)) [KBoolean] window ;;;
  typecheck "className" (dflt (lookup "className" fs) (VStr "")) [KString] window ;;;
  typecheck "monitor" (lookup "monitor" fs) [KNumber; KUndefined] window ;;;
  restcheck (delete_all window_keys fs) (template [VStr "window: "; name]).

Definition Window_fields (build : builder) (fs : fields) : F jsval :=
  let name := dflt (lookup "name" fs) (VStr "gtk-layer-shell") in
  let dialog := dflt (lookup "dialog" fs) (VBool false) in
  lift (window_checks fs) ;;;
  let win := if truthy dialog
             then new_gtk "Gtk.Dialog" [("name", name)]
             else new_gtk "Gtk.Window" [("name", name)] in
  configure_window build fs win.

(** The decimal name of an index. *)
Definition index_name (i : nat) : string := NilEmpty.string_of_uint (Nat.to_uint i).

(** The own enumerable properties of an array: its items under the names of
    their indices, from [i] on. *)
Fixpoint indexed (i : nat) (items : list jsval) : fields :=
  match items with
  | [] => []
  | x :: r => (index_name i, x) :: indexed (S i) r
  end.

(** What the destructuring of [Window] reads off a string of ASCII
    characters: the characters under their indices, which go to [rest], and
    [anchor], which every string inherits from [String.prototype] and which
    is a function.  No other name that [Window] destructures is a property
    of a string, an array, a number or a boolean. *)
Definition string_fields (s : string) : fields :=
  indexed 0 (map (fun c => VStr (String c "")) (list_ascii_of_string s))
  ++ [("anchor", VHelper "String.prototype.anchor")].

(** [Window(d)]: the surface and the descriptor as it is afterwards.  A
    descriptor that is not an object is destructured all the same: a number
    or a boolean has none of the properties, an array has its items, a
    string its characters and [anchor]. *)
Definition Window (d : jsval) (W : world) : (outcome jsval * jsval) * world :=
  match d with
  | VUndefined | VNull => ((Throw "TypeError: cannot destructure", d), W)
  | VObj fs =>
      let '(o, (fs', W')) := Window_fields Widget fs (fs, W) in ((o, VObj fs'), W')
  | VWidget _ | VFun _ | VScaleFactory _ _ _ _ _ | VSliderScroll | VHelper _
  | VTemplate _ =>
      ((Beyond, d), W)
  | VStr s =>
      if ascii_only s then
        let '(o, (_, W')) := Window_fields Widget (string_fields s) (string_fields s, W) in
        ((o, d), W')
      else ((Beyond, d), W)
  | VArr items =>
      let '(o, (_, W')) := Window_fields Widget (indexed 0 items) (indexed 0 items, W) in
      ((o, d), W')
  | VBool _ | VNum _ =>
      let '(o, (_, W')) := Window_fields Widget [] ([], W) in ((o, d), W')
  end.

End Engine.

(** ** A host for the worked examples

    The numbers are those of GTK 4 and gtk4-layer-shell; caller-supplied
    functions return nothing. *)

Definition example_enums (E : string) : list (string * float) :=
  if String.eqb E "Gtk.Align" then
    [("FILL", 0%float); ("START", 1%float); ("END", 2%float); ("CENTER", 3%float)]
  else if String.eqb E "Gtk.Orientation" then
    [("HORIZONTAL", 0%float); ("VERTICAL", 1%float)]
  else if String.eqb E "Gtk.Justification" then
    [("LEFT", 0%float); ("RIGHT", 1%float); ("CENTER", 2%float); ("FILL", 3%float)]
  else if String.eqb E "Gtk.PolicyType" then
    [("ALWAYS", 0%float); ("AUTOMATIC", 1%float); ("NEVER", 2%float);
     ("EXTERNAL", 3%float)]
  else if String.eqb E "Gtk.StackTransitionType" then
    [("NONE", 0%float); ("CROSSFADE", 1%float); ("SLIDE_RIGHT", 2%float);
     ("SLIDE_LEFT", 3%float); ("SLIDE_UP", 4%float); ("SLIDE_DOWN", 5%float)]
  else if String.eqb E "Gtk.RevealerTransitionType" then
    [("NONE", 0%float); ("CROSSFADE", 1%float); ("SLIDE_RIGHT", 2%float);
     ("SLIDE_LEFT", 3%float); ("SLIDE_UP", 4%float); ("SLIDE_DOWN", 5%float)]
  else if String.eqb E "GtkLayerShell.Edge" then
    [("LEFT", 0%float); ("RIGHT", 1%float); ("TOP", 2%float); ("BOTTOM", 3%float)]
  else if String.eqb E "GtkLayerShell.Layer" then
    [("BACKGROUND", 0%float); ("BOTTOM", 1%float); ("TOP", 2%float);
     ("OVERLAY", 3%float)]
  else if String.eqb E "GtkLayerShell.KeyboardMode" then
    [("NONE", 0%float); ("EXCLUSIVE", 1%float); ("ON_DEMAND", 2%float)]
  else [].

Definition example_host (strict : bool) : host :=
  MkHost (fun _ _ => VUndefined) example_enums strict (fun _ => true).

(** * The vocabulary of the properties *)

(** What the convention asks of the value handed back: [false] for a
    literal [false], [true] for everything else. *)
Definition signal_for (r : jsval) : jsval :=
  match r with
  | VBool false => VBool false
  | _ => VBool true
  end.



(** The object a build returned, when it returned one. *)
Definition built (r : (outcome jsval * jsval) * world) : option gtk :=
  match fst (fst r) with
  | Ok (VWidget w) => Some w
  | _ => None
  end.

(** Whatever value the computation returns satisfies [Q]. *)
Definition post {S A} (m : St S A) (Q : A -> Prop) : Prop :=
  forall s a s', m s = (Ok a, s') -> Q a.

(** [parseParams] up to the point where it looks at [setup]. *)
Definition before_setup (H : host) (w : gtk) (fs : fields) : M gtk :=
  type <- toString_of (lookup "type" fs) ;;
  typechecks (pick param_keys fs) type ;;;
  configure H w (pick param_keys fs).

(** A label descriptor with a class, a [setup] function and a focus slot,
    the bare label it starts from, and that label after the property pass. *)
Definition example_descriptor : fields :=
  [("type", VStr "label"); ("label", VStr "x"); ("className", VStr "big");
   ("setup", VFun 7); ("onFocusEnter", VFun 2)].

Definition example_label : gtk := new_gtk "Gtk.Label" [("label", VStr "x")].

Definition example_configured : gtk * world :=
  Eval vm_compute in
    match before_setup (example_host true) example_label example_descriptor empty_world with
    | (Ok w, W) => (w, W)
    | (_, W) => (example_label, W)
    end.

(** [GtkLayerShell.Edge[side]] *)
Definition edge (H : host) (side : string) : jsval :=
  enum_member H "GtkLayerShell.Edge" (VStr side).

(** [v === undefined] *)
Definition is_undefined (v : jsval) : bool :=
  match v with VUndefined => true | _ => false end.

(** The toolkit takes each of the four edges: it has the member, or it does
    not reject [undefined]. *)
Definition edges_usable (H : host) : bool :=
  forallb (fun s => negb (enum_strict H) || negb (is_undefined (edge H s)))
          ["TOP"; "RIGHT"; "BOTTOM"; "LEFT"].

(** [set_margin] called for each side with its value, in order. *)
Definition set_margins (H : host) (sv : list (string * jsval)) (win : gtk) : gtk :=
  fold_left (fun w x => invoke "set_margin" (VArr [edge H (fst x); snd x]) w) sv win.

(** The same object under another toolkit class. *)
Definition set_class (c : string) (w : gtk) : gtk :=
  let 'MkGtk _ a cs p ks sg t ct := w in MkGtk c a cs p ks sg t ct.

(** [f] applied to the value of a result, when it has one. *)
Definition map_ok {S A} (f : A -> A) (r : outcome A * S) : outcome A * S :=
  match r with
  | (Ok a, s) => (Ok (f a), s)
  | _ => r
  end.

(** [m1] does what [m2] does, on the object with its class replaced. *)
Definition same_but_class (c : string) {S} (m1 m2 : St S gtk) : Prop :=
  forall s, m1 s = map_ok (set_class c) (m2 s).

(** The two keys that [Overlay] deletes. *)
Definition is_measure_clip (k : string) : bool :=
  String.eqb k "measure" || String.eqb k "clip".

(** A value with the keys [measure] and [clip] removed from every object in
    it. *)
Fixpoint erase (v : jsval) : jsval :=
  match v with
  | VArr items => VArr (map erase items)
  | VObj fs =>
      VObj ((fix go (l : list (string * jsval)) : list (string * jsval) :=
               match l with
               | [] => []
               | (k, x) :: r => if is_measure_clip k then go r else (k, erase x) :: go r
               end) fs)
  | _ => v
  end.

(** The same on the fields of an object. *)
Fixpoint erase_fields (l : fields) : fields :=
  match l with
  | [] => []
  | (k, x) :: r => if is_measure_clip k then erase_fields r else (k, erase x) :: erase_fields r
  end.

(** A computation that never stops at the recursion bound. *)
Definition never_out {S A} (m : St S A) : Prop :=
  forall s, fst (m s) <> OutOfFuel.

(** How deep the values of an object, and the items of an array, nest. *)
Fixpoint vdepth (fs : fields) : nat :=
  match fs with
  | [] => 0
  | (_, x) :: r => Nat.max (depth x) (vdepth r)
  end.

Fixpoint ldepth (items : list jsval) : nat :=
  match items with
  | [] => 0
  | x :: r => Nat.max (depth x) (ldepth r)
  end.

(** A computation on a frame of depth at most [d] that never stops at the
    recursion bound and leaves the frame no deeper than it was. *)
Definition good (d : nat) {A} (m : F A) : Prop :=
  forall fs W,
    vdepth fs <= d ->
    fst (m (fs, W)) <> OutOfFuel /\ vdepth (fst (snd (m (fs, W)))) <= vdepth fs.

(** A builder that, on descriptors of depth at most [d], never stops at
    the recursion bound and leaves the descriptor no deeper. *)
Definition builder_good (d : nat) (build : builder) : Prop :=
  forall v W,
    depth v <= d ->
    fst (fst (build v W)) <> OutOfFuel /\ depth (snd (fst (build v W))) <= depth v.

(** A builder that does not stop on a descriptor whose [type] is a function. *)
Definition builder_factory (build : builder) : Prop :=
  forall fs W,
    is_function (lookup "type" fs) = true ->
    fst (fst (build (VObj fs) W)) <> OutOfFuel.

(** A computation on a frame that leaves it as it was, up to [erase]. *)
Definition frame_safe {A} (m : F A) : Prop :=
  forall fs W, erase_fields (fst (snd (m (fs, W)))) = erase_fields fs.

(** A builder that leaves every descriptor as it was, up to [erase]. *)
Definition builder_safe (build : builder) : Prop :=
  forall v W, erase (snd (fst (build v W))) = erase v.

(** A computation on a frame that, when no object of the frame has a
    [measure] or [clip] key, leaves the frame exactly as it was. *)
Definition frame_exact {A} (m : F A) : Prop :=
  forall fs W, erase_fields fs = fs -> fst (snd (m (fs, W))) = fs.

(** A builder that leaves such a descriptor exactly as it was. *)
Definition builder_exact (build : builder) : Prop :=
  forall v W, erase v = v -> snd (fst (build v W)) = v.

(** [{ type, ...props }]: what [Widget] hands to a constructor of the
    registry, for a descriptor with fields [fs]. *)
Definition constructor_props (fs : fields) : fields :=
  ("type", lookup "type" fs) :: delete_all (param_keys ++ listener_slots) fs.

(** The name of a custom property: it starts with an underscore. *)
Definition underscored (name : string) : bool :=
  match name with
  | String a _ => Ascii.eqb a "_"
  | EmptyString => false
  end.

(** A step that always returns normally. *)
Definition always_ok {S} (m : St S unit) : Prop :=
  forall s, fst (m s) = Ok tt.

(** A live object that carries no event controller. *)
Definition bare_object (v : jsval) : Prop :=
  exists w, v = VWidget w /\ gctrls w = [].

(** The source of a connection that is a signal name or a period. *)
Definition plain_source (v : jsval) : bool :=
  match v with
  | VStr _ | VNum _ => true
  | _ => false
  end.

(** The signal connection, and the timer, that a [source, callback] pair
    asks for. *)
Definition signal_of (p : jsval * jsval) : list (string * handler) :=
  match fst p with
  | VStr s => [(s, HUser (snd p))]
  | _ => []
  end.

Definition timer_of (p : jsval * jsval) : list (jsval * jsval) :=
  match fst p with
  | VNum _ => [p]
  | _ => []
  end.

(** What [Widget] gives for [undefined]: the error it reports and the
    label it returns. *)
Definition absent_error : diag := DError (VStr "Widget from null/undefined").

Definition absent_label : jsval :=
  text_label (template [VStr "error widget from: "; VStr dquote; VUndefined; VStr dquote]).

(** A slot that holds nothing, a non-empty string or a live object: the
    descriptors that [Widget] settles without looking further. *)
Definition leaf_slot (v : jsval) : bool :=
  match v with
  | VUndefined | VWidget _ => true
  | VStr s => negb (String.eqb s "")
  | _ => false
  end.

(** What [Widget] builds from such a slot, and what it reports. *)
Definition slot_object (v : jsval) : jsval :=
  match v with
  | VUndefined => absent_label
  | VStr _ => text_label v
  | _ => v
  end.

Definition slot_errors (v : jsval) : list diag :=
  match v with
  | VUndefined => [absent_error]
  | _ => []
  end.

(** The toolkit calls on an object start with [l]. *)
Definition calls_from (l : list (string * jsval)) (w : gtk) : Prop :=
  exists more, gcalls w = l ++ more.

(** The three calls every surface starts with. *)
Definition surface_opening (name : jsval) : list (string * jsval) :=
  [("set_default_size", VArr [VNum 1%float; VNum 1%float]);
   ("init_for_window", VUndefined);
   ("set_namespace", name)].

(** An anchor token the toolkit takes: the lookup of its upper case finds
    an edge, or the toolkit does not reject [undefined]. *)
Definition anchor_taken (H : host) (side : string) : bool :=
  negb (enum_strict H && is_undefined (edge H (upper_chars side))).

(** [set_anchor] called for each side, in order. *)
Definition set_anchors (H : host) (sides : list string) (win : gtk) : gtk :=
  fold_left (fun w side =>
               invoke "set_anchor" (VArr [edge H (upper_chars side); VBool true]) w)
            sides win.

(** An overlay with one entry that carries [measure]. *)
Definition example_overlay : jsval :=
  VObj [("type", VStr "overlay");
        ("overlays",
         VArr [VObj [("type", VStr "label"); ("label", VStr "x");
                     ("measure", VBool true)]])].

(** * Properties *)

(** ** Propagation convention of [handleEvent] *)

Lemma signal_for_false (r : jsval) : signal_for r = VBool false <-> r = VBool false.
Proof.
  split; [| now intros ->].
  destruct r as [| | [|] | | | | | | | | | |]; simpl; congruence.
Qed.

Lemma handleEvent_user (H : host) (id : nat) (args : list jsval) (W : world) :
  handleEvent H (VFun id) args W =
    (Ok (signal_for (user_ret H id args)),
     MkWorld (diags W) (calls W ++ [(VFun id, args)])).
Proof.
  unfold handleEvent, call, bind, log_call, ret; simpl.
  destruct (user_ret H id args) as [| | [|] | | | | | | | | | |]; reflexivity.
Qed.

(** ** The shorthand and error paths of [Widget] *)

(** C5, as the code has it. For every string descriptor other than the empty
    string, [Widget] yields a text label whose text is that string, emits no
    diagnostic and leaves the descriptor as it was. *)
Theorem Widget_text (H : host) (s : string) (W : world) :
  String.eqb s "" = false ->
  Widget H (VStr s) W = ((Ok (text_label (VStr s)), VStr s), W).
Proof.
  intros Hs.
  unfold Widget; simpl depth; unfold Widget_fuel.
  cbn [truthy]. rewrite Hs. reflexivity.
Qed.

Lemma Widget_text_witness :
  Widget (example_host true) (VStr "hi") empty_world
    = ((Ok (text_label (VStr "hi")), VStr "hi"), empty_world).
Proof.
  apply (@Widget_text (example_host true) "hi" empty_world). reflexivity.
Defined.

(** C5 fails at the empty string, which the falsy guard takes first: the
    label reads [error widget from: ""] and an error is reported. *)
Lemma Widget_empty_string :
  Widget (example_host true) (VStr "") empty_world
    = ((Ok (text_label (VStr ("error widget from: " ++ dquote ++ dquote)%string)), VStr ""),
       MkWorld [DError (VStr "Widget from null/undefined")] [])
  /\ text_label (VStr ("error widget from: " ++ dquote ++ dquote)%string)
       <> text_label (VStr "").
Proof.
  split; [reflexivity | discriminate].
Qed.

Lemma append_empty_r (s : string) : (s ++ "")%string = s.
Proof. induction s as [| a s IH]; simpl; [reflexivity | now rewrite IH]. Qed.

(** X1. For a [type] string that [type in widgets] rejects, [Widget] reports one
    error naming the type and returns a label naming it. *)
Lemma Widget_unknown_type (H : host) (t : string) (fs : fields) (W : world) :
  lookup "type" fs = VStr t ->
  in_widgets H t = false ->
  Widget H (VObj fs) W
    = ((Ok (text_label (VStr (t ++ " doesn't exist")%string)), VObj fs),
       MkWorld (diags W ++ [DError (VStr ("There is no widget with type " ++ t)%string)])
               (calls W)).
Proof.
  intros Ht Hin.
  unfold Widget. generalize (S (depth (VObj fs))); intros n.
  cbn [Widget_fuel truthy negb is_string is_function].
  unfold structured. rewrite Ht, Hin.
  cbn [is_function]. unfold bind, ret, lift, error, emit_diag, template; simpl.
  rewrite !append_empty_r. reflexivity.
Qed.

(** C4, at the failing input. [toString] is not a key of the registry, yet
    [type in widgets] finds it on the prototype: the inherited function is
    called, its string result stands where the widget should be, and the
    first write of [parseParams] throws.  No diagnostic is emitted and no
    placeholder is returned. *)
Theorem Widget_inherited_type (H : host) (W : world) :
  own "toString" (widgets H (Widget H)) = None
  /\ Widget H (VObj [("type", VStr "toString")]) W
     = ((Throw "TypeError: cannot create property setStyle",
         VObj [("type", VStr "toString")]), W).
Proof.
  split; reflexivity.
Qed.

(** ** The event multiplexer *)

Lemma gctrls_add_controller (c : controller) (w : gtk) :
  gctrls (add_controller c w) = gctrls w ++ [c].
Proof. destruct w; reflexivity. Qed.

Lemma cfamily_wire (slot : jsval) (signal : string) (h : jsval -> handler)
    (c : controller) :
  cfamily (wire slot signal h c) = cfamily c.
Proof. unfold wire; destruct (truthy slot), c; reflexivity. Qed.

Lemma cfamily_set_flags (flag : string) (c : controller) :
  cfamily (ctl_set_flags flag c) = cfamily c.
Proof. destruct c; reflexivity. Qed.

Lemma controllers_of_add (f : family) (c : controller) (w : gtk) :
  controllers_of f (add_controller c w)
    = controllers_of f w ++ (if family_eqb (cfamily c) f then [c] else []).
Proof.
  unfold controllers_of. rewrite gctrls_add_controller, filter_app; simpl.
  destruct (family_eqb (cfamily c) f); reflexivity.
Qed.

Lemma chandlers_wire (slot : jsval) (signal : string) (h : jsval -> handler)
    (c : controller) :
  chandlers (wire slot signal h c)
    = chandlers c ++ (if truthy slot then [(signal, h slot)] else []).
Proof.
  unfold wire; destruct (truthy slot), c; simpl; [reflexivity | now rewrite app_nil_r].
Qed.

Lemma controllers_of_step (f : family) (b : bool) (c : controller) (w : gtk) :
  controllers_of f (if b then add_controller c w else w)
    = controllers_of f w ++ (if b && family_eqb (cfamily c) f then [c] else []).
Proof.
  destruct b; cbn [andb]; [apply controllers_of_add | now rewrite app_nil_r].
Qed.

Lemma length_if_singleton {A} (b : bool) (x : A) :
  List.length (if b then [x] else []) = if b then 1 else 0.
Proof. destruct b; reflexivity. Qed.

(** C7, as the code has it. One pass of [parseEventListeners] over an object
    keeps, for each family, the controllers the object already carries and
    adds exactly one controller of the family when at least one slot of the
    family is populated, and none otherwise, however many slots are
    populated. *)
Theorem parseEventListeners_family (f : family) (w : gtk) (ls : fields) :
  exists added,
    controllers_of f (parseEventListeners w ls) = controllers_of f w ++ added
    /\ List.length added = (if populated f ls then 1 else 0).
Proof.
  unfold parseEventListeners; cbv zeta.
  rewrite !controllers_of_step, !cfamily_wire, !cfamily_set_flags, <- !app_assoc.
  eexists; split; [reflexivity |].
  rewrite !length_app, !length_if_singleton.
  unfold populated, slots_of.
  destruct f; cbn [cfamily family_eqb existsb andb];
    rewrite ?andb_false_r, ?andb_true_r, ?orb_false_r; cbn [Nat.add].
  - destruct (truthy (lookup "onFocusLeave" ls)), (truthy (lookup "onFocusEnter" ls));
      reflexivity.
  - destruct (truthy (lookup "onKeyReleased" ls)), (truthy (lookup "onKeyPressed" ls));
      reflexivity.
  - destruct (truthy (lookup "onMotion" ls)), (truthy (lookup "onHoverLeave" ls)),
      (truthy (lookup "onHoverEnter" ls)); reflexivity.
  - destruct (truthy (lookup "onScroll" ls)), (truthy (lookup "onScrollUp" ls)),
      (truthy (lookup "onScrollDown" ls)); reflexivity.
  - destruct (truthy (lookup "onButtonPressed" ls)),
      (truthy (lookup "onButtonReleased" ls)); reflexivity.
Qed.




(** C7 fails for a slider: [Slider] builds its scale through [Widget] with a
    scroll closure of its own, so the object comes back carrying a scroll
    controller.  With no slot populated it has one; with [onScroll] given it
    has two. *)
Lemma slider_scroll_controllers :
  populated Scroll (pick listener_slots [("type", VStr "slider")]) = false
  /\ option_map (fun w => List.length (controllers_of Scroll w))
       (built (Widget (example_host true) (VObj [("type", VStr "slider")]) empty_world))
     = Some 1
  /\ option_map (fun w => List.length (controllers_of Scroll w))
       (built (Widget (example_host true)
                 (VObj [("type", VStr "slider"); ("onScroll", VFun 1)]) empty_world))
     = Some 2.
Proof.
  repeat split; vm_compute; reflexivity.
Qed.

(** ** Propagation along the closures of a controller *)








(** The convention matters to the two directional closures.  Were [true]
    the value that ends the propagation, the [false] of the scroll-up
    closure would pass a scroll-down event on, and the scroll-down callback
    would be called with it. *)
Lemma other_convention_passes_on (H : host) (w : gtk) (u d : nat) (dx : float)
    (W : world) :
  PrimFloat.ltb dx 0%float = false ->
  calls (snd (emit H true w [HScrollUp (VFun u); HScrollDown (VFun d)]
                [VNum dx; VNum 1%float] W))
  = calls W ++ [(VFun d, [VWidget w; VNum dx; VNum 1%float])].
Proof.
  intros Hdx. cbn [emit run_handler]. rewrite Hdx.
  change (PrimFloat.ltb 1 0) with false. change (PrimFloat.ltb 0 1) with true.
  cbn [orb]. unfold bind at 1. unfold ret at 1. cbn [Bool.eqb].
  unfold bind at 1. rewrite handleEvent_user.
  destruct (signal_for (user_ret H d [VWidget w; VNum dx; VNum 1%float]))
    as [| | [|] | | | | | | | | | |]; reflexivity.
Qed.

(** ** Postconditions of computations *)

Lemma post_ret {S A} (a : A) (Q : A -> Prop) : Q a -> post (@ret S A a) Q.
Proof. intros HQ s a' s' E; inversion E; subst; exact HQ. Qed.

Lemma post_throw {S A} (e : string) (Q : A -> Prop) : post (@throw S A e) Q.
Proof. intros s a s' E; inversion E. Qed.

Lemma post_beyond {S A} (Q : A -> Prop) : post (@beyond S A) Q.
Proof. intros s a s' E; inversion E. Qed.

Lemma post_bind {S A B} (m : St S A) (k : A -> St S B) (P : A -> Prop) (Q : B -> Prop) :
  post m P -> (forall a, P a -> post (k a) Q) -> post (bind m k) Q.
Proof.
  intros Hm Hk s b s' E. unfold bind in E.
  destruct (m s) as [[a | e | |] s1] eqn:Em; try discriminate.
  exact (Hk a (Hm _ _ _ Em) _ _ _ E).
Qed.

Lemma post_any {S A} (m : St S A) : post m (fun _ => True).
Proof. intros s a s' _; exact I. Qed.

Lemma post_try_catch {S A} (m h : St S A) (Q : A -> Prop) :
  post m Q -> post h Q -> post (try_catch m h) Q.
Proof.
  intros Hm Hh s a s' E. unfold try_catch in E.
  destruct (m s) as [[a1 | e | |] s1] eqn:Em; try discriminate.
  - inversion E; subst. exact (Hm _ _ _ Em).
  - exact (Hh _ _ _ E).
Qed.

Lemma post_foldM {S A B} (f : B -> A -> St S B) (Q : B -> Prop) (xs : list A) :
  (forall b x, Q b -> post (f b x) Q) ->
  forall b, Q b -> post (foldM f b xs) Q.
Proof.
  intros Hf; induction xs as [| x r IH]; intros b Hb; simpl.
  - now apply post_ret.
  - eapply post_bind; [apply Hf, Hb | intros b' Hb'; now apply IH].
Qed.

Lemma post_lift {A} (m : M A) (Q : A -> Prop) : post m Q -> post (lift m) Q.
Proof.
  intros Hm [fs W] a s' E. unfold lift in E; simpl in E.
  destruct (m W) as [o W1] eqn:Em. inversion E; subst. exact (Hm _ _ _ Em).
Qed.

(** ** [parseParams]: what [setup] sees *)

Lemma gctrls_set_attr k v w : gctrls (set_attr k v w) = gctrls w.
Proof. destruct w; reflexivity. Qed.

Lemma gctrls_add_css_class cn w : gctrls (add_css_class cn w) = gctrls w.
Proof. destruct w; simpl. destruct (existsb _ _); reflexivity. Qed.

Lemma gctrls_add_provider v w : gctrls (add_provider v w) = gctrls w.
Proof. destruct w; reflexivity. Qed.

Lemma gctrls_connect s h w : gctrls (connect s h w) = gctrls w.
Proof. destruct w; reflexivity. Qed.

Lemma gctrls_add_timer p c w : gctrls (add_timer p c w) = gctrls w.
Proof. destruct w; reflexivity. Qed.

Lemma gctrls_invoke s v w : gctrls (invoke s v w) = gctrls w.
Proof. destruct w; reflexivity. Qed.

Lemma gctrls_apply_classes cn w : gctrls (apply_classes cn w) = gctrls w.
Proof.
  unfold apply_classes. generalize (split " " cn) as l. intros l; revert w.
  induction l as [| c r IH]; intros w; simpl; [reflexivity |].
  rewrite IH. destruct (negb _); [apply gctrls_add_css_class | reflexivity].
Qed.

Lemma apply_align_ctrls H attr v msg w :
  post (apply_align H attr v msg w) (fun w' => gctrls w' = gctrls w).
Proof.
  unfold apply_align. destruct (is_string v); [| now apply post_ret].
  apply post_try_catch.
  - eapply post_bind; [apply post_any | intros u _].
    eapply post_bind; [apply post_any | intros a _].
    apply post_ret, gctrls_set_attr.
  - eapply post_bind; [apply post_any | intros _ _]. now apply post_ret.
Qed.

Lemma apply_property_ctrls g w entry :
  gctrls w = g -> post (apply_property w entry) (fun w' => gctrls w' = g).
Proof.
  intros Hg. unfold apply_property.
  eapply post_bind; [apply post_any | intros kv _].
  destruct (template _); try apply post_beyond.
  apply post_ret. now rewrite gctrls_set_attr.
Qed.

Lemma apply_connection_ctrls H g w triple :
  gctrls w = g -> post (apply_connection H w triple) (fun w' => gctrls w' = g).
Proof.
  intros Hg. unfold apply_connection.
  eapply post_bind; [apply post_any | intros t _].
  destruct (item 0 t); try apply post_throw; try apply post_beyond.
  - apply post_ret. now rewrite gctrls_add_timer.
  - apply post_ret. now rewrite gctrls_connect.
  - destruct (lookup "instance" fields0); try apply post_throw.
    eapply post_bind; [apply post_any | intros _ _]. now apply post_ret.
Qed.

(** [configure] never touches the controllers of the object. *)
Lemma configure_ctrls H w ps :
  post (configure H w ps) (fun w' => gctrls w' = gctrls w).
Proof.
  unfold configure; cbv zeta.
  eapply post_bind with (P := fun w' => gctrls w' = gctrls w).
  { destruct (lookup "className" ps); try apply post_beyond; apply post_ret;
      rewrite ?gctrls_apply_classes, !gctrls_set_attr; reflexivity. }
  intros w1 H1.
  eapply post_bind; [apply apply_align_ctrls | intros w2 H2; simpl in H2].
  eapply post_bind; [apply apply_align_ctrls | intros w3 H3; simpl in H3].
  match goal with
  | |- post (bind (if _ then _ else ret ?x) _) _ =>
      assert (Hx : gctrls x = gctrls w)
  end.
  { repeat match goal with
           | |- context [if ?b then _ else _] => destruct b
           end;
      unfold setStyle;
      rewrite ?gctrls_set_attr, ?gctrls_add_provider, ?gctrls_set_attr; congruence. }
  eapply post_bind with (P := fun w' => gctrls w' = gctrls w).
  { destruct (truthy (lookup "properties" ps)); [| now apply post_ret].
    eapply post_bind; [apply post_any | intros l _].
    apply post_foldM; [intros; now apply apply_property_ctrls | exact Hx]. }
  intros w4 H4.
  eapply post_bind with (P := fun w' => gctrls w' = gctrls w).
  { destruct (truthy (lookup "connections" ps)); [| now apply post_ret].
    eapply post_bind; [apply post_any | intros l _].
    apply post_foldM; [intros; now apply apply_connection_ctrls | exact H4]. }
  intros w5 H5. now apply post_ret.
Qed.

Lemma bind_Ok {S A B} (m : St S A) (k : A -> St S B) (s s' : S) (b : B) :
  bind m k s = (Ok b, s') ->
  exists a s1, m s = (Ok a, s1) /\ k a s1 = (Ok b, s').
Proof.
  unfold bind. destruct (m s) as [[a | e | |] s1]; try discriminate.
  intros E; exists a, s1; auto.
Qed.

(** C3, as the code has it. When the descriptor carries a [setup] function
    and everything [parseParams] does before it succeeds on the object,
    [setup] is called exactly once, with the object as its only argument,
    after class names, alignment, flags, tooltip, style, custom properties
    and connections have been applied.  The event controllers of the
    descriptor are attached after [setup] has returned: the object [setup]
    receives carries the controllers it was built with and no more. *)
Theorem setup_after_configuration (H : host) (w w1 : gtk) (fs : fields) (id : nat)
    (W W1 : world) :
  lookup "setup" fs = VFun id ->
  before_setup H w fs W = (Ok w1, W1) ->
  finish H (VWidget w) fs W
    = (Ok (VWidget (parseEventListeners w1 (pick listener_slots fs))),
       MkWorld (diags W1) (calls W1 ++ [(VFun id, [VWidget w1])]))
  /\ gctrls w1 = gctrls w.
Proof.
  intros Hs Hb. unfold before_setup in Hb.
  destruct (bind_Ok _ _ _ Hb) as [t [Wa [Ht Hb1]]].
  destruct (bind_Ok _ _ _ Hb1) as [[] [Wb [Hc Hb2]]].
  split; [| eapply configure_ctrls; exact Hb2].
  unfold finish, parseParams_on, parseParams.
  change (lookup "type" (pick param_keys fs)) with (lookup "type" fs).
  change (lookup "setup" (pick param_keys fs)) with (lookup "setup" fs).
  rewrite Hs. cbn [is_function].
  unfold bind at 1 2 3. rewrite Ht.
  unfold bind at 1. rewrite Hc.
  unfold bind at 1. rewrite Hb2.
  reflexivity.
Qed.

Lemma setup_after_configuration_witness :
  finish (example_host true) (VWidget example_label) example_descriptor empty_world
    = (Ok (VWidget (parseEventListeners (fst example_configured)
                      (pick listener_slots example_descriptor))),
       MkWorld (diags (snd example_configured))
               (calls (snd example_configured)
                ++ [(VFun 7, [VWidget (fst example_configured)])]))
  /\ gctrls (fst example_configured) = gctrls example_label.
Proof.
  apply (@setup_after_configuration (example_host true) example_label
           (fst example_configured) example_descriptor 7 empty_world
           (snd example_configured));
    reflexivity.
Defined.

(** C3 fails on the event wiring: for a label with [setup] and
    [onFocusEnter], the object handed to [setup] has no focus controller,
    and the object returned has one. *)
Lemma setup_before_event_wiring :
  exists seen returned,
    calls (snd (Widget (example_host true) (VObj example_descriptor) empty_world))
      = [(VFun 7, [VWidget seen])]
    /\ built (Widget (example_host true) (VObj example_descriptor) empty_world)
       = Some returned
    /\ controllers_of Focus seen = []
    /\ controllers_of Focus returned
       = [MkCtrl Focus [] [("enter", HEvent0 (VFun 2))]].
Proof.
  vm_compute. do 2 eexists. repeat split.
Qed.

(** ** Margins of a surface *)

Lemma as_enum_edge (H : host) (s : string) :
  edges_usable H = true ->
  In s ["TOP"; "RIGHT"; "BOTTOM"; "LEFT"] ->
  as_enum H (enum_member H "GtkLayerShell.Edge" (VStr s)) = ret (edge H s).
Proof.
  intros Hu Hin. unfold edges_usable in Hu. rewrite forallb_forall in Hu.
  specialize (Hu s Hin). fold (edge H s). unfold as_enum.
  destruct (edge H s); try reflexivity.
  destruct (enum_strict H); [discriminate | reflexivity].
Qed.

Lemma apply_sides (H : host) (margin : jsval) (sides : list (string * nat))
    (win : gtk) (W : world) :
  edges_usable H = true ->
  (forall si, In si sides -> In (fst si) ["TOP"; "RIGHT"; "BOTTOM"; "LEFT"]) ->
  foldM (fun win si =>
           e <- as_enum H (enum_member H "GtkLayerShell.Edge" (VStr (fst si))) ;;
           ret (invoke "set_margin" (VArr [e; margin_index margin (snd si)]) win))
        win sides W
  = (Ok (set_margins H (map (fun si => (fst si, margin_index margin (snd si))) sides) win),
     W).
Proof.
  intros Hu. revert win. induction sides as [| si r IH]; intros win Hs; [reflexivity |].
  cbn [foldM map set_margins fold_left].
  unfold bind at 1 2. rewrite (as_enum_edge _ Hu (Hs si (or_introl eq_refl))).
  cbn [ret]. apply IH. intros x Hx; apply Hs; now right.
Qed.

Lemma margins_for_sides (n : nat) (si : string * nat) :
  In si (margins_for n) -> In (fst si) ["TOP"; "RIGHT"; "BOTTOM"; "LEFT"].
Proof.
  destruct n as [| [| [| [| [| n]]]]]; simpl; intros Hin;
    repeat (destruct Hin as [<- | Hin]; [simpl; tauto |]); contradiction.
Qed.

Lemma apply_margin_array (H : host) (items : list jsval) (win : gtk) (W : world) :
  edges_usable H = true ->
  apply_margin H (VArr items) win W
  = (Ok (set_margins H
           (map (fun si => (fst si, nth (snd si) items VUndefined))
                (margins_for (List.length items))) win), W).
Proof.
  intros Hu. unfold apply_margin. cbn [truthy is_number margin_table].
  unfold bind at 1. cbn [ret].
  rewrite (@apply_sides H (VArr items) _ win W Hu); [reflexivity |].
  intros si; apply margins_for_sides.
Qed.

(** C6. On a surface, [margin=[a]] sets all four edges to [a]; [[a,b]] sets
    top and bottom to [a], right and left to [b]; [[a,b,c]] sets top to [a],
    right and left to [b], bottom to [c]; [[a,b,c,d]] sets top, right,
    bottom, left in that order; the scalar [5] does what [[5]] does; an
    array of any other length sets no margin and throws nothing. *)
Theorem margin_expansion (H : host) (win : gtk) (W : world) (a b c d : jsval) :
  edges_usable H = true ->
  apply_margin H (VArr [a]) win W
    = (Ok (set_margins H [("TOP", a); ("RIGHT", a); ("BOTTOM", a); ("LEFT", a)] win), W)
  /\ apply_margin H (VArr [a; b]) win W
    = (Ok (set_margins H [("TOP", a); ("RIGHT", b); ("BOTTOM", a); ("LEFT", b)] win), W)
  /\ apply_margin H (VArr [a; b; c]) win W
    = (Ok (set_margins H [("TOP", a); ("RIGHT", b); ("BOTTOM", c); ("LEFT", b)] win), W)
  /\ apply_margin H (VArr [a; b; c; d]) win W
    = (Ok (set_margins H [("TOP", a); ("RIGHT", b); ("BOTTOM", c); ("LEFT", d)] win), W)
  /\ apply_margin H (VNum 5%float) win W = apply_margin H (VArr [VNum 5%float]) win W
  /\ (forall items,
        ~ In (List.length items) [1; 2; 3; 4] ->
        apply_margin H (VArr items) win W = (Ok win, W)).
Proof.
  intros Hu.
  split; [| split; [| split; [| split; [| split]]]];
    try (rewrite apply_margin_array by exact Hu; reflexivity).
  - reflexivity.
  - intros items Hlen.
    rewrite apply_margin_array by exact Hu.
    destruct items as [| x1 [| x2 [| x3 [| x4 [| x5 r]]]]]; try reflexivity;
      exfalso; apply Hlen; simpl; tauto.
Qed.

Lemma margin_expansion_witness :
  apply_margin (example_host true) (VArr [VNum 4%float; VNum 8%float])
    (new_gtk "Gtk.Window" []) empty_world
  = (Ok (set_margins (example_host true)
           [("TOP", VNum 4%float); ("RIGHT", VNum 8%float);
            ("BOTTOM", VNum 4%float); ("LEFT", VNum 8%float)]
           (new_gtk "Gtk.Window" [])), empty_world).
Proof.
  exact (proj1 (proj2 (@margin_expansion (example_host true) (new_gtk "Gtk.Window" [])
                         empty_world (VNum 4%float) (VNum 8%float) VUndefined VUndefined
                         eq_refl))).
Defined.

(** ** Unknown enum tokens *)

(** C8, at the failing input. A surface with [layer: 'bogus']: [Window]
    emits no diagnostic at all, whatever the toolkit does with the
    [undefined] it is handed.  When the toolkit rejects it, the exception
    leaves [Window]; when it does not, [set_layer] has been called with it.
    The sibling path for [halign] on a widget wraps the same lookup in a
    try and reports [wrong halign value]. *)
Theorem Window_unknown_layer (strict : bool) :
  diags (snd (Window (example_host strict) (VObj [("layer", VStr "bogus")]) empty_world))
    = []
  /\ (if strict
      then fst (fst (Window (example_host strict) (VObj [("layer", VStr "bogus")])
                       empty_world))
           = Throw "the toolkit rejects undefined for an enum"
      else exists w,
             built (Window (example_host strict) (VObj [("layer", VStr "bogus")])
                      empty_world) = Some w
             /\ In ("set_layer", VUndefined) (gcalls w))
  /\ diags (snd (Widget (example_host true)
                   (VObj [("type", VStr "label"); ("halign", VStr "bogus")])
                   empty_world))
     = [DWarning (VStr "wrong halign value")].
Proof.
  destruct strict.
  - repeat split; vm_compute; reflexivity.
  - split; [vm_compute; reflexivity | split; [| vm_compute; reflexivity]].
    vm_compute. eexists; split; [reflexivity |].
    repeat (first [left; reflexivity | right]).
Qed.

(** ** Dialog or window *)

Section Reclass.

Variable c : string.

Lemma sbc_ret {S} (w : gtk) : @same_but_class c S (ret (set_class c w)) (ret w).
Proof. intros s; reflexivity. Qed.

Lemma sbc_throw {S} (e : string) : @same_but_class c S (throw e) (throw e).
Proof. intros s; reflexivity. Qed.

Lemma sbc_beyond {S} : @same_but_class c S beyond beyond.
Proof. intros s; reflexivity. Qed.

Lemma sbc_bind {S} (m1 m2 : St S gtk) (k1 k2 : gtk -> St S gtk) :
  same_but_class c m1 m2 ->
  (forall w, same_but_class c (k1 (set_class c w)) (k2 w)) ->
  same_but_class c (bind m1 k1) (bind m2 k2).
Proof.
  intros Hm Hk s. unfold bind. rewrite (Hm s).
  destruct (m2 s) as [[w | e | |] s1]; simpl; try reflexivity. apply Hk.
Qed.

Lemma sbc_bind_same {S A} (m : St S A) (k1 k2 : A -> St S gtk) :
  (forall a, same_but_class c (k1 a) (k2 a)) ->
  same_but_class c (bind m k1) (bind m k2).
Proof.
  intros Hk s. unfold bind.
  destruct (m s) as [[a | e | |] s1]; simpl; try reflexivity. apply Hk.
Qed.

Lemma sbc_try_catch {S} (m1 m2 h1 h2 : St S gtk) :
  same_but_class c m1 m2 -> same_but_class c h1 h2 ->
  same_but_class c (try_catch m1 h1) (try_catch m2 h2).
Proof.
  intros Hm Hh s. unfold try_catch. rewrite (Hm s).
  destruct (m2 s) as [[w | e | |] s1]; simpl; try reflexivity. apply Hh.
Qed.

Lemma sbc_foldM {S A} (f : gtk -> A -> St S gtk) (xs : list A) :
  (forall w x, same_but_class c (f (set_class c w) x) (f w x)) ->
  forall w, same_but_class c (foldM f (set_class c w) xs) (foldM f w xs).
Proof.
  intros Hf; induction xs as [| x r IH]; intros w; simpl.
  - apply sbc_ret.
  - apply sbc_bind; [apply Hf | exact IH].
Qed.

Lemma sbc_lift (m1 m2 : M gtk) :
  same_but_class c m1 m2 -> same_but_class c (lift m1) (lift m2).
Proof.
  intros Hm [fs W]. unfold lift; simpl. rewrite (Hm W).
  destruct (m2 W) as [[w | e | |] W1]; reflexivity.
Qed.

Lemma invoke_set_class s v w : invoke s v (set_class c w) = set_class c (invoke s v w).
Proof. destruct w; reflexivity. Qed.

Lemma set_attr_set_class k v w : set_attr k v (set_class c w) = set_class c (set_attr k v w).
Proof. destruct w; reflexivity. Qed.

Lemma add_css_class_set_class cn w :
  add_css_class cn (set_class c w) = set_class c (add_css_class cn w).
Proof. destruct w; simpl. destruct (existsb _ _); reflexivity. Qed.

Lemma setStyle_set_class css w : setStyle (set_class c w) css = set_class c (setStyle w css).
Proof. destruct w; reflexivity. Qed.

Lemma apply_classes_set_class cn w :
  apply_classes cn (set_class c w) = set_class c (apply_classes cn w).
Proof.
  unfold apply_classes. generalize (split " " cn); intros l; revert w.
  induction l as [| x r IH]; intros w; simpl; [reflexivity |].
  destruct (negb _); [rewrite add_css_class_set_class |]; apply IH.
Qed.

End Reclass.

Section WindowClass.

Variable H : host.
Variable c : string.

Lemma apply_anchor_class anchor win :
  same_but_class c (apply_anchor H anchor (set_class c win)) (apply_anchor H anchor win).
Proof.
  unfold apply_anchor. destruct (truthy anchor); [| apply sbc_ret].
  destruct anchor; try apply sbc_throw; try apply sbc_beyond.
  destruct (trim s); [| apply sbc_beyond].
  apply sbc_foldM. intros w side.
  apply sbc_try_catch.
  - apply sbc_bind_same; intros u. apply sbc_bind_same; intros e.
    rewrite invoke_set_class. apply sbc_ret.
  - apply sbc_bind_same; intros _. apply sbc_ret.
Qed.

Lemma apply_margin_class margin win :
  same_but_class c (apply_margin H margin (set_class c win)) (apply_margin H margin win).
Proof.
  unfold apply_margin. destruct (truthy margin); [| apply sbc_ret].
  apply sbc_bind_same; intros margins.
  apply sbc_foldM. intros w si.
  apply sbc_bind_same; intros e. rewrite invoke_set_class. apply sbc_ret.
Qed.

Lemma apply_layer_class layer win :
  same_but_class c (apply_layer H layer (set_class c win)) (apply_layer H layer win).
Proof.
  unfold apply_layer.
  apply sbc_bind_same; intros u. apply sbc_bind_same; intros l.
  rewrite invoke_set_class. apply sbc_ret.
Qed.

Lemma apply_monitor_class monitor win :
  same_but_class c (apply_monitor H monitor (set_class c win)) (apply_monitor H monitor win).
Proof.
  unfold apply_monitor. destruct (is_number monitor); [| apply sbc_ret].
  destruct (monitor_at H monitor).
  - rewrite invoke_set_class. apply sbc_ret.
  - apply sbc_bind_same; intros _. apply sbc_ret.
Qed.

(** The preparation of a surface does not look at the class of the object:
    on a dialog it does what it does on a window. *)
Lemma prepare_window_class (build : builder) (fs : fields) (win : gtk) :
  same_but_class c (prepare_window H build fs (set_class c win))
                   (prepare_window H build fs win).
Proof.
  unfold prepare_window; cbv zeta.
  rewrite !invoke_set_class, !set_attr_set_class.
  apply sbc_bind; [apply sbc_lift, apply_anchor_class | intros w1].
  apply sbc_bind; [apply sbc_lift, apply_margin_class | intros w2].
  apply sbc_bind; [apply sbc_lift, apply_layer_class | intros w3].
  apply sbc_bind.
  { apply sbc_lift.
    destruct (truthy (dflt (lookup "exclusive" fs) (VBool false)));
      rewrite ?invoke_set_class; apply apply_monitor_class. }
  intros w4.
  apply sbc_bind.
  { destruct (dflt (lookup "className" fs) (VStr "")); try apply sbc_ret;
      try apply sbc_beyond.
    rewrite apply_classes_set_class. apply sbc_ret. }
  intros w5.
  apply sbc_bind.
  { destruct (truthy (dflt (lookup "child" fs) VNull)).
    - apply sbc_bind_same; intros ch.
      destruct (truthy (dflt (lookup "style" fs) (VStr "")));
        rewrite ?setStyle_set_class, invoke_set_class; apply sbc_ret.
    - destruct (truthy (dflt (lookup "style" fs) (VStr "")));
        rewrite ?setStyle_set_class; apply sbc_ret. }
  intros w6.
  apply sbc_bind.
  { destruct (truthy (dflt (lookup "focusable" fs) (VBool false))); [| apply sbc_ret].
    apply sbc_bind_same; intros m. rewrite invoke_set_class. apply sbc_ret. }
  intros w7.
  destruct (truthy (dflt (lookup "visible" fs) (VBool true)));
    rewrite ?invoke_set_class, ?set_attr_set_class; apply sbc_ret.
Qed.

End WindowClass.

(** C10. [Window] creates a [Gtk.Dialog] when the [dialog] flag is [true]
    and a [Gtk.Window] when it is [false] or absent; in both cases the same
    checks have run before, and the same configuration follows: the
    preparation (anchor, margin, layer, exclusive zone, monitor, classes,
    style, child, keyboard mode, visibility) does on the dialog exactly what
    it does on the window, and [setup] is then called on the result. *)
Theorem Window_dialog (H : host) (build : builder) (fs : fields) (s : frame) :
  let name := dflt (lookup "name" fs) (VStr "gtk-layer-shell") in
  (lookup "dialog" fs = VBool true ->
     Window_fields H build fs s
     = (lift (window_checks fs) ;;;
        configure_window H build fs (new_gtk "Gtk.Dialog" [("name", name)])) s)
  /\ (lookup "dialog" fs = VBool false \/ lookup "dialog" fs = VUndefined ->
     Window_fields H build fs s
     = (lift (window_checks fs) ;;;
        configure_window H build fs (new_gtk "Gtk.Window" [("name", name)])) s)
  /\ new_gtk "Gtk.Dialog" [("name", name)]
     = set_class "Gtk.Dialog" (new_gtk "Gtk.Window" [("name", name)])
  /\ (forall win,
        prepare_window H build fs (set_class "Gtk.Dialog" win) s
        = map_ok (set_class "Gtk.Dialog") (prepare_window H build fs win s))
  /\ (forall win,
        configure_window H build fs win
        = (win' <- prepare_window H build fs win ;;
           (if truthy (lookup "setup" fs)
            then lift (call H (lookup "setup" fs) [VWidget win']) ;;; ret tt
            else ret tt) ;;;
           ret (VWidget win'))).
Proof.
  cbv zeta. split; [| split; [| split; [| split]]].
  - intros Hd. unfold Window_fields. rewrite Hd. reflexivity.
  - intros [Hd | Hd]; unfold Window_fields; rewrite Hd; reflexivity.
  - reflexivity.
  - intros win. apply prepare_window_class.
  - reflexivity.
Qed.

(** ** What a build does to the descriptor *)

Lemma erase_VObj (fs : fields) : erase (VObj fs) = VObj (erase_fields fs).
Proof.
  reflexivity.
Qed.

Lemma erase_VArr (items : list jsval) : erase (VArr items) = VArr (map erase items).
Proof. reflexivity. Qed.

Lemma erase_fields_assign (k : string) (v : jsval) (fs : fields) :
  has_key k fs = true ->
  erase v = erase (lookup k fs) ->
  erase_fields (assign k v fs) = erase_fields fs.
Proof.
  induction fs as [| [k' x] r IH]; simpl; [discriminate |].
  destruct (String.eqb_spec k k') as [-> | Hne]; simpl.
  - intros _ Hv. now rewrite Hv.
  - intros Hk Hv. now rewrite IH.
Qed.

Lemma lookup_has_key (k : string) (fs : fields) :
  lookup k fs <> VUndefined -> has_key k fs = true.
Proof.
  induction fs as [| [k' x] r IH]; simpl; [congruence |].
  destruct (String.eqb k k'); simpl; auto.
Qed.

Lemma erase_fields_delete (k : string) (fs : fields) :
  is_measure_clip k = true ->
  erase_fields (delete k fs) = erase_fields fs.
Proof.
  intros Hk. induction fs as [| [k' x] r IH]; simpl; [reflexivity |].
  destruct (String.eqb_spec k k') as [<- | Hne]; simpl.
  - now rewrite Hk.
  - now rewrite IH.
Qed.

Lemma erase_delete_measure_clip (w : jsval) : erase (delete_measure_clip w) = erase w.
Proof.
  destruct w; try reflexivity.
  unfold delete_measure_clip. rewrite !erase_VObj.
  now rewrite !erase_fields_delete.
Qed.

Lemma map_erase_replace_nth (i : nat) (v : jsval) (items : list jsval) :
  erase v = erase (nth i items VUndefined) ->
  map erase (replace_nth i v items) = map erase items.
Proof.
  revert i. induction items as [| x r IH]; intros [| i]; simpl; try reflexivity.
  - now intros ->.
  - intros Hv. now rewrite IH.
Qed.

Lemma erase_put_key (k : string) (v : jsval) (fs : fields) :
  erase v = erase (lookup k fs) ->
  erase_fields (put_key k v fs) = erase_fields fs.
Proof.
  intros Hv. unfold put_key. destruct (has_key k fs) eqn:Hk; [| reflexivity].
  now apply erase_fields_assign.
Qed.

Lemma erase_put_item (k : string) (i : nat) (v : jsval) (fs : fields) :
  erase v = erase (item_at k i fs) ->
  erase_fields (put_item k i v fs) = erase_fields fs.
Proof.
  unfold put_item, item_at. destruct (lookup k fs) eqn:Hl; try reflexivity.
  intros Hv. apply erase_fields_assign.
  - apply lookup_has_key. rewrite Hl. discriminate.
  - rewrite Hl, !erase_VArr. f_equal. now apply map_erase_replace_nth.
Qed.

Lemma erase_put_second (k : string) (i : nat) (v : jsval) (fs : fields) :
  erase v = erase (second_at k i fs) ->
  erase_fields (put_second k i v fs) = erase_fields fs.
Proof.
  unfold put_second, second_at. destruct (item_at k i fs) eqn:Hi; try reflexivity.
  intros Hv. apply erase_put_item. rewrite Hi, !erase_VArr. f_equal.
  now apply map_erase_replace_nth.
Qed.

Lemma fs_ret {A} (a : A) : frame_safe (ret a).
Proof. intros fs W; reflexivity. Qed.

Lemma fs_throw {A} (e : string) : frame_safe (@throw frame A e).
Proof. intros fs W; reflexivity. Qed.

Lemma fs_beyond {A} : frame_safe (@beyond frame A).
Proof. intros fs W; reflexivity. Qed.

Lemma fs_lift {A} (m : M A) : frame_safe (lift m).
Proof. intros fs W. unfold lift; simpl. destruct (m W); reflexivity. Qed.

Lemma fs_bind {A B} (m : F A) (k : A -> F B) :
  frame_safe m -> (forall a, frame_safe (k a)) -> frame_safe (bind m k).
Proof.
  intros Hm Hk fs W. unfold bind. specialize (Hm fs W).
  destruct (m (fs, W)) as [[a | e | |] [fs1 W1]]; simpl in *; try exact Hm.
  rewrite <- Hm. apply Hk.
Qed.

Lemma fs_build_at (build : builder) (get : fields -> jsval)
    (put : jsval -> fields -> fields) :
  builder_safe build ->
  (forall v fs, erase v = erase (get fs) -> erase_fields (put v fs) = erase_fields fs) ->
  frame_safe (build_at build get put).
Proof.
  intros Hb Hput fs W. unfold build_at; simpl.
  specialize (Hb (get fs) W).
  destruct (build (get fs) W) as [[o p] W1]; simpl in *. now apply Hput.
Qed.

Lemma fs_build_key build k : builder_safe build -> frame_safe (build_key build k).
Proof. intros Hb; apply fs_build_at; [exact Hb | intros; now apply erase_put_key]. Qed.

Lemma fs_build_item build k i : builder_safe build -> frame_safe (build_item build k i).
Proof. intros Hb; apply fs_build_at; [exact Hb | intros; now apply erase_put_item]. Qed.

Lemma fs_build_second build k i : builder_safe build -> frame_safe (build_second build k i).
Proof. intros Hb; apply fs_build_at; [exact Hb | intros; now apply erase_put_second]. Qed.

Lemma fs_check name value expected context : frame_safe (check name value expected context).
Proof. apply fs_lift. Qed.

Lemma fs_set_child_of build child parent :
  builder_safe build -> frame_safe (set_child_of build child parent).
Proof.
  intros Hb. unfold set_child_of. destruct (truthy child); [| apply fs_ret].
  apply fs_bind; [now apply fs_build_key | intros; apply fs_ret].
Qed.

Section ConstructorsKeepDescriptors.

Variable H : host.
Variable build : builder.
Hypothesis build_safe : builder_safe build.

Lemma fs_append_children items : forall i box,
  frame_safe (append_children build i items box).
Proof.
  induction items as [| x r IH]; intros i box; simpl; [apply fs_ret |].
  apply fs_bind; [now apply fs_build_item | intros c; apply IH].
Qed.

Lemma fs_add_items items : forall i stack, frame_safe (add_items build i items stack).
Proof.
  induction items as [| x r IH]; intros i stack; simpl; [apply fs_ret |].
  apply fs_bind; [apply fs_lift | intros nw].
  apply fs_bind; [| intros st; apply IH].
  destruct (truthy (item 1 nw)); [| apply fs_ret].
  apply fs_bind; [now apply fs_build_second | intros; apply fs_ret].
Qed.

Lemma fs_take_measure_clip i : frame_safe (take_measure_clip i).
Proof.
  intros fs W. unfold take_measure_clip; cbn [fst snd].
  destruct (item_at "overlays" i fs) eqn:Hw; try reflexivity; cbn [fst snd];
    apply erase_put_item; rewrite Hw; apply erase_delete_measure_clip.
Qed.

Lemma fs_add_overlays items : forall i overlay,
  frame_safe (add_overlays build i items overlay).
Proof.
  induction items as [| x r IH]; intros i overlay; simpl; [apply fs_ret |].
  apply fs_bind; [apply fs_take_measure_clip | intros w].
  apply fs_bind; [now apply fs_build_item | intros wd; apply IH].
Qed.

Ltac ctor_steps :=
  repeat first
    [ apply fs_ret | apply fs_throw | apply fs_beyond | apply fs_lift | apply fs_check
    | apply fs_append_children | apply fs_add_items | apply fs_add_overlays
    | apply fs_set_child_of; exact build_safe
    | apply fs_build_key; exact build_safe
    | apply fs_bind; [| intros ?]
    | match goal with
      | |- frame_safe (if ?b then _ else _) => destruct b
      | |- frame_safe (match ?v with _ => _ end) => destruct v
      end ].

Lemma fs_Box props : frame_safe (Box H build props).
Proof. unfold Box; cbv zeta. ctor_steps. Qed.

Lemma fs_CenterBox props : frame_safe (CenterBox H build props).
Proof. unfold CenterBox; cbv zeta. ctor_steps. Qed.

Lemma fs_Icon props : frame_safe (Icon props).
Proof. unfold Icon; cbv zeta. ctor_steps. Qed.

Lemma fs_Label props : frame_safe (Label H props).
Proof. unfold Label; cbv zeta. ctor_steps. Qed.

Lemma fs_Button props : frame_safe (Button build props).
Proof. unfold Button; cbv zeta. ctor_steps. Qed.

Lemma fs_Slider props : frame_safe (Slider build props).
Proof. unfold Slider; cbv zeta. ctor_steps. Qed.

Lemma fs_Stack props : frame_safe (Stack H build props).
Proof. unfold Stack; cbv zeta. ctor_steps. Qed.

Lemma fs_Entry props : frame_safe (Entry props).
Proof. unfold Entry; cbv zeta. ctor_steps. Qed.

Lemma fs_Scrollable props : frame_safe (Scrollable H build props).
Proof. unfold Scrollable; cbv zeta. ctor_steps. Qed.

Lemma fs_Revealer props : frame_safe (Revealer H build props).
Proof. unfold Revealer; cbv zeta. ctor_steps. Qed.

Lemma fs_Overlay props : frame_safe (Overlay build props).
Proof. unfold Overlay; cbv zeta. ctor_steps. Qed.

Lemma fs_Switch props : frame_safe (Switch props).
Proof. unfold Switch; cbv zeta. ctor_steps. Qed.

Lemma fs_widgets_call t props : frame_safe (widgets_call H build t props).
Proof.
  unfold widgets_call, widgets, own.
  repeat match goal with
         | |- context [String.eqb t ?k] => destruct (String.eqb t k)
         end;
    cbn [orb];
    first [ apply fs_Box | apply fs_CenterBox | apply fs_Icon | apply fs_Label
          | apply fs_Button | apply fs_Slider | apply fs_Stack | apply fs_Entry
          | apply fs_Scrollable | apply fs_Revealer | apply fs_Overlay | apply fs_Switch
          | apply fs_ret | apply fs_throw | apply fs_beyond ].
Qed.

Lemma fs_structured fs0 : frame_safe (structured H build fs0).
Proof.
  unfold structured; cbv zeta.
  apply fs_bind; [destruct (is_function _); [apply fs_lift | apply fs_ret] | intros w].
  apply fs_bind.
  - destruct (lookup "type" fs0); try apply fs_ret; try apply fs_beyond.
    destruct (in_widgets H s); [apply fs_widgets_call | apply fs_ret].
  - intros w'. destruct w'; try apply fs_lift.
    apply fs_bind; [apply fs_lift | intros; apply fs_ret].
Qed.

Lemma fs_prepare_window fs0 win : frame_safe (prepare_window H build fs0 win).
Proof. unfold prepare_window; cbv zeta. ctor_steps. Qed.

Lemma fs_Window_fields fs0 : frame_safe (Window_fields H build fs0).
Proof.
  unfold Window_fields, configure_window; cbv zeta.
  apply fs_bind; [apply fs_lift | intros _].
  apply fs_bind; [apply fs_prepare_window | intros win].
  ctor_steps.
Qed.

End ConstructorsKeepDescriptors.

Lemma Widget_fuel_S (H : host) (n : nat) (params : jsval) (W : world) :
  Widget_fuel H (S n) params W =
    if negb (truthy params) then
      let (_, W') := error (VStr "Widget from null/undefined") W in
      ((Ok (text_label (template [VStr "error widget from: "; VStr dquote; params;
                                  VStr dquote])), params), W')
    else if is_string params then ((Ok (text_label params), params), W)
    else if is_function params then
      let (o, W') := call H params [] W in ((o, params), W')
    else
      match params with
      | VWidget _ => ((Ok params, params), W)
      | VObj fs =>
          let '(o, (fs', W')) := structured H (Widget_fuel H n) fs (fs, W) in
          ((o, VObj fs'), W')
      | _ =>
          let '(o, (_, W')) := structured H (Widget_fuel H n) [] ([], W) in
          ((o, params), W')
      end.
Proof. reflexivity. Qed.

Lemma Widget_fuel_safe (H : host) (n : nat) : builder_safe (Widget_fuel H n).
Proof.
  induction n as [| n IH]; intros v W; [reflexivity |].
  rewrite Widget_fuel_S.
  destruct (negb (truthy v)); [destruct (error _ W); reflexivity |].
  destruct (is_string v); [reflexivity |].
  destruct (is_function v); [destruct (call H v [] W); reflexivity |].
  destruct v; try reflexivity;
    try (destruct (structured H (Widget_fuel H n) [] ([], W)) as [o [f W']];
         reflexivity).
  pose proof (@fs_structured H (Widget_fuel H n) IH fields0 fields0 W) as Hs.
  unfold frame, fields in *.
  destruct (structured H (Widget_fuel H n) fields0 (fields0, W)) as [o [f W']] eqn:E.
  simpl in Hs. cbn [fst snd]. rewrite !erase_VObj. now rewrite Hs.
Qed.

(** C9, as the code has it. A build leaves the descriptor as the caller gave
    it except for the keys named [measure] and [clip], which [Overlay]
    deletes from the entries of its [overlays] list: with those two keys
    disregarded everywhere, the descriptor after [Widget] or [Window] is the
    descriptor before. *)
Theorem descriptor_kept_but_measure_clip (H : host) (d : jsval) (W : world) :
  erase (snd (fst (Widget H d W))) = erase d
  /\ erase (snd (fst (Window H d W))) = erase d.
Proof.
  split; [apply Widget_fuel_safe |].
  unfold Window. destruct d; try reflexivity;
    try (destruct (Window_fields _ _ _ _) as [o [f W']]; reflexivity);
    try (destruct (ascii_only _); [| reflexivity];
         destruct (Window_fields _ _ _ _) as [o [f W']]; reflexivity).
  assert (Hb : builder_safe (Widget H)) by (intros v W0; apply Widget_fuel_safe).
  pose proof (@fs_Window_fields H (Widget H) Hb fields0 fields0 W) as Hs.
  unfold frame, fields in *.
  destruct (Window_fields H (Widget H) fields0 (fields0, W)) as [o [f W']] eqn:E.
  simpl in Hs. cbn [fst snd]. rewrite !erase_VObj. now rewrite Hs.
Qed.

(** C9 fails for an entry of [overlays]: after the build the entry has lost
    its [measure] key. *)
Lemma Overlay_deletes_measure :
  snd (fst (Widget (example_host true) example_overlay empty_world))
    = VObj [("type", VStr "overlay");
            ("overlays", VArr [VObj [("type", VStr "label"); ("label", VStr "x")]])]
  /\ snd (fst (Widget (example_host true) example_overlay empty_world))
     <> example_overlay.
Proof.
  split; [vm_compute; reflexivity | vm_compute; discriminate].
Qed.

(** ** The recursion bound of [Widget] is never reached *)

Lemma no_ret {S A} (a : A) : never_out (@ret S A a).
Proof. intros s; discriminate. Qed.

Lemma no_throw {S A} (e : string) : never_out (@throw S A e).
Proof. intros s; discriminate. Qed.

Lemma no_beyond {S A} : never_out (@beyond S A).
Proof. intros s; discriminate. Qed.

Lemma no_bind {S A B} (m : St S A) (k : A -> St S B) :
  never_out m -> (forall a, never_out (k a)) -> never_out (bind m k).
Proof.
  intros Hm Hk s. unfold bind. specialize (Hm s).
  destruct (m s) as [[a | e | |] s1]; simpl in *; try discriminate; [apply Hk | congruence].
Qed.

Lemma no_try_catch {S A} (m h : St S A) :
  never_out m -> never_out h -> never_out (try_catch m h).
Proof.
  intros Hm Hh s. unfold try_catch. specialize (Hm s).
  destruct (m s) as [[a | e | |] s1]; simpl in *; try discriminate; [apply Hh | congruence].
Qed.

Lemma no_foldM {S A B} (f : B -> A -> St S B) (xs : list A) :
  (forall b x, never_out (f b x)) -> forall b, never_out (foldM f b xs).
Proof.
  intros Hf; induction xs as [| x r IH]; intros b; simpl; [apply no_ret |].
  apply no_bind; [apply Hf | exact IH].
Qed.

Lemma no_forEach {S A} (f : A -> St S unit) (xs : list A) :
  (forall x, never_out (f x)) -> never_out (forEach f xs).
Proof.
  intros Hf; induction xs as [| x r IH]; simpl; [apply no_ret |].
  apply no_bind; [apply Hf | intros _; exact IH].
Qed.

Lemma no_emit_diag d : never_out (emit_diag d).
Proof. intros s; discriminate. Qed.

Lemma no_log_call f args : never_out (log_call f args).
Proof. intros s; discriminate. Qed.

Create HintDb no_out.
#[local] Hint Resolve no_emit_diag no_log_call : no_out.

(** Takes a computation apart, and closes the parts that are known. *)
Ltac no_steps :=
  repeat lazymatch goal with
    | |- never_out (ret _) => apply no_ret
    | |- never_out (throw _) => apply no_throw
    | |- never_out beyond => apply no_beyond
    | |- never_out (bind _ _) => apply no_bind; [| intros ?]
    | |- never_out (try_catch _ _) => apply no_try_catch
    | |- never_out (foldM _ _ _) => apply no_foldM; intros ? ?
    | |- never_out (forEach _ _) => apply no_forEach; intros ?
    | |- never_out (when _ _) => unfold when
    | |- never_out (if ?b then _ else _) => destruct b
    | |- never_out (match ?v with _ => _ end) => destruct v
    | |- never_out _ => solve [auto with no_out]
    end.

Lemma no_warning msg : never_out (warning msg).
Proof. apply no_emit_diag. Qed.

Lemma no_error msg : never_out (error msg).
Proof. apply no_emit_diag. Qed.

#[local] Hint Resolve no_warning no_error : no_out.

Lemma no_typecheck name value expected context :
  never_out (typecheck name value expected context).
Proof. unfold typecheck. no_steps. Qed.

Lemma no_restcheck rest context : never_out (restcheck rest context).
Proof. unfold restcheck. no_steps. Qed.

Lemma no_as_enum H v : never_out (as_enum H v).
Proof. unfold as_enum. no_steps. Qed.

Lemma no_upper_of v : never_out (upper_of v).
Proof. unfold upper_of. no_steps. Qed.

Lemma no_destructure v : never_out (destructure v).
Proof. unfold destructure. no_steps. Qed.

Lemma no_forEach_items v : never_out (forEach_items v).
Proof. unfold forEach_items. no_steps. Qed.

Lemma no_toString_of v : never_out (toString_of v).
Proof. unfold toString_of. no_steps. Qed.

#[local] Hint Resolve no_typecheck no_restcheck no_as_enum no_upper_of no_destructure
  no_forEach_items no_toString_of : no_out.

Lemma no_orientation H str : never_out (_orientation H str).
Proof. unfold _orientation; cbv zeta. no_steps. Qed.

Lemma no_step_increment mn mx : never_out (step_increment mn mx).
Proof. unfold step_increment. no_steps. Qed.

#[local] Hint Resolve no_orientation no_step_increment : no_out.

Lemma no_call H f args : never_out (call H f args).
Proof. unfold call. no_steps. Qed.

#[local] Hint Resolve no_call : no_out.

Lemma no_apply_align H attr v msg w : never_out (apply_align H attr v msg w).
Proof. unfold apply_align. no_steps. Qed.

Lemma no_apply_property w entry : never_out (apply_property w entry).
Proof. unfold apply_property. no_steps. Qed.

Lemma no_apply_connection H w triple : never_out (apply_connection H w triple).
Proof. unfold apply_connection; cbv zeta. no_steps. Qed.

Lemma no_typechecks ps type : never_out (typechecks ps type).
Proof. unfold typechecks. no_steps. Qed.

#[local] Hint Resolve no_apply_align no_apply_property no_apply_connection
  no_typechecks : no_out.

Lemma no_configure H w ps : never_out (configure H w ps).
Proof. unfold configure; cbv zeta. no_steps. Qed.

#[local] Hint Resolve no_configure : no_out.

Lemma no_parseParams H w ps : never_out (parseParams H w ps).
Proof. unfold parseParams; cbv zeta. no_steps. Qed.

#[local] Hint Resolve no_parseParams : no_out.

Lemma no_parseParams_on H widget ps : never_out (parseParams_on H widget ps).
Proof. unfold parseParams_on. no_steps. Qed.

Lemma no_parseEventListeners_on widget ls : never_out (parseEventListeners_on widget ls).
Proof. unfold parseEventListeners_on. no_steps. Qed.

#[local] Hint Resolve no_parseParams_on no_parseEventListeners_on : no_out.

Lemma no_finish H widget fs : never_out (finish H widget fs).
Proof. unfold finish. no_steps. Qed.

Lemma no_set_enum_attr H attr E v parent h :
  never_out h -> never_out (set_enum_attr H attr E v parent h).
Proof. intros Hh. unfold set_enum_attr. no_steps. Qed.

Lemma no_call_caught_error A : never_out (@call_caught_error A).
Proof. apply no_throw. Qed.

Lemma no_margin_table margin : never_out (margin_table margin).
Proof. unfold margin_table. no_steps. Qed.

#[local] Hint Resolve no_finish no_call_caught_error no_margin_table : no_out.

Lemma no_apply_margin H margin win : never_out (apply_margin H margin win).
Proof. unfold apply_margin; cbv zeta. no_steps. Qed.

Lemma no_apply_anchor H anchor win : never_out (apply_anchor H anchor win).
Proof. unfold apply_anchor. no_steps. Qed.

Lemma no_apply_layer H layer win : never_out (apply_layer H layer win).
Proof. unfold apply_layer. no_steps. Qed.

Lemma no_apply_monitor H monitor win : never_out (apply_monitor H monitor win).
Proof. unfold apply_monitor. no_steps. Qed.

Lemma no_window_checks fs : never_out (window_checks fs).
Proof. unfold window_checks; cbv zeta. no_steps. Qed.

#[local] Hint Resolve no_apply_margin no_apply_anchor no_apply_layer no_apply_monitor
  no_window_checks : no_out.

Lemma depth_VObj (fs : fields) : depth (VObj fs) = S (vdepth fs).
Proof. reflexivity. Qed.

Lemma depth_VArr (items : list jsval) : depth (VArr items) = S (ldepth items).
Proof. reflexivity. Qed.

Lemma depth_lookup (k : string) (fs : fields) : depth (lookup k fs) <= vdepth fs.
Proof.
  induction fs as [| [k' x] r IH]; simpl; [lia |].
  destruct (String.eqb k k'); lia.
Qed.

Lemma depth_nth (i : nat) (items : list jsval) :
  depth (nth i items VUndefined) <= ldepth items.
Proof.
  revert i; induction items as [| x r IH]; intros [| i]; simpl; try lia.
  specialize (IH i). lia.
Qed.

Lemma depth_item_at (k : string) (i : nat) (fs : fields) :
  depth (item_at k i fs) <= vdepth fs.
Proof.
  unfold item_at. pose proof (depth_lookup k fs) as Hk.
  destruct (lookup k fs); simpl; try lia.
  rewrite depth_VArr in Hk. pose proof (depth_nth i items). lia.
Qed.

Lemma depth_second_at (k : string) (i : nat) (fs : fields) :
  depth (second_at k i fs) <= vdepth fs.
Proof.
  unfold second_at. pose proof (depth_item_at k i fs) as Hk.
  destruct (item_at k i fs); simpl; try lia;
    try (destruct (String.get 1 _); simpl; lia).
  rewrite depth_VArr in Hk. pose proof (depth_nth 1 items). lia.
Qed.

Lemma vdepth_assign (k : string) (v : jsval) (fs : fields) :
  has_key k fs = true ->
  depth v <= depth (lookup k fs) ->
  vdepth (assign k v fs) <= vdepth fs.
Proof.
  induction fs as [| [k' x] r IH]; simpl; [discriminate |].
  destruct (String.eqb k k'); simpl; intros Hk Hv; [lia |].
  specialize (IH Hk Hv). lia.
Qed.

Lemma ldepth_replace_nth (i : nat) (v : jsval) (items : list jsval) :
  depth v <= depth (nth i items VUndefined) ->
  ldepth (replace_nth i v items) <= ldepth items.
Proof.
  revert i; induction items as [| x r IH]; intros [| i]; simpl; try lia.
  intros Hv. specialize (IH i Hv). lia.
Qed.

Lemma vdepth_put_key (k : string) (v : jsval) (fs : fields) :
  depth v <= depth (lookup k fs) -> vdepth (put_key k v fs) <= vdepth fs.
Proof.
  intros Hv. unfold put_key. destruct (has_key k fs) eqn:Hk; [| lia].
  now apply vdepth_assign.
Qed.

Lemma vdepth_put_item (k : string) (i : nat) (v : jsval) (fs : fields) :
  depth v <= depth (item_at k i fs) -> vdepth (put_item k i v fs) <= vdepth fs.
Proof.
  unfold put_item, item_at. destruct (lookup k fs) eqn:Hl; try lia.
  intros Hv. apply vdepth_assign.
  - apply lookup_has_key. rewrite Hl. discriminate.
  - rewrite Hl, !depth_VArr. pose proof (ldepth_replace_nth i v items Hv). lia.
Qed.

Lemma vdepth_put_second (k : string) (i : nat) (v : jsval) (fs : fields) :
  depth v <= depth (second_at k i fs) -> vdepth (put_second k i v fs) <= vdepth fs.
Proof.
  unfold put_second, second_at. destruct (item_at k i fs) eqn:Hi; try lia.
  intros Hv. apply vdepth_put_item. rewrite Hi, !depth_VArr.
  pose proof (ldepth_replace_nth 1 v items Hv). lia.
Qed.

Lemma vdepth_delete (k : string) (fs : fields) : vdepth (delete k fs) <= vdepth fs.
Proof.
  induction fs as [| [k' x] r IH]; simpl; [lia |].
  destruct (String.eqb k k'); simpl; lia.
Qed.

Lemma depth_delete_measure_clip (w : jsval) : depth (delete_measure_clip w) <= depth w.
Proof.
  destruct w; simpl; try lia.
  change (S (vdepth (delete "clip" (delete "measure" fields0))) <= S (vdepth fields0)).
  pose proof (vdepth_delete "clip" (delete "measure" fields0)).
  pose proof (vdepth_delete "measure" fields0). lia.
Qed.

Lemma good_ret d {A} (a : A) : good d (ret a).
Proof. intros fs W Hd; split; [discriminate | simpl; lia]. Qed.

Lemma good_throw d {A} (e : string) : good d (@throw frame A e).
Proof. intros fs W Hd; split; [discriminate | simpl; lia]. Qed.

Lemma good_beyond d {A} : good d (@beyond frame A).
Proof. intros fs W Hd; split; [discriminate | simpl; lia]. Qed.

Lemma good_lift d {A} (m : M A) : never_out m -> good d (lift m).
Proof.
  intros Hm fs W Hd. unfold lift; simpl. specialize (Hm W).
  destruct (m W) as [o W1]; simpl in *. split; [exact Hm | lia].
Qed.

Lemma good_bind d {A B} (m : F A) (k : A -> F B) :
  good d m -> (forall a, good d (k a)) -> good d (bind m k).
Proof.
  intros Hm Hk fs W Hd. unfold bind. destruct (Hm fs W Hd) as [Hn Hv].
  destruct (m (fs, W)) as [[a | e | |] [fs1 W1]]; simpl in *;
    try (split; [discriminate | exact Hv]); [| congruence].
  destruct (Hk a fs1 W1 ltac:(lia)) as [Hn' Hv']. split; [exact Hn' | lia].
Qed.

Lemma good_build_at d (build : builder) (get : fields -> jsval)
    (put : jsval -> fields -> fields) :
  builder_good d build ->
  (forall fs, depth (get fs) <= vdepth fs) ->
  (forall v fs, depth v <= depth (get fs) -> vdepth (put v fs) <= vdepth fs) ->
  good d (build_at build get put).
Proof.
  intros Hb Hget Hput fs W Hd. unfold build_at; simpl.
  specialize (Hget fs). destruct (Hb (get fs) W ltac:(lia)) as [Hn Hp].
  destruct (build (get fs) W) as [[o p] W1]; simpl in *.
  split; [exact Hn | now apply Hput].
Qed.

Section ConstructorsTerminate.

Variable H : host.
Variable d : nat.
Variable build : builder.
Hypothesis build_good : builder_good d build.
Hypothesis build_factory : builder_factory build.

Lemma good_build_key k : good d (build_key build k).
Proof.
  apply good_build_at; [exact build_good | apply depth_lookup |].
  intros; now apply vdepth_put_key.
Qed.

Lemma good_build_item k i : good d (build_item build k i).
Proof.
  apply good_build_at; [exact build_good | apply depth_item_at |].
  intros; now apply vdepth_put_item.
Qed.

Lemma good_build_second k i : good d (build_second build k i).
Proof.
  apply good_build_at; [exact build_good | apply depth_second_at |].
  intros; now apply vdepth_put_second.
Qed.

Lemma good_take_measure_clip i : good d (take_measure_clip i).
Proof.
  intros fs W Hd. unfold take_measure_clip; cbn [fst snd].
  destruct (item_at "overlays" i fs) eqn:Hw; cbn [fst snd];
    (split; [discriminate |]); try lia;
    apply vdepth_put_item; rewrite Hw; apply depth_delete_measure_clip.
Qed.

Lemma good_set_child_of child parent : good d (set_child_of build child parent).
Proof.
  unfold set_child_of. destruct (truthy child); [| apply good_ret].
  apply good_bind; [apply good_build_key | intros; apply good_ret].
Qed.

Lemma good_append_children items : forall i box,
  good d (append_children build i items box).
Proof.
  induction items as [| x r IH]; intros i box; simpl; [apply good_ret |].
  apply good_bind; [apply good_build_item | intros c; apply IH].
Qed.

Lemma good_add_items items : forall i stack, good d (add_items build i items stack).
Proof.
  induction items as [| x r IH]; intros i stack; simpl; [apply good_ret |].
  apply good_bind; [apply good_lift, no_destructure | intros nw].
  apply good_bind; [| intros st; apply IH].
  destruct (truthy (item 1 nw)); [| apply good_ret].
  apply good_bind; [apply good_build_second | intros; apply good_ret].
Qed.

Lemma good_add_overlays items : forall i overlay,
  good d (add_overlays build i items overlay).
Proof.
  induction items as [| x r IH]; intros i overlay; simpl; [apply good_ret |].
  apply good_bind; [apply good_take_measure_clip | intros w].
  apply good_bind; [apply good_build_item | intros wd; apply IH].
Qed.

Lemma no_slider_build (desc : fields) :
  is_function (lookup "type" desc) = true ->
  never_out (fun W => let '((o, _), W') := build (VObj desc) W in (o, W')).
Proof.
  intros Hf W. specialize (build_factory desc W Hf).
  destruct (build (VObj desc) W) as [[o p] W']. exact build_factory.
Qed.

(** Takes a constructor apart; the loops and nested builds are the lemmas
    above, the rest never stops. *)
Ltac good_steps :=
  repeat lazymatch goal with
    | |- good _ (ret _) => apply good_ret
    | |- good _ (throw _) => apply good_throw
    | |- good _ beyond => apply good_beyond
    | |- good _ (bind _ _) => apply good_bind; [| intros ?]
    | |- good _ (check _ _ _ _) => apply good_lift, no_typecheck
    | |- good _ (lift (set_enum_attr _ _ _ _ _ _)) =>
        apply good_lift, no_set_enum_attr; no_steps
    | |- good _ (lift (try_catch _ _)) => apply good_lift; no_steps
    | |- good _ (lift (fun W => _)) => apply good_lift, no_slider_build; reflexivity
    | |- good _ (lift _) => apply good_lift; solve [auto with no_out]
    | |- good _ (build_key _ _) => apply good_build_key
    | |- good _ (set_child_of _ _ _) => apply good_set_child_of
    | |- good _ (append_children _ _ _ _) => apply good_append_children
    | |- good _ (add_items _ _ _ _) => apply good_add_items
    | |- good _ (add_overlays _ _ _ _) => apply good_add_overlays
    | |- good _ (if ?b then _ else _) => destruct b
    | |- good _ (match ?v with _ => _ end) => destruct v
    end.

Lemma good_Box props : good d (Box H build props).
Proof. unfold Box; cbv zeta. good_steps. Qed.

Lemma good_CenterBox props : good d (CenterBox H build props).
Proof. unfold CenterBox; cbv zeta. good_steps. Qed.

Lemma good_Icon props : good d (Icon props).
Proof. unfold Icon; cbv zeta. good_steps. Qed.

Lemma good_Label props : good d (Label H props).
Proof. unfold Label; cbv zeta. good_steps. Qed.

Lemma good_Button props : good d (Button build props).
Proof. unfold Button; cbv zeta. good_steps. Qed.

Lemma good_Slider props : good d (Slider build props).
Proof. unfold Slider; cbv zeta. good_steps. Qed.

Lemma good_Stack props : good d (Stack H build props).
Proof. unfold Stack; cbv zeta. good_steps. Qed.

Lemma good_Entry props : good d (Entry props).
Proof. unfold Entry; cbv zeta. good_steps. Qed.

Lemma good_Scrollable props : good d (Scrollable H build props).
Proof. unfold Scrollable; cbv zeta. good_steps. Qed.

Lemma good_Revealer props : good d (Revealer H build props).
Proof. unfold Revealer; cbv zeta. good_steps. Qed.

Lemma good_Overlay props : good d (Overlay build props).
Proof. unfold Overlay; cbv zeta. good_steps. Qed.

Lemma good_Switch props : good d (Switch props).
Proof. unfold Switch; cbv zeta. good_steps. Qed.

Lemma good_prepare_window fs0 win : good d (prepare_window H build fs0 win).
Proof. unfold prepare_window; cbv zeta. good_steps. Qed.

Lemma good_Window_fields fs0 : good d (Window_fields H build fs0).
Proof.
  unfold Window_fields, configure_window; cbv zeta.
  apply good_bind; [apply good_lift, no_window_checks | intros _].
  apply good_bind; [apply good_prepare_window | intros win].
  good_steps.
Qed.

End ConstructorsTerminate.

Lemma good_widgets_call H d build t props :
  builder_good d build -> builder_factory build ->
  good d (widgets_call H build t props).
Proof.
  intros Hg Hf. unfold widgets_call, widgets, own.
  repeat match goal with
         | |- context [String.eqb t ?k] => destruct (String.eqb t k)
         end;
    cbn [orb];
    first [ now apply good_Box | now apply good_CenterBox | apply good_Icon
          | apply good_Label | now apply good_Button | now apply good_Slider
          | now apply good_Stack | apply good_Entry | now apply good_Scrollable
          | now apply good_Revealer | now apply good_Overlay | apply good_Switch
          | apply good_ret | apply good_throw | apply good_beyond ].
Qed.

Lemma good_structured H d build fs0 :
  builder_good d build -> builder_factory build ->
  good d (structured H build fs0).
Proof.
  intros Hg Hf. unfold structured; cbv zeta.
  apply good_bind.
  { destruct (is_function _); [apply good_lift, no_call | apply good_ret]. }
  intros w. apply good_bind.
  - destruct (lookup "type" fs0); try apply good_ret; try apply good_beyond.
    destruct (in_widgets H s); [now apply good_widgets_call | apply good_ret].
  - intros w'. destruct w'; try (apply good_lift, no_finish).
    apply good_bind; [apply good_lift, no_error | intros; apply good_ret].
Qed.

(** With a function for [type] the structured path never asks for a nested
    build. *)
Lemma structured_factory H build fs0 s :
  is_function (lookup "type" fs0) = true ->
  fst (structured H build fs0 s) <> OutOfFuel.
Proof.
  intros Hf. unfold structured; cbv zeta. rewrite Hf.
  assert (Hn : never_out
            (A := jsval) (S := frame)
            (widget <- lift (call H (lookup "type" fs0) []) ;;
             widget0 <- ret widget ;;
             match widget0 with
             | VNull =>
                 lift (error (template [VStr "There is no widget with type ";
                                        lookup "type" fs0])) ;;;
                 ret (text_label (template [lookup "type" fs0; VStr " doesn't exist"]))
             | _ => lift (finish H widget0 fs0)
             end)).
  { assert (Hl : forall A (m : M A), never_out m -> never_out (lift m)).
    { intros A m Hm [fs W]. unfold lift; simpl. specialize (Hm W).
      destruct (m W); exact Hm. }
    apply no_bind; [apply Hl, no_call | intros w].
    apply no_bind; [apply no_ret | intros w'].
    destruct w'; try (apply Hl, no_finish).
    apply no_bind; [apply Hl, no_error | intros; apply no_ret]. }
  destruct (lookup "type" fs0); try discriminate; apply Hn.
Qed.

Lemma Widget_fuel_factory H n : builder_factory (Widget_fuel H (S n)).
Proof.
  intros fs W Hf. rewrite Widget_fuel_S. cbn [truthy negb is_string is_function].
  pose proof (@structured_factory H (Widget_fuel H n) fs (fs, W) Hf) as Hs.
  unfold frame, fields in *.
  destruct (structured H (Widget_fuel H n) fs (fs, W)) as [o [f W']]. exact Hs.
Qed.

Lemma structured_empty H build W :
  structured H build [] ([], W)
  = (Ok (text_label (VStr "undefined doesn't exist")),
     ([], MkWorld (diags W ++ [DError (VStr "There is no widget with type undefined")])
                  (calls W))).
Proof. reflexivity. Qed.

(** With fuel above the depth of the descriptor, [Widget_fuel] never stops
    at the bound, and the descriptor it leaves is no deeper. *)
Lemma Widget_fuel_good H n : builder_good n (Widget_fuel H (S n)).
Proof.
  induction n as [| n IH]; intros v W Hd; rewrite Widget_fuel_S.
  - destruct (negb (truthy v)); [destruct (error _ W); split; [discriminate | simpl; lia] |].
    destruct (is_string v); [split; [discriminate | simpl; lia] |].
    destruct (is_function v).
    { pose proof (no_call H v [] W) as Hc. destruct (call H v [] W).
      split; [exact Hc | simpl; lia]. }
    destruct v; try (rewrite structured_empty); try (split; [discriminate | simpl; lia]);
      simpl in Hd; lia.
  - destruct (negb (truthy v)); [destruct (error _ W); split; [discriminate | simpl; lia] |].
    destruct (is_string v); [split; [discriminate | simpl; lia] |].
    destruct (is_function v).
    { pose proof (no_call H v [] W) as Hc. destruct (call H v [] W).
      split; [exact Hc | simpl; lia]. }
    destruct v; try (rewrite structured_empty); try (split; [discriminate | simpl; lia]).
    rewrite depth_VObj in Hd.
    pose proof (@good_structured H n (Widget_fuel H (S n)) fields0 IH
                  (Widget_fuel_factory H n) fields0 W ltac:(lia)) as [Hn Hv].
    unfold frame, fields in *.
    destruct (structured H (Widget_fuel H (S n)) fields0 (fields0, W)) as [o [f W']].
    simpl in Hn, Hv. cbn [fst snd]. split; [exact Hn | rewrite !depth_VObj; lia].
Qed.

(** [Widget] never stops at its recursion bound. *)
Lemma Widget_total (H : host) (d : jsval) (W : world) :
  fst (fst (Widget H d W)) <> OutOfFuel.
Proof.
  unfold Widget. apply (@Widget_fuel_good H (S (depth d))). lia.
Qed.

(** More fuel than [Widget] takes changes nothing that matters here: above
    the depth of the descriptor the bound is not reached either. *)
Lemma Widget_fuel_enough (H : host) (n : nat) (d : jsval) (W : world) :
  depth d < n -> fst (fst (Widget_fuel H n d W)) <> OutOfFuel.
Proof.
  intros Hn. destruct n as [| n]; [lia |].
  apply (@Widget_fuel_good H n). lia.
Qed.

Lemma Widget_good (H : host) (d : nat) : builder_good d (Widget H).
Proof.
  intros v W _. unfold Widget. apply (@Widget_fuel_good H (S (depth v))). lia.
Qed.

Lemma Widget_factory (H : host) : builder_factory (Widget H).
Proof. intros fs W Hf. unfold Widget. now apply Widget_fuel_factory. Qed.

Lemma Window_fields_total (H : host) (fs0 fs : fields) (W : world) :
  fst (Window_fields H (Widget H) fs0 (fs, W)) <> OutOfFuel.
Proof.
  exact (proj1 (@good_Window_fields H (vdepth fs) (Widget H)
                  (@Widget_good H (vdepth fs)) fs0 fs W (le_n _))).
Qed.

(** [Window] never stops at the recursion bound of the [Widget] it calls. *)
Lemma Window_total (H : host) (d : jsval) (W : world) :
  fst (fst (Window H d W)) <> OutOfFuel.
Proof.
  unfold Window. destruct d; try discriminate;
    try (destruct (ascii_only _); [| discriminate]);
    match goal with
    | |- context [Window_fields H (Widget H) ?a (?b, W)] =>
        pose proof (Window_fields_total H a b W) as Hn;
        unfold frame, fields in *;
        destruct (Window_fields _ _ _ _) as [o [f W']]; exact Hn
    end.
Qed.

(** * Further properties of the engine *)

(** ** [Widget]: the paths that end in a placeholder *)

Lemma Widget_unknown_type_witness :
  Widget (example_host true) (VObj [("type", VStr "levelbar"); ("setup", VFun 3)])
    empty_world
  = ((Ok (text_label (VStr "levelbar doesn't exist")),
      VObj [("type", VStr "levelbar"); ("setup", VFun 3)]),
     MkWorld [DError (VStr "There is no widget with type levelbar")] []).
Proof.
  apply (@Widget_unknown_type (example_host true) "levelbar"
           [("type", VStr "levelbar"); ("setup", VFun 3)] empty_world);
    reflexivity.
Defined.

(** X2. A falsy descriptor ([undefined], [null], [false], [0], [NaN], the
    empty string) never throws: [Widget] reports [Widget from
    null/undefined] once and returns a label that quotes the descriptor. *)
Theorem Widget_falsy (H : host) (params : jsval) (W : world) :
  truthy params = false ->
  Widget H params W
  = ((Ok (text_label (template [VStr "error widget from: "; VStr dquote; params;
                                VStr dquote])), params),
     MkWorld (diags W ++ [DError (VStr "Widget from null/undefined")]) (calls W)).
Proof.
  intros Hf. unfold Widget. rewrite Widget_fuel_S, Hf. reflexivity.
Qed.

Lemma Widget_falsy_witness :
  Widget (example_host true) VNull empty_world
  = ((Ok (text_label (VStr ("error widget from: " ++ dquote ++ "null" ++ dquote)%string)),
      VNull),
     MkWorld [DError (VStr "Widget from null/undefined")] []).
Proof.
  apply (@Widget_falsy (example_host true) VNull empty_world). reflexivity.
Defined.

(** X3. The recursion of [Widget] over nested descriptors ends: with any
    fuel above the nesting depth of the descriptor the bound is not
    reached, [Widget] itself takes enough, and so does the [Widget] that
    [Window] calls for its child. *)
Theorem build_terminates (H : host) (d : jsval) (W : world) :
  (forall n, depth d < n -> fst (fst (Widget_fuel H n d W)) <> OutOfFuel)
  /\ fst (fst (Widget H d W)) <> OutOfFuel
  /\ fst (fst (Window H d W)) <> OutOfFuel.
Proof.
  split; [| split].
  - intros [| n] Hn; [lia |]. apply (@Widget_fuel_good H n). lia.
  - unfold Widget. apply (@Widget_fuel_good H (S (depth d))). lia.
  - unfold Window. destruct d; try discriminate;
      try (destruct (ascii_only _); [| discriminate]);
      match goal with
      | |- context [Window_fields H (Widget H) ?a (?b, W)] =>
          pose proof (Window_fields_total H a b W) as Hn;
          unfold frame, fields in *;
          destruct (Window_fields _ _ _ _) as [o [f W']]; exact Hn
      end.
Qed.

(** ** Descriptors without [measure] and [clip] *)

Lemma length_erase_fields (fs : fields) : List.length (erase_fields fs) <= List.length fs.
Proof.
  induction fs as [| [k x] r IH]; simpl; [lia |].
  destruct (is_measure_clip k); simpl; lia.
Qed.

Lemma erase_fields_cons (k : string) (x : jsval) (r : fields) :
  erase_fields ((k, x) :: r) = (k, x) :: r ->
  is_measure_clip k = false /\ erase x = x /\ erase_fields r = r.
Proof.
  simpl. destruct (is_measure_clip k) eqn:Hk.
  - intros E. pose proof (length_erase_fields r) as Hl. rewrite E in Hl. simpl in Hl. lia.
  - intros E. inversion E as [[Hx Hr]]. rewrite Hx, Hr. auto.
Qed.

Lemma clean_lookup (k : string) (fs : fields) :
  erase_fields fs = fs -> erase (lookup k fs) = lookup k fs.
Proof.
  induction fs as [| [k' x] r IH]; [reflexivity |].
  intros E. apply erase_fields_cons in E as [_ [Hx Hr]]. simpl.
  destruct (String.eqb k k'); auto.
Qed.

Lemma clean_has_key (k : string) (fs : fields) :
  erase_fields fs = fs -> is_measure_clip k = true -> has_key k fs = false.
Proof.
  induction fs as [| [k' x] r IH]; [reflexivity |].
  intros E Hk. apply erase_fields_cons in E as [Hk' [_ Hr]]. simpl.
  destruct (String.eqb_spec k k') as [-> | _]; [congruence | now apply IH].
Qed.

Lemma clean_nth (i : nat) (items : list jsval) :
  map erase items = items -> erase (nth i items VUndefined) = nth i items VUndefined.
Proof.
  revert i; induction items as [| x r IH]; intros [| i] E; simpl; try reflexivity;
    inversion E as [[Hx Hr]]; rewrite ?Hx, ?Hr; auto.
Qed.

Lemma clean_VArr (items : list jsval) : erase (VArr items) = VArr items -> map erase items = items.
Proof. rewrite erase_VArr. now intros [= E]. Qed.

Lemma clean_item_at (k : string) (i : nat) (fs : fields) :
  erase_fields fs = fs -> erase (item_at k i fs) = item_at k i fs.
Proof.
  intros E. unfold item_at. pose proof (clean_lookup k E) as Hl.
  destruct (lookup k fs); try reflexivity. now apply clean_nth, clean_VArr.
Qed.

Lemma clean_second_at (k : string) (i : nat) (fs : fields) :
  erase_fields fs = fs -> erase (second_at k i fs) = second_at k i fs.
Proof.
  intros E. unfold second_at. pose proof (clean_item_at k i E) as Hl.
  destruct (item_at k i fs); try reflexivity;
    try (destruct (String.get 1 _); reflexivity).
  now apply clean_nth, clean_VArr.
Qed.

Lemma assign_same (k : string) (fs : fields) : assign k (lookup k fs) fs = fs \/ has_key k fs = false.
Proof.
  induction fs as [| [k' x] r IH]; simpl; [now right |].
  destruct (String.eqb_spec k k') as [-> | _]; [now left |].
  destruct IH as [-> | ->]; auto.
Qed.

Lemma replace_nth_same (i : nat) (items : list jsval) :
  replace_nth i (nth i items VUndefined) items = items.
Proof.
  revert i; induction items as [| x r IH]; intros [| i]; simpl; try reflexivity.
  now rewrite IH.
Qed.

Lemma put_key_same (k : string) (fs : fields) : put_key k (lookup k fs) fs = fs.
Proof.
  unfold put_key. destruct (has_key k fs) eqn:Hk; [| reflexivity].
  destruct (assign_same k fs) as [E | E]; [exact E | congruence].
Qed.

Lemma put_item_same (k : string) (i : nat) (fs : fields) :
  put_item k i (item_at k i fs) fs = fs.
Proof.
  unfold put_item, item_at. destruct (lookup k fs) eqn:Hl; try reflexivity.
  rewrite replace_nth_same, <- Hl.
  destruct (assign_same k fs) as [E | E]; [exact E |].
  assert (Hk : has_key k fs = true) by (apply lookup_has_key; rewrite Hl; discriminate).
  congruence.
Qed.

Lemma put_second_same (k : string) (i : nat) (fs : fields) :
  put_second k i (second_at k i fs) fs = fs.
Proof.
  unfold put_second, second_at. destruct (item_at k i fs) eqn:Hi; try reflexivity.
  rewrite replace_nth_same, <- Hi. apply put_item_same.
Qed.

Lemma delete_absent (k : string) (fs : fields) : has_key k fs = false -> delete k fs = fs.
Proof.
  induction fs as [| [k' x] r IH]; simpl; [reflexivity |].
  destruct (String.eqb k k'); simpl; [discriminate | intros Hk; now rewrite IH].
Qed.

Lemma clean_delete_measure_clip (w : jsval) : erase w = w -> delete_measure_clip w = w.
Proof.
  destruct w; try reflexivity. rewrite erase_VObj. intros [= E]. simpl.
  rewrite (@delete_absent "measure" fields0) by now apply clean_has_key.
  rewrite (@delete_absent "clip" fields0) by now apply clean_has_key.
  reflexivity.
Qed.

Lemma ex_ret {A} (a : A) : frame_exact (ret a).
Proof. intros fs W _; reflexivity. Qed.

Lemma ex_throw {A} (e : string) : frame_exact (@throw frame A e).
Proof. intros fs W _; reflexivity. Qed.

Lemma ex_beyond {A} : frame_exact (@beyond frame A).
Proof. intros fs W _; reflexivity. Qed.

Lemma ex_lift {A} (m : M A) : frame_exact (lift m).
Proof. intros fs W _. unfold lift; simpl. destruct (m W); reflexivity. Qed.

Lemma ex_bind {A B} (m : F A) (k : A -> F B) :
  frame_exact m -> (forall a, frame_exact (k a)) -> frame_exact (bind m k).
Proof.
  intros Hm Hk fs W E. unfold bind. specialize (Hm fs W E).
  destruct (m (fs, W)) as [[a | e | |] [fs1 W1]]; simpl in *; try exact Hm.
  subst fs1. now apply Hk.
Qed.

Lemma ex_build_at (build : builder) (get : fields -> jsval)
    (put : jsval -> fields -> fields) :
  builder_exact build ->
  (forall fs, erase_fields fs = fs -> erase (get fs) = get fs) ->
  (forall fs, put (get fs) fs = fs) ->
  frame_exact (build_at build get put).
Proof.
  intros Hb Hget Hput fs W E. unfold build_at; simpl.
  specialize (Hb (get fs) W (Hget fs E)).
  destruct (build (get fs) W) as [[o p] W1]; simpl in *. subst p. apply Hput.
Qed.

Section ConstructorsKeepCleanDescriptors.

Variable H : host.
Variable build : builder.
Hypothesis build_exact : builder_exact build.

Lemma ex_build_key k : frame_exact (build_key build k).
Proof.
  apply ex_build_at; [exact build_exact | intros; now apply clean_lookup |].
  intros; apply put_key_same.
Qed.

Lemma ex_build_item k i : frame_exact (build_item build k i).
Proof.
  apply ex_build_at; [exact build_exact | intros; now apply clean_item_at |].
  intros; apply put_item_same.
Qed.

Lemma ex_build_second k i : frame_exact (build_second build k i).
Proof.
  apply ex_build_at; [exact build_exact | intros; now apply clean_second_at |].
  intros; apply put_second_same.
Qed.

Lemma ex_take_measure_clip i : frame_exact (take_measure_clip i).
Proof.
  intros fs W E. unfold take_measure_clip; cbn [fst snd].
  pose proof (clean_item_at "overlays" i E) as Hc.
  destruct (item_at "overlays" i fs) eqn:Hw; try reflexivity; cbn [fst snd];
    rewrite (clean_delete_measure_clip Hc), <- Hw; apply put_item_same.
Qed.

Lemma ex_set_child_of child parent : frame_exact (set_child_of build child parent).
Proof.
  unfold set_child_of. destruct (truthy child); [| apply ex_ret].
  apply ex_bind; [apply ex_build_key | intros; apply ex_ret].
Qed.

Lemma ex_append_children items : forall i box,
  frame_exact (append_children build i items box).
Proof.
  induction items as [| x r IH]; intros i box; simpl; [apply ex_ret |].
  apply ex_bind; [apply ex_build_item | intros c; apply IH].
Qed.

Lemma ex_add_items items : forall i stack, frame_exact (add_items build i items stack).
Proof.
  induction items as [| x r IH]; intros i stack; simpl; [apply ex_ret |].
  apply ex_bind; [apply ex_lift | intros nw].
  apply ex_bind; [| intros st; apply IH].
  destruct (truthy (item 1 nw)); [| apply ex_ret].
  apply ex_bind; [apply ex_build_second | intros; apply ex_ret].
Qed.

Lemma ex_add_overlays items : forall i overlay,
  frame_exact (add_overlays build i items overlay).
Proof.
  induction items as [| x r IH]; intros i overlay; simpl; [apply ex_ret |].
  apply ex_bind; [apply ex_take_measure_clip | intros w].
  apply ex_bind; [apply ex_build_item | intros wd; apply IH].
Qed.

(** Takes a constructor apart, down to the loops and nested builds above. *)
Ltac ex_steps :=
  repeat lazymatch goal with
    | |- frame_exact (ret _) => apply ex_ret
    | |- frame_exact (throw _) => apply ex_throw
    | |- frame_exact beyond => apply ex_beyond
    | |- frame_exact (bind _ _) => apply ex_bind; [| intros ?]
    | |- frame_exact (check _ _ _ _) => apply ex_lift
    | |- frame_exact (lift _) => apply ex_lift
    | |- frame_exact (build_key _ _) => apply ex_build_key
    | |- frame_exact (set_child_of _ _ _) => apply ex_set_child_of
    | |- frame_exact (append_children _ _ _ _) => apply ex_append_children
    | |- frame_exact (add_items _ _ _ _) => apply ex_add_items
    | |- frame_exact (add_overlays _ _ _ _) => apply ex_add_overlays
    | |- frame_exact (if ?b then _ else _) => destruct b
    | |- frame_exact (match ?v with _ => _ end) => destruct v
    end.

Lemma ex_widgets_call t props : frame_exact (widgets_call H build t props).
Proof.
  unfold widgets_call, widgets, own.
  repeat match goal with
         | |- context [String.eqb t ?k] => destruct (String.eqb t k)
         end;
    cbn [orb];
    try unfold Box, Button, CenterBox, Entry, Icon, Label, Overlay, Revealer,
      Scrollable, Slider, Stack, Switch;
    cbv zeta; ex_steps.
Qed.

Lemma ex_structured fs0 : frame_exact (structured H build fs0).
Proof.
  unfold structured; cbv zeta.
  apply ex_bind; [destruct (is_function _); [apply ex_lift | apply ex_ret] | intros w].
  apply ex_bind.
  - destruct (lookup "type" fs0); try apply ex_ret; try apply ex_beyond.
    destruct (in_widgets H s); [apply ex_widgets_call | apply ex_ret].
  - intros w'. destruct w'; try apply ex_lift.
    apply ex_bind; [apply ex_lift | intros; apply ex_ret].
Qed.

Lemma ex_Window_fields fs0 : frame_exact (Window_fields H build fs0).
Proof. unfold Window_fields, configure_window, prepare_window; cbv zeta. ex_steps. Qed.

End ConstructorsKeepCleanDescriptors.

Lemma Widget_fuel_exact (H : host) (n : nat) : builder_exact (Widget_fuel H n).
Proof.
  induction n as [| n IH]; intros v W E; [reflexivity |].
  rewrite Widget_fuel_S.
  destruct (negb (truthy v)); [destruct (error _ W); reflexivity |].
  destruct (is_string v); [reflexivity |].
  destruct (is_function v); [destruct (call H v [] W); reflexivity |].
  destruct v; try reflexivity;
    try (destruct (structured H (Widget_fuel H n) [] ([], W)) as [o [f W']];
         reflexivity).
  rewrite erase_VObj in E. injection E as E.
  pose proof (@ex_structured H (Widget_fuel H n) IH fields0 fields0 W E) as Hs.
  unfold frame, fields in *.
  destruct (structured H (Widget_fuel H n) fields0 (fields0, W)) as [o [f W']].
  simpl in Hs. cbn [fst snd]. now rewrite Hs.
Qed.

(** X4. A descriptor in which no object has a key named [measure] or [clip]
    is, after [Widget] or [Window] has built from it, exactly the
    descriptor the caller gave, whatever the outcome of the build. *)
Theorem clean_descriptor_unchanged (H : host) (d : jsval) (W : world) :
  erase d = d ->
  snd (fst (Widget H d W)) = d /\ snd (fst (Window H d W)) = d.
Proof.
  intros E. split; [now apply Widget_fuel_exact |].
  unfold Window. destruct d; try reflexivity;
    try (destruct (Window_fields _ _ _ _) as [o [f W']]; reflexivity);
    try (destruct (ascii_only _); [| reflexivity];
         destruct (Window_fields _ _ _ _) as [o [f W']]; reflexivity).
  rewrite erase_VObj in E. injection E as E.
  assert (Hb : builder_exact (Widget H)) by (intros v W0; apply Widget_fuel_exact).
  pose proof (@ex_Window_fields H (Widget H) Hb fields0 fields0 W E) as Hs.
  unfold frame, fields in *.
  destruct (Window_fields H (Widget H) fields0 (fields0, W)) as [o [f W']].
  simpl in Hs. cbn [fst snd]. now rewrite Hs.
Qed.

Lemma clean_descriptor_unchanged_witness :
  snd (fst (Widget (example_host true)
              (VObj [("type", VStr "box");
                     ("children", VArr [VStr "a"; VObj [("type", VStr "label")]])])
              empty_world))
  = VObj [("type", VStr "box");
          ("children", VArr [VStr "a"; VObj [("type", VStr "label")]])].
Proof.
  exact (proj1 (@clean_descriptor_unchanged (example_host true)
                  (VObj [("type", VStr "box");
                         ("children", VArr [VStr "a"; VObj [("type", VStr "label")]])])
                  empty_world eq_refl)).
Defined.

(** ** What a constructor is given *)

Lemma lookup_delete (k k' : string) (fs : fields) :
  lookup k (delete k' fs) = if String.eqb k k' then VUndefined else lookup k fs.
Proof.
  induction fs as [| [k0 x] r IH]; simpl; [now destruct (String.eqb k k') |].
  destruct (String.eqb_spec k' k0) as [<- | Hne]; simpl.
  - rewrite IH. destruct (String.eqb k k'); reflexivity.
  - rewrite IH. destruct (String.eqb_spec k k') as [-> | _]; [| reflexivity].
    destruct (String.eqb_spec k' k0); [contradiction | reflexivity].
Qed.

Lemma lookup_delete_all (k : string) (ks : list string) (fs : fields) :
  lookup k (delete_all ks fs)
  = if existsb (String.eqb k) ks then VUndefined else lookup k fs.
Proof.
  unfold delete_all. revert fs. induction ks as [| k' r IH]; intros fs; simpl;
    [reflexivity |].
  rewrite IH, lookup_delete. destruct (String.eqb k k'), (existsb _ r); reflexivity.
Qed.

(** X5. The object that [Widget] hands to a registry constructor holds
    [type] and every field of the descriptor that is not one of the
    engine's own names, with the descriptor's values; the engine's own
    names (className, style, ..., setup and the twelve listener slots) are
    not in it, so no constructor reads them or reports them as unknown. *)
Theorem constructor_props_lookup (H : host) (build : builder) (fs : fields) (k : string) :
  lookup k (constructor_props fs)
  = (if String.eqb k "type" then lookup "type" fs
     else if existsb (String.eqb k) (param_keys ++ listener_slots) then VUndefined
     else lookup k fs)
  /\ (forall t s,
        lookup "type" fs = VStr t -> in_widgets H t = true ->
        structured H build fs s
        = (widget <- widgets_call H build t (constructor_props fs) ;;
           match widget with
           | VNull =>
               lift (error (template [VStr "There is no widget with type "; VStr t])) ;;;
               ret (text_label (template [VStr t; VStr " doesn't exist"]))
           | _ => lift (finish H widget fs)
           end) s).
Proof.
  split.
  - unfold constructor_props. cbn [lookup].
    destruct (String.eqb k "type"); [reflexivity | apply lookup_delete_all].
  - intros t s Ht Hin. unfold structured, constructor_props. rewrite Ht, Hin.
    reflexivity.
Qed.

Lemma lookup_assign_same (k : string) (v : jsval) (fs : fields) :
  lookup k (assign k v fs) = v.
Proof.
  induction fs as [| [k' x] r IH]; simpl; [now rewrite String.eqb_refl |].
  destruct (String.eqb k k') eqn:E; simpl; [now rewrite String.eqb_refl | now rewrite E].
Qed.

Lemma lookup_assign_other (k k' : string) (v : jsval) (fs : fields) :
  String.eqb k k' = false -> lookup k (assign k' v fs) = lookup k fs.
Proof.
  intros Hne. induction fs as [| [k0 x] r IH]; simpl; [now rewrite Hne |].
  destruct (String.eqb_spec k' k0) as [<- | Hk]; simpl.
  - now rewrite Hne.
  - now rewrite IH.
Qed.

Lemma nth_replace_nth (i : nat) (v x : jsval) (items : list jsval) :
  nth_error items i = Some x -> nth i (replace_nth i v items) VUndefined = v.
Proof.
  revert i; induction items as [| y r IH]; intros [| i]; simpl; try discriminate;
    [reflexivity | apply IH].
Qed.

(** X6. [Overlay] reads [measure] and [clip] off an entry of [overlays] and
    deletes them from it before the entry is built: the destructuring
    returns the entry as it was, the entry the frame then holds at that
    index has neither key, and every other key of it is looked up as
    before. *)
Theorem overlay_entry_stripped (i : nat) (fs efs : fields) (items : list jsval)
    (W : world) :
  lookup "overlays" fs = VArr items ->
  nth_error items i = Some (VObj efs) ->
  let stripped := delete "clip" (delete "measure" efs) in
  let fs' := put_item "overlays" i (VObj stripped) fs in
  take_measure_clip i (fs, W) = (Ok (VObj efs), (fs', W))
  /\ item_at "overlays" i fs' = VObj stripped
  /\ (forall k, lookup k stripped
                = if is_measure_clip k then VUndefined else lookup k efs).
Proof.
  intros Hl Hn stripped fs'.
  assert (Hi : item_at "overlays" i fs = VObj efs).
  { unfold item_at. rewrite Hl. revert Hn. clear. revert i.
    induction items as [| y r IH]; intros [| i]; simpl; try discriminate;
      [now intros [= ->] | apply IH]. }
  split; [| split].
  - unfold take_measure_clip; cbn [fst snd]. rewrite Hi. reflexivity.
  - unfold fs', put_item, item_at. rewrite Hl, lookup_assign_same.
    now apply nth_replace_nth with (x := VObj efs).
  - intros k. unfold stripped. rewrite !lookup_delete. unfold is_measure_clip.
    destruct (String.eqb k "clip"), (String.eqb k "measure"); reflexivity.
Qed.

Lemma overlay_entry_stripped_witness :
  take_measure_clip 0
    ([("type", VStr "overlay");
      ("overlays", VArr [VObj [("type", VStr "label"); ("measure", VBool true)]])],
     empty_world)
  = (Ok (VObj [("type", VStr "label"); ("measure", VBool true)]),
     ([("type", VStr "overlay"); ("overlays", VArr [VObj [("type", VStr "label")]])],
      empty_world)).
Proof.
  exact (proj1 (@overlay_entry_stripped 0
                  [("type", VStr "overlay");
                   ("overlays",
                    VArr [VObj [("type", VStr "label"); ("measure", VBool true)]])]
                  [("type", VStr "label"); ("measure", VBool true)]
                  [VObj [("type", VStr "label"); ("measure", VBool true)]]
                  empty_world eq_refl eq_refl)).
Defined.

(** ** Custom properties *)

Lemma apply_property_Ok (w w1 : gtk) (entry : jsval) (W W1 : world) :
  apply_property w entry W = (Ok w1, W1) ->
  W1 = W /\ exists name v, underscored name = true /\ w1 = set_attr name v w.
Proof.
  unfold apply_property. intros E.
  apply bind_Ok in E as [kv [Wa [Hd E]]].
  assert (Wa = W) as ->.
  { destruct entry; simpl in Hd; try destruct (ascii_only _);
      unfold ret, throw, beyond in Hd; congruence. }
  unfold template in E. cbn [concat_plain plain_text] in E.
  destruct (plain_text (item 0 kv)) as [b |]; simpl in E; [| discriminate].
  unfold ret in E. inversion E; subst. split; [reflexivity |].
  now exists (String "_" (b ++ "")%string), (item 1 kv).
Qed.

Lemma gattrs_set_attr_other (a name : string) (v : jsval) (w : gtk) :
  String.eqb a name = false ->
  lookup a (gattrs (set_attr name v w)) = lookup a (gattrs w).
Proof. destruct w; simpl. apply lookup_assign_other. Qed.

Lemma underscored_differs (a name : string) :
  underscored a = false -> underscored name = true -> String.eqb a name = false.
Proof.
  intros Ha Hn. destruct (String.eqb_spec a name) as [-> | _]; [congruence | reflexivity].
Qed.

(** X7. The pairs of [properties] are stored under their key with an
    underscore in front, so they never overwrite anything the engine or the
    toolkit keeps under another name: after all pairs are applied, every
    attribute whose name does not start with an underscore is what it was,
    and so are the classes, signals and controllers; nothing is reported and
    no function is called.  A pair [[k, v]] with a string key sets [_k] to
    [v]. *)
Theorem custom_properties_prefixed (w w' : gtk) (entries : list jsval) (W W' : world) :
  foldM apply_property w entries W = (Ok w', W') ->
  W' = W
  /\ (forall a, underscored a = false -> lookup a (gattrs w') = lookup a (gattrs w))
  /\ gcss w' = gcss w /\ gsignals w' = gsignals w /\ gctrls w' = gctrls w
  /\ (forall k v,
        apply_property w (VArr [VStr k; v]) W
        = (Ok (set_attr (String "_" k) v w), W)
        /\ lookup (String "_" k) (gattrs (set_attr (String "_" k) v w)) = v).
Proof.
  intros E.
  assert (Hmain : W' = W
    /\ (forall a, underscored a = false -> lookup a (gattrs w') = lookup a (gattrs w))
    /\ gcss w' = gcss w /\ gsignals w' = gsignals w /\ gctrls w' = gctrls w).
  { revert w W E. induction entries as [| e r IH]; intros w W E; simpl in E.
    - unfold ret in E. inversion E; subst. repeat split; reflexivity.
    - apply bind_Ok in E as [w1 [W1 [H1 E]]].
      apply apply_property_Ok in H1 as [-> [name [v [Hu ->]]]].
      destruct (IH _ _ E) as [HW [Ha [Hc [Hs Hg]]]].
      split; [exact HW | split; [| split; [| split]]].
      + intros a Hna. rewrite (Ha a Hna).
        apply gattrs_set_attr_other. now apply underscored_differs.
      + rewrite Hc. destruct w; reflexivity.
      + rewrite Hs. destruct w; reflexivity.
      + rewrite Hg. destruct w; reflexivity. }
  destruct Hmain as [HW [Ha [Hc [Hs Hg]]]].
  repeat (split; [assumption |]).
  intros k v. split.
  - unfold apply_property, destructure, bind, ret, template. cbn [item nth].
    cbn [concat_plain plain_text]. simpl. now rewrite append_empty_r.
  - destruct w; simpl. apply lookup_assign_same.
Qed.

Lemma custom_properties_prefixed_witness :
  lookup "visible"
    (gattrs (set_attr "_visible" (VNum 3%float)
               (set_attr "visible" (VBool true) (new_gtk "Gtk.Label" []))))
  = VBool true.
Proof.
  exact (proj1 (proj2 (@custom_properties_prefixed
                         (set_attr "visible" (VBool true) (new_gtk "Gtk.Label" []))
                         (set_attr "_visible" (VNum 3%float)
                            (set_attr "visible" (VBool true) (new_gtk "Gtk.Label" [])))
                         [VArr [VStr "visible"; VNum 3%float]]
                         empty_world empty_world eq_refl))
           "visible" eq_refl).
Defined.

(** ** Enum tokens *)

(** X8. [halign] and [valign], for a string of ASCII characters: a token
    the toolkit knows sets the attribute to the member and reports nothing.
    An unknown token is turned into [undefined] by the lookup; when the
    toolkit throws on it, the catch reports the warning once and the
    attribute is left as it was; when the toolkit does not throw, nothing
    is reported and the attribute is overwritten with [undefined].  A value
    that is not a string is skipped.  In no case does an exception leave
    the step. *)
Theorem apply_align_cases (H : host) (attr msg s u : string) (w : gtk) (W : world) :
  toUpperCase s = Some u ->
  (forall x, enum_member H "Gtk.Align" (VStr u) = VNum x ->
     apply_align H attr (VStr s) msg w W = (Ok (set_attr attr (VNum x) w), W))
  /\ (enum_member H "Gtk.Align" (VStr u) = VUndefined ->
      enum_strict H = true ->
      apply_align H attr (VStr s) msg w W
      = (Ok w, MkWorld (diags W ++ [DWarning (VStr msg)]) (calls W)))
  /\ (enum_member H "Gtk.Align" (VStr u) = VUndefined ->
      enum_strict H = false ->
      apply_align H attr (VStr s) msg w W = (Ok (set_attr attr VUndefined w), W))
  /\ (forall v, is_string v = false -> apply_align H attr v msg w W = (Ok w, W)).
Proof.
  intros Hup. split; [| split; [| split]].
  - intros x Hx. unfold apply_align, try_catch, bind, upper_of, ret; cbn [is_string].
    rewrite Hup, Hx. reflexivity.
  - intros Hu Hs. unfold apply_align, try_catch, bind, upper_of, ret; cbn [is_string].
    rewrite Hup, Hu. unfold as_enum. rewrite Hs. reflexivity.
  - intros Hu Hs. unfold apply_align, try_catch, bind, upper_of, ret; cbn [is_string].
    rewrite Hup, Hu. unfold as_enum. rewrite Hs. reflexivity.
  - intros v Hv. unfold apply_align. rewrite Hv. reflexivity.
Qed.

Lemma apply_align_cases_witness :
  apply_align (example_host true) "halign" (VStr "Bogus") "wrong halign value"
    (new_gtk "Gtk.Label" []) empty_world
  = (Ok (new_gtk "Gtk.Label" []),
     MkWorld [DWarning (VStr "wrong halign value")] []).
Proof.
  exact (proj1 (proj2 (@apply_align_cases (example_host true) "halign"
                         "wrong halign value" "Bogus" "BOGUS"
                         (new_gtk "Gtk.Label" []) empty_world eq_refl))
           eq_refl eq_refl).
Defined.

(** X9. [_orientation]: the letters [v] and [h] stand for [vertical] and
    [horizontal]; a string of ASCII characters is looked up in upper case
    and the result of the lookup is returned as it is, so an unknown token
    gives [undefined] and no warning; the warning and the fallback to
    [HORIZONTAL] are reached only for a value that has no [toUpperCase],
    such as a number, a boolean, [null] or an array. *)
Theorem orientation_cases (H : host) (W : world) :
  _orientation H (VStr "v") W = _orientation H (VStr "vertical") W
  /\ _orientation H (VStr "h") W = _orientation H (VStr "horizontal") W
  /\ (forall s u, s <> "v" -> s <> "h" -> toUpperCase s = Some u ->
        _orientation H (VStr s) W
        = (Ok (enum_member H "Gtk.Orientation" (VStr u)), W))
  /\ (forall v,
        match v with
        | VNum _ | VBool _ | VNull | VUndefined | VArr _ | VWidget _ => True
        | _ => False
        end ->
        _orientation H v W
        = (Ok (enum_member H "Gtk.Orientation" (VStr "HORIZONTAL")),
           MkWorld (diags W ++ [DWarning (VStr "wrong orientation value")]) (calls W))).
Proof.
  split; [reflexivity | split; [reflexivity | split]].
  - intros s u Hv Hh Hup. unfold _orientation, str_is.
    destruct (String.eqb_spec s "v"); [contradiction |].
    destruct (String.eqb_spec s "h"); [contradiction |].
    unfold try_catch, bind, upper_of, ret. rewrite Hup. reflexivity.
  - intros v Hv. destruct v; try contradiction; reflexivity.
Qed.

Lemma bind_always_ok {S B} (m : St S unit) (k : unit -> St S B) (s : S) :
  always_ok m -> bind m k s = k tt (snd (m s)).
Proof.
  intros Hm. unfold bind. specialize (Hm s). destruct (m s) as [o s1]; simpl in *.
  now subst o.
Qed.

Lemma emit_diag_ok d : always_ok (emit_diag d).
Proof. intros s; reflexivity. Qed.

Lemma typecheck_ok name value expected context :
  always_ok (typecheck name value expected context).
Proof. unfold typecheck, when. destruct (negb _); [apply emit_diag_ok | now intros s]. Qed.

Lemma restcheck_ok rest context : always_ok (restcheck rest context).
Proof.
  unfold restcheck. induction rest as [| kv r IH]; intros s; simpl; [reflexivity |].
  rewrite bind_always_ok by apply emit_diag_ok. apply IH.
Qed.

Lemma lift_ok (m : M unit) : always_ok m -> always_ok (lift m).
Proof.
  intros Hm [fs W]. unfold lift; simpl. specialize (Hm W). now destruct (m W).
Qed.

Lemma check_ok name value expected context :
  always_ok (check name value expected context).
Proof. apply lift_ok, typecheck_ok. Qed.

Lemma set_enum_attr_caught (H : host) (attr E s u : string) (parent : gtk) (W : world) :
  enum_strict H = true ->
  toUpperCase s = Some u ->
  enum_member H E (VStr u) = VUndefined ->
  set_enum_attr H attr E (VStr s) parent call_caught_error W
  = (Throw "TypeError: error is not a function", W).
Proof.
  intros Hs Hup Hu. unfold set_enum_attr, try_catch, bind, upper_of, ret.
  rewrite Hup, Hu. unfold as_enum. rewrite Hs. reflexivity.
Qed.

Lemma bind_lift_throw {A B} (m : M A) (k : A -> F B) (e : string) (fs : fields)
    (W : world) :
  fst (m W) = Throw e -> fst (bind (lift m) k (fs, W)) = Throw e.
Proof.
  intros Hm. unfold bind, lift; simpl. destruct (m W) as [o W1]; simpl in *. now subst o.
Qed.

(** X10. In [Stack], [Revealer] and [Scrollable] the catch block reads
    [catch (error) { error(...) }]: the name it calls is the exception it
    has just caught.  So when the toolkit throws on an unknown transition
    or scroll policy (a string of ASCII characters that is no member of the
    enumeration), what leaves the constructor is a TypeError from the catch
    block itself, where [Label] under the same conditions reports a warning
    and goes on. *)
Theorem caught_error_is_not_a_function (H : host) (build : builder) (props : fields)
    (s u : string) (st : frame) :
  enum_strict H = true ->
  toUpperCase s = Some u ->
  (lookup "transition" props = VStr s ->
   enum_member H "Gtk.RevealerTransitionType" (VStr u) = VUndefined ->
   fst (Revealer H build props st) = Throw "TypeError: error is not a function")
  /\ (lookup "transition" props = VStr s ->
      enum_member H "Gtk.StackTransitionType" (VStr u) = VUndefined ->
      fst (Stack H build props st) = Throw "TypeError: error is not a function")
  /\ (forall s' u',
        lookup "hscroll" props = VStr s -> lookup "vscroll" props = VStr s' ->
        toUpperCase s' = Some u' ->
        enum_member H "Gtk.PolicyType" (VStr u) = VUndefined ->
        fst (Scrollable H build props st) = Throw "TypeError: error is not a function")
  /\ (forall lbl W,
        enum_member H "Gtk.Justification" (VStr u) = VUndefined ->
        set_enum_attr H "justify" "Gtk.Justification" (VStr s) lbl
          (warning (VStr "wrong justify value") ;;; ret lbl) W
        = (Ok lbl, MkWorld (diags W ++ [DWarning (VStr "wrong justify value")])
                           (calls W))).
Proof.
  intros Hs Hup. split; [| split; [| split]].
  - intros Ht Hu. unfold Revealer; cbv zeta. rewrite Ht. cbn [dflt].
    rewrite !bind_always_ok by first [apply check_ok | apply lift_ok, restcheck_ok].
    destruct st as [fs W].
    match goal with |- context [bind (lift ?m) ?k ?x] => destruct x as [fs1 W1] end.
    apply bind_lift_throw. now rewrite (@set_enum_attr_caught H _ _ s u _ _ Hs Hup Hu).
  - intros Ht Hu. unfold Stack; cbv zeta. rewrite Ht. cbn [dflt].
    rewrite !bind_always_ok by first [apply check_ok | apply lift_ok, restcheck_ok].
    match goal with |- context [bind (lift ?m) ?k ?x] => destruct x as [fs1 W1] end.
    apply bind_lift_throw. now rewrite (@set_enum_attr_caught H _ _ s u _ _ Hs Hup Hu).
  - intros s' u' Ht Hv Hup' Hu. unfold Scrollable; cbv zeta. rewrite Ht, Hv. cbn [dflt].
    rewrite !bind_always_ok by first [apply check_ok | apply lift_ok, restcheck_ok].
    match goal with |- context [bind (lift ?m) ?k ?x] => destruct x as [fs1 W1] end.
    apply bind_lift_throw.
    unfold try_catch, bind, upper_of, ret. rewrite Hup, Hup', Hu.
    unfold as_enum. rewrite Hs. reflexivity.
  - intros lbl W Hu. unfold set_enum_attr, try_catch, bind, upper_of, ret.
    rewrite Hup, Hu. unfold as_enum. rewrite Hs. reflexivity.
Qed.

Lemma caught_error_is_not_a_function_witness :
  fst (Revealer (example_host true) (Widget (example_host true))
         [("type", VStr "revealer"); ("transition", VStr "bogus")]
         ([("type", VStr "revealer"); ("transition", VStr "bogus")], empty_world))
  = Throw "TypeError: error is not a function".
Proof.
  exact (proj1 (@caught_error_is_not_a_function (example_host true)
                  (Widget (example_host true))
                  [("type", VStr "revealer"); ("transition", VStr "bogus")]
                  "bogus" "BOGUS"
                  ([("type", VStr "revealer"); ("transition", VStr "bogus")], empty_world)
                  eq_refl eq_refl)
           eq_refl eq_refl).
Defined.

(** ** Margins and anchors of a surface *)

(** X11. A scalar margin goes through the truthiness test first: a non-zero
    number does what the one-element array does, while [0] and [NaN] make
    no [set_margin] call at all, unlike [[0]], which sets the four edges
    to [0]. *)
Theorem scalar_margin (H : host) (x : float) (win : gtk) (W : world) :
  apply_margin H (VNum x) win W
  = (if truthy (VNum x) then apply_margin H (VArr [VNum x]) win W else (Ok win, W))
  /\ apply_margin H (VNum 0%float) win W = (Ok win, W)
  /\ apply_margin H (VNum nan) win W = (Ok win, W)
  /\ (edges_usable H = true ->
      apply_margin H (VArr [VNum 0%float]) win W
      = (Ok (set_margins H [("TOP", VNum 0%float); ("RIGHT", VNum 0%float);
                            ("BOTTOM", VNum 0%float); ("LEFT", VNum 0%float)] win), W)).
Proof.
  split; [| split; [| split]]; try reflexivity.
  - unfold apply_margin at 1. destruct (truthy (VNum x)) eqn:E; reflexivity.
  - intros Hu. rewrite apply_margin_array by exact Hu. reflexivity.
Qed.

Lemma ascii_only_trim_start (s : string) :
  ascii_only s = true -> ascii_only (trim_start s) = true.
Proof.
  induction s as [| a r IH]; cbn [trim_start]; [reflexivity |].
  intros Hs. destruct (is_space a); [| exact Hs].
  cbn [ascii_only] in Hs. apply andb_true_iff in Hs. now apply IH.
Qed.

Lemma ascii_only_trim_end (s : string) :
  ascii_only s = true -> ascii_only (trim_end s) = true.
Proof.
  induction s as [| a r IH]; cbn [trim_end ascii_only]; [reflexivity |].
  intros Hs. apply andb_true_iff in Hs as [Ha Hr]. specialize (IH Hr).
  destruct (trim_end r); [destruct (is_space a) |]; cbn [ascii_only] in *;
    rewrite ?Ha, ?IH; reflexivity.
Qed.

Lemma ascii_only_split (c : ascii) (s : string) :
  ascii_only s = true -> forallb ascii_only (split c s) = true.
Proof.
  induction s as [| a r IH]; cbn [split ascii_only]; [reflexivity |].
  intros Hs. apply andb_true_iff in Hs as [Ha Hr]. specialize (IH Hr).
  destruct (Ascii.eqb a c); [exact IH |].
  destruct (split c r) as [| h t]; cbn [forallb ascii_only] in *.
  - now rewrite Ha.
  - apply andb_true_iff in IH as [Hh Ht]. now rewrite Ha, Hh, Ht.
Qed.

Lemma world_eta (W : world) : MkWorld (diags W ++ []) (calls W) = W.
Proof. destruct W; simpl. now rewrite app_nil_r. Qed.

(** One token of an anchor: a call of [set_anchor] when the toolkit takes
    it, the warning when it does not. *)
Lemma anchor_step (H : host) (win : gtk) (side : string) (W : world) :
  ascii_only side = true ->
  try_catch
    (u <- upper_of (VStr side) ;;
     e <- as_enum H (enum_member H "GtkLayerShell.Edge" u) ;;
     ret (invoke "set_anchor" (VArr [e; VBool true]) win))
    (warning (VStr "wrong anchor value") ;;; ret win) W
  = if anchor_taken H side
    then (Ok (invoke "set_anchor" (VArr [edge H (upper_chars side); VBool true]) win), W)
    else (Ok win, MkWorld (diags W ++ [DWarning (VStr "wrong anchor value")]) (calls W)).
Proof.
  intros Hs. unfold try_catch, bind, upper_of, toUpperCase, ret, as_enum, anchor_taken, edge.
  rewrite Hs.
  destruct (enum_member H "GtkLayerShell.Edge" (VStr (upper_chars side)));
    cbn [is_undefined]; rewrite ?andb_false_r; try reflexivity.
  destruct (enum_strict H); reflexivity.
Qed.

Lemma anchor_fold (H : host) (tokens : list string) :
  forallb ascii_only tokens = true ->
  forall win W,
    foldM (fun win side =>
             try_catch
               (u <- upper_of (VStr side) ;;
                e <- as_enum H (enum_member H "GtkLayerShell.Edge" u) ;;
                ret (invoke "set_anchor" (VArr [e; VBool true]) win))
               (warning (VStr "wrong anchor value") ;;; ret win))
          win tokens W
    = (Ok (set_anchors H (filter (anchor_taken H) tokens) win),
       MkWorld (diags W
                ++ map (fun _ => DWarning (VStr "wrong anchor value"))
                       (filter (fun side => negb (anchor_taken H side)) tokens))
               (calls W)).
Proof.
  unfold set_anchors.
  induction tokens as [| t r IH]; intros Ha win W; cbn [foldM filter map fold_left].
  - unfold ret. now rewrite world_eta.
  - cbn [forallb] in Ha. apply andb_true_iff in Ha as [Ht Hr].
    unfold bind at 1. rewrite anchor_step by exact Ht.
    destruct (anchor_taken H t); cbn [negb filter]; rewrite IH by exact Hr;
      cbn [fold_left map diags calls].
    + reflexivity.
    + now rewrite <- app_assoc.
Qed.

(** X12. For an [anchor] of ASCII characters the anchor step never throws
    and calls no function of the caller: each space-separated token of the
    trimmed string is tried on its own and ends in exactly one [set_anchor]
    call, with the edge its upper case names, when the toolkit takes it,
    and in exactly one [wrong anchor value] warning when it does not; the
    calls and the warnings come in the order of the tokens.  The empty
    string is skipped altogether. *)
Theorem anchor_tokens (H : host) (a t : string) (win : gtk) (W : world) :
  trim a = Some t ->
  apply_anchor H (VStr "") win W = (Ok win, W)
  /\ (a <> "" ->
      apply_anchor H (VStr a) win W
      = (Ok (set_anchors H (filter (anchor_taken H) (split " " t)) win),
         MkWorld (diags W
                  ++ map (fun _ => DWarning (VStr "wrong anchor value"))
                         (filter (fun side => negb (anchor_taken H side))
                                 (split " " t)))
                 (calls W))).
Proof.
  intros Ht. split; [reflexivity |].
  intros Ha. unfold apply_anchor. cbn [truthy].
  destruct (String.eqb_spec a "") as [E | _]; [contradiction |]. cbn [negb].
  rewrite Ht. apply anchor_fold.
  unfold trim in Ht. destruct (ascii_only a) eqn:Hasc; [| discriminate].
  injection Ht as <-.
  now apply ascii_only_split, ascii_only_trim_end, ascii_only_trim_start.
Qed.

Lemma anchor_tokens_witness :
  apply_anchor (example_host true) (VStr " top  bogus left") (new_gtk "Gtk.Window" [])
    empty_world
  = (Ok (set_anchors (example_host true) ["top"; "left"] (new_gtk "Gtk.Window" [])),
     MkWorld [DWarning (VStr "wrong anchor value"); DWarning (VStr "wrong anchor value")]
             []).
Proof.
  apply (proj2 (@anchor_tokens (example_host true) " top  bogus left" "top  bogus left"
                  (new_gtk "Gtk.Window" []) empty_world eq_refl)).
  discriminate.
Defined.

(** ** Slots that do not hold a function *)

(** X13. A slot is wired when its value is truthy, not when it is a
    function: a command string in [onFocusEnter] attaches the focus
    controller with an [enter] closure, and when the event fires the
    closure throws a TypeError, because [handleEvent] calls the value. *)
Theorem non_function_slot_throws (H : host) (w0 w : gtk) (ls : fields) (cb : jsval)
    (args : list jsval) (W : world) :
  lookup "onFocusEnter" ls = cb ->
  truthy cb = true ->
  is_function cb = false ->
  (exists c,
      controllers_of Focus (parseEventListeners w0 ls) = controllers_of Focus w0 ++ [c]
      /\ In ("enter", HEvent0 cb) (chandlers c))
  /\ run_handler H w (HEvent0 cb) args W = (Throw "TypeError: not a function", W)
  /\ handleEvent H cb args W = (Throw "TypeError: not a function", W).
Proof.
  intros Hl Ht Hf. split; [| split].
  - unfold parseEventListeners; cbv zeta.
    rewrite !controllers_of_step, !cfamily_wire, !cfamily_set_flags, Hl, Ht.
    cbn [cfamily family_eqb].
    rewrite ?andb_false_r, ?orb_true_r, ?app_nil_r. cbn [andb].
    eexists; split; [reflexivity |].
    rewrite !chandlers_wire, Ht. cbn [chandlers app].
    simpl; auto.
  - cbn [run_handler]. unfold handleEvent, bind, call.
    destruct cb; try discriminate; reflexivity.
  - unfold handleEvent, bind, call. destruct cb; try discriminate; reflexivity.
Qed.

Lemma non_function_slot_throws_witness :
  run_handler (example_host true) (new_gtk "Gtk.Box" []) (HEvent0 (VStr "notify-send hi"))
    [] empty_world
  = (Throw "TypeError: not a function", empty_world).
Proof.
  exact (proj1 (proj2 (@non_function_slot_throws (example_host true)
                         (new_gtk "Gtk.Box" []) (new_gtk "Gtk.Box" [])
                         [("onFocusEnter", VStr "notify-send hi")]
                         (VStr "notify-send hi") [] empty_world
                         eq_refl eq_refl eq_refl))).
Defined.

(** ** The controllers of the registry's objects *)

Lemma set_child_of_ctrls (build : builder) (child : jsval) (parent : gtk) :
  post (set_child_of build child parent) (fun p => gctrls p = gctrls parent).
Proof.
  unfold set_child_of. destruct (truthy child); [| now apply post_ret].
  eapply post_bind; [apply post_any | intros c _].
  apply post_ret, gctrls_invoke.
Qed.

Lemma set_enum_attr_ctrls (H : host) (attr E : string) (v : jsval) (parent : gtk)
    (h : M gtk) :
  post h (fun p => gctrls p = gctrls parent) ->
  post (set_enum_attr H attr E v parent h) (fun p => gctrls p = gctrls parent).
Proof.
  intros Hh. unfold set_enum_attr. apply post_try_catch; [| exact Hh].
  eapply post_bind; [apply post_any | intros u _].
  eapply post_bind; [apply post_any | intros a _].
  apply post_ret, gctrls_set_attr.
Qed.

Lemma append_children_ctrls (build : builder) (g : list controller) (items : list jsval) :
  forall i box, gctrls box = g ->
    post (append_children build i items box) (fun b => gctrls b = g).
Proof.
  induction items as [| x r IH]; intros i box Hg; cbn [append_children].
  - now apply post_ret.
  - eapply post_bind; [apply post_any | intros c _].
    apply IH. now rewrite gctrls_invoke.
Qed.

Lemma add_items_ctrls (build : builder) (g : list controller)
    (items : list jsval) :
  forall i stack, gctrls stack = g ->
    post (add_items build i items stack) (fun b => gctrls b = g).
Proof.
  induction items as [| x r IH]; intros i stack Hg; cbn [add_items].
  - now apply post_ret.
  - eapply post_bind; [apply post_any | intros nw _].
    eapply post_bind with (P := fun b => gctrls b = g).
    + destruct (truthy (item 1 nw)); [| now apply post_ret].
      eapply post_bind; [apply post_any | intros c _].
      apply post_ret. now rewrite !gctrls_invoke.
    + intros b Hb. now apply IH.
Qed.

Lemma add_overlays_ctrls (build : builder) (g : list controller) (items : list jsval) :
  forall i overlay, gctrls overlay = g ->
    post (add_overlays build i items overlay) (fun b => gctrls b = g).
Proof.
  induction items as [| x r IH]; intros i overlay Hg; cbn [add_overlays].
  - now apply post_ret.
  - eapply post_bind; [apply post_any | intros w _]. cbv zeta.
    eapply post_bind; [apply post_any | intros c _].
    apply IH.
    destruct (is_boolean (entry_prop "measure" w)), (is_boolean (entry_prop "clip" w));
      now rewrite ?gctrls_invoke.
Qed.

Ltac skip_checks :=
  repeat (eapply post_bind; [apply post_any | intros _ _]).

Ltac bare :=
  apply post_ret; eexists; split; [reflexivity |];
  rewrite ?gctrls_set_attr, ?gctrls_connect; try reflexivity; try assumption;
  try (simpl in *; congruence).

Lemma Box_ctrls (H : host) (build : builder) (props : fields) :
  post (Box H build props) bare_object.
Proof.
  unfold Box; cbv zeta. skip_checks.
  eapply post_bind; [apply post_any | intros o _].
  eapply post_bind; [apply post_any | intros o' _].
  eapply post_bind; [apply post_any | intros items _].
  eapply post_bind; [apply append_children_ctrls; reflexivity | intros b Hb].
  bare.
Qed.

Lemma CenterBox_ctrls (H : host) (build : builder) (props : fields) :
  post (CenterBox H build props) bare_object.
Proof.
  unfold CenterBox; cbv zeta. skip_checks.
  eapply post_bind; [apply post_any | intros o _].
  eapply post_bind; [apply post_any | intros s _].
  eapply post_bind; [apply post_any | intros c _].
  eapply post_bind; [apply post_any | intros e _].
  eapply post_bind; [apply post_any | intros o' _].
  bare.
Qed.

Lemma Icon_ctrls (props : fields) : post (Icon props) bare_object.
Proof. unfold Icon; cbv zeta. skip_checks. bare. Qed.

Lemma Label_ctrls (H : host) (props : fields) : post (Label H props) bare_object.
Proof.
  unfold Label; cbv zeta. skip_checks.
  eapply post_bind.
  - apply post_lift, set_enum_attr_ctrls.
    eapply post_bind; [apply post_any | intros _ _]. now apply post_ret.
  - intros lbl Hl. bare.
Qed.

Lemma Button_ctrls (build : builder) (props : fields) :
  post (Button build props) bare_object.
Proof.
  unfold Button; cbv zeta. skip_checks.
  eapply post_bind; [apply set_child_of_ctrls | intros b Hb].
  bare.
Qed.

Lemma Stack_ctrls (H : host) (build : builder) (props : fields) :
  post (Stack H build props) bare_object.
Proof.
  unfold Stack; cbv zeta. skip_checks.
  eapply post_bind.
  { apply post_lift, set_enum_attr_ctrls. apply post_throw. }
  intros st Hst.
  eapply post_bind; [apply post_any | intros its _].
  eapply post_bind; [apply add_items_ctrls; exact Hst | intros b Hb].
  bare.
Qed.

Lemma Entry_ctrls (props : fields) : post (Entry props) bare_object.
Proof.
  unfold Entry; cbv zeta. skip_checks.
  destruct (truthy (dflt (lookup "onChange" props) (VStr ""))),
    (truthy (dflt (lookup "onAccept" props) (VStr ""))); bare.
Qed.

Lemma Scrollable_ctrls (H : host) (build : builder) (props : fields) :
  post (Scrollable H build props) bare_object.
Proof.
  unfold Scrollable; cbv zeta. skip_checks.
  eapply post_bind with (P := fun b => gctrls b = []).
  { apply post_lift, post_try_catch; [| apply post_throw].
    eapply post_bind; [apply post_any | intros hu _].
    eapply post_bind; [apply post_any | intros vu _].
    eapply post_bind; [apply post_any | intros h _].
    eapply post_bind; [apply post_any | intros v _].
    apply post_ret. now rewrite !gctrls_set_attr. }
  intros sc Hsc.
  eapply post_bind; [apply set_child_of_ctrls | intros b Hb].
  bare.
Qed.

Lemma Revealer_ctrls (H : host) (build : builder) (props : fields) :
  post (Revealer H build props) bare_object.
Proof.
  unfold Revealer; cbv zeta. skip_checks.
  eapply post_bind.
  { apply post_lift, set_enum_attr_ctrls. apply post_throw. }
  intros rv Hrv.
  eapply post_bind; [apply set_child_of_ctrls | intros b Hb].
  bare.
Qed.

Lemma Overlay_ctrls (build : builder) (props : fields) :
  post (Overlay build props) bare_object.
Proof.
  unfold Overlay; cbv zeta. skip_checks.
  eapply post_bind; [apply set_child_of_ctrls | intros ov Hov].
  eapply post_bind; [apply post_any | intros items _].
  eapply post_bind; [apply add_overlays_ctrls; exact Hov | intros b Hb].
  bare.
Qed.

Lemma Switch_ctrls (props : fields) : post (Switch props) bare_object.
Proof.
  unfold Switch; cbv zeta. skip_checks.
  destruct (truthy (dflt (lookup "onActivate" props) (VStr ""))); bare.
Qed.

(** Every constructor of the registry but [Slider] hands back an object
    without controllers; an inherited key hands back no object at all. *)
Lemma widgets_call_ctrls (H : host) (build : builder) (t : string) (props : fields) :
  String.eqb t "slider" = false ->
  post (widgets_call H build t props)
       (fun v => v <> VNull /\ forall w, v = VWidget w -> gctrls w = []).
Proof.
  intros Hs.
  assert (Hw : forall m : F jsval, post m bare_object ->
                 post m (fun v => v <> VNull /\ forall w, v = VWidget w -> gctrls w = [])).
  { intros m Hm s a s' E. destruct (Hm s a s' E) as [w [-> Hg]].
    split; [discriminate | intros w' E'; inversion E'; subst; exact Hg]. }
  unfold widgets_call, widgets; cbn [own].
  repeat match goal with
         | |- context [String.eqb t ?k] =>
             lazymatch k with
             | "slider" => rewrite Hs
             | _ => destruct (String.eqb t k)
             end
         end;
    cbn [orb];
    try apply post_throw; try apply post_beyond;
    try (apply post_ret; split; [discriminate | intros w E; discriminate]);
    apply Hw;
    auto using Box_ctrls, CenterBox_ctrls, Icon_ctrls, Label_ctrls, Button_ctrls,
      Stack_ctrls, Entry_ctrls, Scrollable_ctrls, Revealer_ctrls, Overlay_ctrls,
      Switch_ctrls.
Qed.

Lemma parseParams_ctrls (H : host) (w : gtk) (ps : fields) :
  post (parseParams H w ps) (fun w' => gctrls w' = gctrls w).
Proof.
  unfold parseParams.
  eapply post_bind; [apply post_any | intros ty _].
  eapply post_bind; [apply post_any | intros _ _].
  eapply post_bind; [apply configure_ctrls | intros w1 H1]. cbv zeta.
  destruct (is_function (lookup "setup" ps)); [| now apply post_ret].
  eapply post_bind; [apply post_any | intros _ _]. now apply post_ret.
Qed.

Lemma populated_pick (f : family) (fs : fields) :
  populated f (pick listener_slots fs) = populated f fs.
Proof. destruct f; reflexivity. Qed.

(** One pass over an object without controllers leaves it with one
    controller for each populated family. *)
Lemma bare_controllers (f : family) (w : gtk) (ls : fields) :
  gctrls w = [] ->
  List.length (controllers_of f (parseEventListeners w ls))
    = if populated f ls then 1 else 0.
Proof.
  intros Hg. unfold parseEventListeners; cbv zeta.
  rewrite !controllers_of_step, !cfamily_wire, !cfamily_set_flags, <- !app_assoc.
  unfold controllers_of at 1. rewrite Hg. cbn [filter app].
  rewrite !length_app, !length_if_singleton.
  unfold populated, slots_of.
  destruct f; cbn [cfamily family_eqb existsb andb];
    rewrite ?andb_false_r, ?andb_true_r, ?orb_false_r; cbn [Nat.add].
  - destruct (truthy (lookup "onFocusLeave" ls)), (truthy (lookup "onFocusEnter" ls));
      reflexivity.
  - destruct (truthy (lookup "onKeyReleased" ls)), (truthy (lookup "onKeyPressed" ls));
      reflexivity.
  - destruct (truthy (lookup "onMotion" ls)), (truthy (lookup "onHoverLeave" ls)),
      (truthy (lookup "onHoverEnter" ls)); reflexivity.
  - destruct (truthy (lookup "onScroll" ls)), (truthy (lookup "onScrollUp" ls)),
      (truthy (lookup "onScrollDown" ls)); reflexivity.
  - destruct (truthy (lookup "onButtonPressed" ls)),
      (truthy (lookup "onButtonReleased" ls)); reflexivity.
Qed.

Lemma finish_ctrls (H : host) (v : jsval) (fs : fields) :
  (forall w, v = VWidget w -> gctrls w = []) ->
  post (finish H v fs)
       (fun r => exists w, r = VWidget w
                  /\ forall f, List.length (controllers_of f w)
                               = if populated f fs then 1 else 0).
Proof.
  intros Hv. unfold finish.
  eapply post_bind with (P := fun r => exists w, r = VWidget w /\ gctrls w = []).
  - destruct v;
      try (cbn [parseParams_on];
           eapply post_bind; [apply post_any | intros ty _];
           eapply post_bind; [apply post_any | intros _ _];
           first [apply post_throw | apply post_beyond]).
    cbn [parseParams_on].
    eapply post_bind; [apply parseParams_ctrls | intros w' Hw'].
    apply post_ret. exists w'. split; [reflexivity |].
    rewrite Hw'. now apply Hv.
  - intros r [w [-> Hg]]. cbn [parseEventListeners_on].
    apply post_ret. eexists; split; [reflexivity |].
    intros f. rewrite bare_controllers by exact Hg. now rewrite populated_pick.
Qed.

Lemma structured_ctrls (H : host) (build : builder) (fs : fields) (t : string) :
  lookup "type" fs = VStr t ->
  in_widgets H t = true ->
  String.eqb t "slider" = false ->
  post (structured H build fs)
       (fun r => exists w, r = VWidget w
                  /\ forall f, List.length (controllers_of f w)
                               = if populated f fs then 1 else 0).
Proof.
  intros Ht Hin Hs. unfold structured; cbv zeta. rewrite Ht, Hin. cbn [is_function].
  eapply post_bind; [apply post_any | intros _ _].
  eapply post_bind; [apply widgets_call_ctrls; exact Hs | intros v [Hn Hv]].
  destruct v; try (now destruct Hn); apply post_lift, finish_ctrls; exact Hv.
Qed.

(** X14. For every type of the registry other than [slider], the object
    that [Widget] builds from a descriptor carries exactly one controller
    for each family that has a populated slot in the descriptor, and none
    for the other families: the constructors attach no controller of their
    own, and the property pass attaches none. *)
Theorem registry_controllers (H : host) (fs : fields) (t : string) (W : world) (w : gtk) :
  lookup "type" fs = VStr t ->
  in_widgets H t = true ->
  String.eqb t "slider" = false ->
  built (Widget H (VObj fs) W) = Some w ->
  forall f, List.length (controllers_of f w) = if populated f fs then 1 else 0.
Proof.
  intros Ht Hin Hs Hb f. unfold Widget in Hb. rewrite Widget_fuel_S in Hb.
  cbn [truthy negb is_string is_function] in Hb.
  unfold frame, fields in *.
  destruct (structured H (Widget_fuel H (S (depth (VObj fs)))) fs (fs, W))
    as [o [fs' W']] eqn:E.
  unfold built in Hb; cbn [fst] in Hb.
  destruct o as [r | | |]; try discriminate.
  destruct (@structured_ctrls H _ fs t Ht Hin Hs _ _ _ E) as [w0 [-> Hw0]].
  inversion Hb; subst. apply Hw0.
Qed.

Lemma registry_controllers_witness :
  exists w,
    built (Widget (example_host true)
             (VObj [("type", VStr "button"); ("child", VStr "ok");
                    ("onFocusEnter", VFun 1); ("onFocusLeave", VFun 2);
                    ("onScroll", VFun 3)]) empty_world) = Some w
    /\ List.length (controllers_of Focus w) = 1
    /\ List.length (controllers_of Key w) = 0.
Proof.
  eexists. split; [vm_compute; reflexivity |].
  split;
    apply (@registry_controllers (example_host true)
             [("type", VStr "button"); ("child", VStr "ok");
              ("onFocusEnter", VFun 1); ("onFocusLeave", VFun 2);
              ("onScroll", VFun 3)] "button" empty_world _
             eq_refl eq_refl eq_refl);
    vm_compute; reflexivity.
Defined.

(** ** Children of a box *)

Lemma build_string (H : host) (n : nat) (s : string) (W : world) :
  String.eqb s "" = false ->
  Widget_fuel H (S n) (VStr s) W = ((Ok (text_label (VStr s)), VStr s), W).
Proof.
  intros Hs. rewrite Widget_fuel_S. cbn [truthy]. rewrite Hs. reflexivity.
Qed.

Lemma append_children_strings (build : builder) (fs : fields) (W : world)
    (ss : list string) :
  (forall s W, String.eqb s "" = false ->
     build (VStr s) W = ((Ok (text_label (VStr s)), VStr s), W)) ->
  lookup "children" fs = VArr (map VStr ss) ->
  forallb (fun s => negb (String.eqb s "")) ss = true ->
  forall rest pre box, ss = pre ++ rest ->
    append_children build (List.length pre) (map VStr rest) box (fs, W)
    = (Ok (fold_left (fun b s => invoke "append" (text_label (VStr s)) b) rest box),
       (fs, W)).
Proof.
  intros Hb Hl Hne rest.
  induction rest as [| s r IH]; intros pre box E; cbn [append_children map fold_left].
  - reflexivity.
  - assert (Hi : item_at "children" (List.length pre) fs = VStr s).
    { unfold item_at. rewrite Hl, E, map_app, app_nth2; rewrite length_map; [| lia].
      now rewrite Nat.sub_diag. }
    assert (Hs : String.eqb s "" = false).
    { rewrite forallb_forall in Hne. specialize (Hne s).
      rewrite E in Hne. apply negb_true_iff, Hne, in_or_app. right; left; reflexivity. }
    unfold bind at 1. unfold build_item, build_at. cbn [fst snd].
    rewrite Hi, (Hb s W Hs).
    replace (put_item "children" (List.length pre) (VStr s) fs) with fs.
    + specialize (IH (pre ++ [s]) (invoke "append" (text_label (VStr s)) box)).
      rewrite length_app, Nat.add_1_r in IH. apply IH.
      now rewrite <- app_assoc.
    + rewrite <- Hi. symmetry. apply put_item_same.
Qed.

Lemma gcalls_set_attr k v w : gcalls (set_attr k v w) = gcalls w.
Proof. destruct w; reflexivity. Qed.

Lemma gclass_set_attr k v w : gclass (set_attr k v w) = gclass w.
Proof. destruct w; reflexivity. Qed.

Lemma gclass_invoke k v w : gclass (invoke k v w) = gclass w.
Proof. destruct w; reflexivity. Qed.

Lemma fold_append (f : string -> jsval) (ss : list string) :
  forall box,
    let box' := fold_left (fun b s => invoke "append" (f s) b) ss box in
    gcalls box' = gcalls box ++ map (fun s => ("append", f s)) ss
    /\ gclass box' = gclass box.
Proof.
  induction ss as [| s r IH]; intros box; cbn [fold_left map].
  - now rewrite app_nil_r.
  - destruct (IH (invoke "append" (f s) box)) as [Hc Hk]. cbv zeta in *.
    rewrite Hc, Hk, gclass_invoke. split; [| reflexivity].
    destruct box; simpl. now rewrite <- app_assoc.
Qed.

Lemma Box_strings (H : host) (build : builder) (fs : fields) (W : world)
    (ss : list string) (x : float) :
  (forall s W, String.eqb s "" = false ->
     build (VStr s) W = ((Ok (text_label (VStr s)), VStr s), W)) ->
  enum_member H "Gtk.Orientation" (VStr "HORIZONTAL") = VNum x ->
  forallb (fun s => negb (String.eqb s "")) ss = true ->
  lookup "children" fs = VArr (map VStr ss) ->
  Box H build [("type", VStr "box"); ("children", VArr (map VStr ss))] (fs, W)
  = (Ok (VWidget
           (set_attr "removeChildren" (VHelper "removeChildren")
              (fold_left (fun b s => invoke "append" (text_label (VStr s)) b) ss
                 (new_gtk "Gtk.Box"
                    [("orientation", VNum x); ("homogeneous", VBool false)])))),
     (fs, W)).
Proof.
  intros Hb Hx Hne Hl. unfold Box; cbv zeta.
  cbn -[append_children enum_member].
  assert (Ho : _orientation H (VStr "horizontal") W = (Ok (VNum x), W))
    by (rewrite <- Hx; reflexivity).
  unfold bind, lift, as_enum, ret. cbn [fst snd]. rewrite Ho.
  rewrite (@append_children_strings build fs W ss Hb Hl Hne ss [] _ eq_refl).
  reflexivity.
Qed.

(** X15. A box whose children are non-empty strings: [Widget] builds a
    [Gtk.Box] to which one text label per string has been appended, in the
    order of the array, and nothing else has been called on it; no
    diagnostic is emitted and the descriptor is left as it was. *)
Theorem Box_children_in_order (H : host) (ss : list string) (x : float) (W : world) :
  enum_member H "Gtk.Orientation" (VStr "HORIZONTAL") = VNum x ->
  forallb (fun s => negb (String.eqb s "")) ss = true ->
  let d := VObj [("type", VStr "box"); ("children", VArr (map VStr ss))] in
  exists w,
    Widget H d W = ((Ok (VWidget w), d), W)
    /\ gclass w = "Gtk.Box"
    /\ gcalls w = map (fun s => ("append", text_label (VStr s))) ss.
Proof.
  intros Hx Hne d. unfold Widget. rewrite Widget_fuel_S.
  cbn [d truthy negb is_string is_function].
  generalize (depth d) as n. intros n.
  unfold structured. cbv zeta.
  cbn [lookup String.eqb Ascii.eqb Bool.eqb is_function].
  change (in_widgets H "box") with true. cbv iota.
  change (delete_all (param_keys ++ listener_slots)
            [("type", VStr "box"); ("children", VArr (map VStr ss))])
    with [("children", VArr (map VStr ss))].
  change (widgets_call H (Widget_fuel H (S n)) "box")
    with (Box H (Widget_fuel H (S n))).
  unfold bind at 1. unfold ret at 1.
  unfold bind at 1.
  pose proof (@Box_strings H (Widget_fuel H (S n))
                [("type", VStr "box"); ("children", VArr (map VStr ss))] W ss x
                (fun s W => @build_string H n s W) Hx Hne eq_refl) as E.
  unfold frame, fields in *. rewrite E.
  unfold lift. cbn -[fold_left set_attr].
  eexists. split; [reflexivity |].
  rewrite !gclass_set_attr, !gcalls_set_attr.
  destruct (fold_append (fun s => text_label (VStr s)) ss
              (new_gtk "Gtk.Box" [("orientation", VNum x); ("homogeneous", VBool false)]))
    as [Hc Hk].
  cbv zeta in Hc, Hk. rewrite Hc, Hk. split; reflexivity.
Qed.

Lemma Box_children_in_order_witness :
  exists w,
    Widget (example_host true)
      (VObj [("type", VStr "box"); ("children", VArr [VStr "left"; VStr "right"])])
      empty_world
    = ((Ok (VWidget w),
        VObj [("type", VStr "box"); ("children", VArr [VStr "left"; VStr "right"])]),
       empty_world)
    /\ gclass w = "Gtk.Box"
    /\ gcalls w = [("append", text_label (VStr "left"));
                   ("append", text_label (VStr "right"))].
Proof.
  exact (@Box_children_in_order (example_host true) ["left"; "right"] _ empty_world
           eq_refl eq_refl).
Defined.

(** ** Connections *)

(** X16. Connections whose sources are signal names or periods are
    registered in the order of the array: a string source connects the
    callback to that signal of the object, a number source schedules it as
    a timer.  Registering calls no callback, emits no diagnostic and
    touches neither the attributes nor the controllers of the object. *)
Theorem connections_in_order (H : host) (entries : list (jsval * jsval)) :
  forall (w : gtk) (W : world),
  forallb (fun p => plain_source (fst p)) entries = true ->
  exists w',
    foldM (apply_connection H) w (map (fun p => VArr [fst p; snd p]) entries) W
    = (Ok w', W)
    /\ gsignals w' = gsignals w ++ flat_map signal_of entries
    /\ gtimers w' = gtimers w ++ flat_map timer_of entries
    /\ gattrs w' = gattrs w
    /\ gctrls w' = gctrls w.
Proof.
  induction entries as [| [s cb] r IH]; intros w W Hp; cbn [map foldM flat_map].
  - exists w. rewrite !app_nil_r. repeat split; reflexivity.
  - cbn [forallb fst] in Hp. apply andb_true_iff in Hp. destruct Hp as [Hs Hr].
    unfold bind at 1. unfold apply_connection, bind, destructure, ret.
    cbn [item nth fst snd].
    destruct s; try discriminate Hs;
      (edestruct IH as [w' [E [Hsg [Ht [Ha Hc]]]]]; [exact Hr |];
       exists w'; split; [exact E |];
       rewrite Hsg, Ht, Ha, Hc; unfold signal_of, timer_of; cbn [fst snd app];
       destruct w; simpl; rewrite <- app_assoc; repeat split; reflexivity).
Qed.

Lemma connections_in_order_witness :
  exists w',
    foldM (apply_connection (example_host true)) (new_gtk "Gtk.Label" [])
      [VArr [VStr "clicked"; VFun 1]; VArr [VNum 1000%float; VFun 2];
       VArr [VStr "destroy"; VFun 3]] empty_world
    = (Ok w', empty_world)
    /\ gsignals w' = [("clicked", HUser (VFun 1)); ("destroy", HUser (VFun 3))]
    /\ gtimers w' = [(VNum 1000%float, VFun 2)].
Proof.
  destruct (@connections_in_order (example_host true)
              [(VStr "clicked", VFun 1); (VNum 1000%float, VFun 2);
               (VStr "destroy", VFun 3)]
              (new_gtk "Gtk.Label" []) empty_world eq_refl)
    as [w' [E [Hs [Ht _]]]].
  exists w'. repeat split; assumption.
Defined.

(** ** Class names *)

Lemma has_class_add (cn c : string) (w : gtk) :
  has_class c (add_css_class cn w) = has_class c w || String.eqb c cn.
Proof.
  destruct w as [k a cs p ks sg t ct]. unfold has_class, add_css_class.
  destruct (existsb (String.eqb cn) cs) eqn:E; cbn [gcss].
  - destruct (String.eqb_spec c cn) as [-> | _];
      [now rewrite E | now rewrite orb_false_r].
  - rewrite existsb_app. cbn [existsb]. now rewrite orb_false_r.
Qed.

(** X17. The classes of an object after [className] has been applied: the
    classes it had, and every non-empty piece of the string between spaces.
    The empty pieces that doubled, leading or trailing spaces give are not
    added. *)
Theorem className_tokens (cn c : string) (w : gtk) :
  has_class c (apply_classes cn w)
  = has_class c w
    || (negb (String.eqb c "") && existsb (String.eqb c) (split " " cn)).
Proof.
  unfold apply_classes. generalize (split " " cn) as l. intros l. revert w.
  induction l as [| t r IH]; intros w; cbn [fold_left existsb].
  - now rewrite andb_false_r, orb_false_r.
  - rewrite IH.
    destruct (String.eqb_spec t "") as [-> | Ht]; cbn [negb].
    + destruct (String.eqb_spec c "") as [-> | Hc]; cbn [negb andb orb]; reflexivity.
    + rewrite has_class_add.
      destruct (String.eqb_spec c t) as [-> | Hct]; cbn [orb].
      * destruct (String.eqb_spec t "") as [E | _]; [contradiction |].
        cbn [negb andb]. now rewrite orb_true_r.
      * now rewrite orb_false_r.
Qed.

(** ** What a constructor does with its own properties *)

Lemma delete_assign_same (k : string) (v : jsval) (fs : fields) :
  delete k (assign k v fs) = delete k fs.
Proof.
  induction fs as [| [k' x] r IH]; cbn [assign delete].
  - now rewrite String.eqb_refl.
  - destruct (String.eqb k k') eqn:E; cbn [delete];
      [now rewrite String.eqb_refl | now rewrite E, IH].
Qed.

Lemma delete_assign_other (k k' : string) (v : jsval) (fs : fields) :
  String.eqb k k' = false ->
  delete k (assign k' v fs) = assign k' v (delete k fs).
Proof.
  intros Hk. induction fs as [| [k0 x] r IH]; cbn [assign delete].
  - now rewrite Hk.
  - destruct (String.eqb k' k0) eqn:E1, (String.eqb k k0) eqn:E2;
      cbn [assign delete]; rewrite ?Hk, ?E1, ?E2; try reflexivity.
    + apply String.eqb_eq in E1, E2. subst.
      now rewrite String.eqb_refl in Hk.
    + exact IH.
    + now rewrite IH.
Qed.

(** Deleting a list of keys that holds [k] forgets what was assigned to [k]. *)
Lemma delete_all_assign (ks : list string) (k : string) (v v' : jsval) :
  existsb (String.eqb k) ks = true ->
  forall fs, delete_all ks (assign k v fs) = delete_all ks (assign k v' fs).
Proof.
  unfold delete_all.
  induction ks as [| k0 r IH]; intros Hk fs; [discriminate |].
  cbn [fold_left]. cbn [existsb] in Hk.
  destruct (String.eqb k0 k) eqn:E.
  - apply String.eqb_eq in E; subst. now rewrite !delete_assign_same.
  - rewrite !delete_assign_other by exact E. apply IH.
    rewrite String.eqb_sym, E in Hk. exact Hk.
Qed.

(** X18. [Slider] reads [value] only to check its type: two sets of
    properties that differ in a numeric [value] alone are built into the
    same scale, with the same diagnostics. *)
Theorem Slider_ignores_value (build : builder) (props : fields) (x y : float)
    (s : frame) :
  Slider build (assign "value" (VNum x) props) s
  = Slider build (assign "value" (VNum y) props) s.
Proof.
  unfold Slider; cbv zeta.
  rewrite !(@lookup_assign_other "type" "value"),
    !(@lookup_assign_other "inverted" "value"),
    !(@lookup_assign_other "orientation" "value"),
    !(@lookup_assign_other "min" "value"), !(@lookup_assign_other "max" "value"),
    !(@lookup_assign_other "onChange" "value"),
    !(@lookup_assign_other "drawValue" "value") by reflexivity.
  rewrite !lookup_assign_same.
  rewrite (@delete_all_assign _ "value" (VNum x) (VNum y)) by reflexivity.
  reflexivity.
Qed.

Lemma gsignals_connect (sg : string) (h : handler) (w : gtk) :
  gsignals (connect sg h w) = gsignals w ++ [(sg, h)].
Proof. destruct w; reflexivity. Qed.

(** X19. The text-change closure of [Entry] is connected when [onChange]
    is given, but it decides between calling and running a command by
    looking at [onAccept]: with functions in both slots [onChange] is
    called with the entry and the text; with a function in [onAccept] and a
    command string in [onChange] the closure throws a TypeError; and when
    [onAccept] is not a function the closure takes the command branch, so
    a function in [onChange] is never called. *)
Theorem Entry_change_looks_at_onAccept (H : host) (props : fields) (c a : jsval)
    (s : frame) :
  lookup "onChange" props = c ->
  lookup "onAccept" props = a ->
  truthy c = true ->
  let h := HEntryChange (dflt a (VStr "")) c in
  (exists w s',
      Entry props s = (Ok (VWidget w), s')
      /\ In ("buffer::notify::text", h) (gsignals w))
  /\ (forall e args W f g,
        a = VFun g -> c = VFun f ->
        run_handler H e h args W
        = (Ok (user_ret H f (VWidget e :: args)),
           MkWorld (diags W) (calls W ++ [(VFun f, VWidget e :: args)])))
  /\ (forall e args W t,
        is_function a = true -> c = VStr t ->
        run_handler H e h args W = (Throw "TypeError: not a function", W))
  /\ (forall e args W,
        is_function a = false ->
        run_handler H e h args W = (Beyond, W)).
Proof.
  intros Hc Ha Ht h. split; [| split; [| split]].
  - unfold Entry; cbv zeta.
    rewrite !bind_always_ok by first [apply check_ok | apply lift_ok, restcheck_ok].
    unfold ret. eexists _, _. split; [reflexivity |].
    rewrite Hc, Ha.
    assert (Hd : dflt c (VStr "") = c) by (destruct c; try reflexivity; discriminate).
    rewrite Hd, Ht. rewrite gsignals_connect. apply in_or_app; right; left; reflexivity.
  - intros e args W f g -> ->. reflexivity.
  - intros e args W t Hf ->. subst h. cbn [run_handler].
    assert (Hd : is_function (dflt a (VStr "")) = true)
      by (destruct a; try discriminate; reflexivity).
    rewrite Hd. reflexivity.
  - intros e args W Hf. subst h. cbn [run_handler].
    assert (Hd : is_function (dflt a (VStr "")) = false)
      by (destruct a; try discriminate; reflexivity).
    rewrite Hd. reflexivity.
Qed.

Lemma Entry_change_looks_at_onAccept_witness :
  run_handler (example_host true) (new_gtk "Gtk.Entry" [])
    (HEntryChange (VFun 2) (VStr "notify-send {}")) [VStr "abc"] empty_world
  = (Throw "TypeError: not a function", empty_world).
Proof.
  exact (proj1 (proj2 (proj2
           (@Entry_change_looks_at_onAccept (example_host true)
              [("type", VStr "entry"); ("onChange", VStr "notify-send {}");
               ("onAccept", VFun 2)]
              (VStr "notify-send {}") (VFun 2) ([], empty_world)
              eq_refl eq_refl eq_refl)))
           (new_gtk "Gtk.Entry" []) [VStr "abc"] empty_world "notify-send {}"
           eq_refl eq_refl).
Defined.

(** ** The registry key without a constructor *)

(** X20. The registry has the key [progressbar], but widgets.js exports no
    [ProgressBar]: a descriptor of that type passes the registry test and
    the call of its constructor throws a TypeError.  No diagnostic is
    emitted, no placeholder is returned, and nothing of the descriptor has
    been looked at. *)
Theorem Widget_progressbar (H : host) (fs : fields) (W : world) :
  lookup "type" fs = VStr "progressbar" ->
  in_widgets H "progressbar" = true
  /\ Widget H (VObj fs) W
     = ((Throw "TypeError: widgets[type] is not a function", VObj fs), W).
Proof.
  intros Ht. split; [reflexivity |].
  unfold Widget. rewrite Widget_fuel_S.
  cbn [truthy negb is_string is_function].
  unfold structured; cbv zeta. rewrite Ht. cbn [is_function].
  change (in_widgets H "progressbar") with true. cbv iota.
  reflexivity.
Qed.

Lemma Widget_progressbar_witness :
  Widget (example_host true)
    (VObj [("type", VStr "progressbar"); ("className", VStr "bar")]) empty_world
  = ((Throw "TypeError: widgets[type] is not a function",
      VObj [("type", VStr "progressbar"); ("className", VStr "bar")]), empty_world).
Proof.
  exact (proj2 (@Widget_progressbar (example_host true)
                  [("type", VStr "progressbar"); ("className", VStr "bar")]
                  empty_world eq_refl)).
Defined.

(** ** Descriptors that are passed through *)

(** X21. A live object given as a descriptor is returned as it is, and a
    function given as a descriptor is called once, with no argument, and
    what it returns is returned as it is: in both cases nothing is
    configured, no diagnostic is emitted and a [setup] is out of reach. *)
Theorem Widget_passes_through (H : host) (W : world) :
  (forall w, Widget H (VWidget w) W = ((Ok (VWidget w), VWidget w), W))
  /\ (forall id,
        Widget H (VFun id) W
        = ((Ok (user_ret H id []), VFun id),
           MkWorld (diags W) (calls W ++ [(VFun id, [])]))).
Proof.
  split; intros; reflexivity.
Qed.

Lemma typechecks_ok (ps : fields) (type : jsval) : always_ok (typechecks ps type).
Proof.
  intros s. unfold typechecks.
  rewrite !bind_always_ok by apply typecheck_ok. apply typecheck_ok.
Qed.

(** X22. A descriptor whose [type] is a function: the function is called
    once, with no argument, before anything else; when it returns a live
    object, that object goes through the two passes with the descriptor's
    properties and slots; when it returns [undefined], the property pass
    throws on its first write, after the type checks. *)
Theorem Widget_factory_type (H : host) (fs : fields) (id : nat) (W : world) :
  lookup "type" fs = VFun id ->
  let W1 := MkWorld (diags W) (calls W ++ [(VFun id, [])]) in
  (forall w0,
      user_ret H id [] = VWidget w0 ->
      Widget H (VObj fs) W
      = (let (o, W') := finish H (VWidget w0) fs W1 in ((o, VObj fs), W')))
  /\ (user_ret H id [] = VUndefined ->
      fst (Widget H (VObj fs) W)
      = (Throw "TypeError: cannot create property setStyle", VObj fs)).
Proof.
  intros Ht W1. split.
  - intros w0 Hr. unfold Widget. rewrite Widget_fuel_S.
    cbn [truthy negb is_string is_function].
    unfold structured; cbv zeta. rewrite Ht. cbn [is_function].
    unfold bind at 1. unfold lift at 1. cbn [snd fst call].
    unfold bind at 1. unfold log_call at 1. cbn [fst snd].
    unfold ret at 1. rewrite Hr. unfold bind at 1. unfold ret at 1.
    unfold lift. cbn [fst snd]. fold W1.
    destruct (finish H (VWidget w0) fs W1) as [o W']. reflexivity.
  - intros Hr. unfold Widget. rewrite Widget_fuel_S.
    cbn [truthy negb is_string is_function].
    unfold structured; cbv zeta. rewrite Ht. cbn [is_function].
    unfold bind at 1. unfold lift at 1. cbn [snd fst call].
    unfold bind at 1. unfold log_call at 1. cbn [fst snd].
    unfold ret at 1. rewrite Hr. unfold bind at 1. unfold ret at 1.
    unfold lift. cbn [fst snd]. fold W1.
    unfold finish, parseParams_on.
    assert (Hp : lookup "type" (pick param_keys fs) = lookup "type" fs)
      by reflexivity.
    unfold bind at 1. unfold bind at 1. unfold bind at 1.
    rewrite Hp, Ht. cbn [toString_of]. unfold ret at 1.
    destruct (typechecks _ _ W1) as [o W2] eqn:E.
    assert (Ho : o = Ok tt).
    { change o with (fst (o, W2)). rewrite <- E. apply typechecks_ok. }
    subst o. reflexivity.
Qed.

Lemma Widget_factory_type_witness :
  fst (Widget (example_host true) (VObj [("type", VFun 0); ("className", VStr "x")])
         empty_world)
  = (Throw "TypeError: cannot create property setStyle",
     VObj [("type", VFun 0); ("className", VStr "x")]).
Proof.
  exact (proj2 (@Widget_factory_type (example_host true)
                  [("type", VFun 0); ("className", VStr "x")] 0 empty_world eq_refl)
           eq_refl).
Defined.

(** ** [setup] on widgets and on surfaces *)

(** X23. The two constructors test [setup] differently.  [parseParams]
    calls it only when it is a function, so any other value is ignored;
    [Window] calls it whenever it is truthy, so a truthy value that is not
    a function makes [Window] throw a TypeError after the surface has been
    prepared and shown. *)
Theorem setup_function_or_truthy (H : host) (build : builder) (fs : fields) (v : jsval) :
  lookup "setup" fs = v ->
  is_function v = false ->
  (forall w W,
      parseParams H w fs W
      = (type <- toString_of (lookup "type" fs) ;;
         typechecks fs type ;;;
         configure H w fs) W)
  /\ (truthy v = true ->
      forall win s win' s',
        prepare_window H build fs win s = (Ok win', s') ->
        configure_window H build fs win s = (Throw "TypeError: not a function", s'))
  /\ (truthy v = false ->
      forall win s win' s',
        prepare_window H build fs win s = (Ok win', s') ->
        configure_window H build fs win s = (Ok (VWidget win'), s')).
Proof.
  intros Hs Hf. split; [| split].
  - intros w W. unfold parseParams. rewrite Hs, Hf.
    unfold bind, ret.
    destruct (toString_of (lookup "type" fs) W) as [[ty | e | |] W1]; try reflexivity.
    destruct (typechecks fs ty W1) as [[[] | e | |] W2]; try reflexivity.
    destruct (configure H w fs W2) as [[w' | e | |] W3]; reflexivity.
  - intros Ht win s win' s' E. unfold configure_window; cbv zeta.
    unfold bind at 1. rewrite E, Hs, Ht.
    destruct s' as [fs' W']. destruct v; try discriminate; reflexivity.
  - intros Ht win s win' s' E. unfold configure_window; cbv zeta.
    unfold bind at 1. rewrite E, Hs, Ht. reflexivity.
Qed.

Lemma setup_function_or_truthy_witness :
  exists s',
    configure_window (example_host true) (Widget (example_host true))
      [("setup", VStr "echo")] (new_gtk "Gtk.Window" []) ([("setup", VStr "echo")], empty_world)
    = (Throw "TypeError: not a function", s').
Proof.
  eexists.
  eapply (proj1 (proj2 (@setup_function_or_truthy (example_host true)
                         (Widget (example_host true)) [("setup", VStr "echo")]
                         (VStr "echo") eq_refl eq_refl)) eq_refl
           (new_gtk "Gtk.Window" []) ([("setup", VStr "echo")], empty_world)).
  vm_compute. reflexivity.
Defined.

(** ** Button events *)

(** X24. The two button closures sit on one legacy controller, both on the
    signal [event], pressed first.  Each looks at the type of the event: a
    press reaches [onButtonPressed] with the object and the button number,
    a release reaches [onButtonReleased], and for every event at least one
    of the two returns [false] without calling anything. *)
Theorem button_event_filter (H : host) (w0 w : gtk) (ls e : fields) (p r : nat)
    (W : world) :
  lookup "onButtonPressed" ls = VFun p ->
  lookup "onButtonReleased" ls = VFun r ->
  (exists c,
      controllers_of Legacy (parseEventListeners w0 ls)
      = controllers_of Legacy w0 ++ [c]
      /\ chandlers c = [("event", HButtonPressed (VFun p));
                        ("event", HButtonReleased (VFun r))])
  /\ (lookup "event_type" e = VStr "BUTTON_PRESS" ->
      run_handler H w (HButtonPressed (VFun p)) [VObj e] W
      = handleEvent H (VFun p) [VWidget w; lookup "button" e] W)
  /\ (lookup "event_type" e = VStr "BUTTON_RELEASE" ->
      run_handler H w (HButtonReleased (VFun r)) [VObj e] W
      = handleEvent H (VFun r) [VWidget w; lookup "button" e] W)
  /\ (run_handler H w (HButtonPressed (VFun p)) [VObj e] W = (Ok (VBool false), W)
      \/ run_handler H w (HButtonReleased (VFun r)) [VObj e] W = (Ok (VBool false), W)).
Proof.
  intros Hp Hr. split; [| split; [| split]].
  - unfold parseEventListeners; cbv zeta.
    rewrite !controllers_of_step, !cfamily_wire, !cfamily_set_flags, Hp, Hr.
    cbn [cfamily family_eqb truthy].
    rewrite ?andb_false_r, ?orb_true_r, ?app_nil_r. cbn [andb orb].
    eexists; split; [reflexivity |].
    rewrite !chandlers_wire; cbn [truthy chandlers app]. reflexivity.
  - intros E. cbn [run_handler]. rewrite E. reflexivity.
  - intros E. cbn [run_handler]. rewrite E. reflexivity.
  - cbn [run_handler].
    destruct (lookup "event_type" e) as [| | | | t | | | | | | | |];
      try (left; reflexivity).
    unfold str_is.
    destruct (String.eqb_spec t "BUTTON_PRESS") as [-> | _];
      [right; reflexivity | left; reflexivity].
Qed.

Lemma button_event_filter_witness :
  run_handler (example_host true) (new_gtk "Gtk.Button" []) (HButtonPressed (VFun 1))
    [VObj [("event_type", VStr "BUTTON_PRESS"); ("button", VNum 3%float)]] empty_world
  = handleEvent (example_host true) (VFun 1)
      [VWidget (new_gtk "Gtk.Button" []); VNum 3%float] empty_world.
Proof.
  exact (proj1 (proj2 (@button_event_filter (example_host true)
                         (new_gtk "Gtk.Button" []) (new_gtk "Gtk.Button" [])
                         [("onButtonPressed", VFun 1); ("onButtonReleased", VFun 2)]
                         [("event_type", VStr "BUTTON_PRESS"); ("button", VNum 3%float)]
                         1 2 empty_world eq_refl eq_refl)) eq_refl).
Defined.

(** ** The three slots of a centre box *)

Lemma build_key_leaf (H : host) (n : nat) (k : string) (fs : fields) (W : world) :
  leaf_slot (lookup k fs) = true ->
  build_key (Widget_fuel H (S n)) k (fs, W)
  = (Ok (slot_object (lookup k fs)),
     (fs, MkWorld (diags W ++ slot_errors (lookup k fs)) (calls W))).
Proof.
  intros Hl. unfold build_key, build_at. cbn [fst snd].
  pose proof (put_key_same k fs) as P.
  destruct (lookup k fs) eqn:Hk; try discriminate Hl; rewrite Widget_fuel_S.
  - cbn [truthy negb]. unfold error, emit_diag. rewrite P. reflexivity.
  - cbn [leaf_slot] in Hl. cbn [truthy is_string]. rewrite Hl. cbn [negb].
    rewrite P. cbn [slot_object slot_errors]. now rewrite world_eta.
  - cbn [truthy negb is_string is_function]. rewrite P.
    cbn [slot_object slot_errors]. now rewrite world_eta.
Qed.

Lemma lookup_put_key_other (k k' : string) (v : jsval) (fs : fields) :
  String.eqb k' k = false -> lookup k' (put_key k v fs) = lookup k' fs.
Proof.
  intros Hk. unfold put_key. destruct (has_key k fs); [| reflexivity].
  now apply lookup_assign_other.
Qed.

(** Building one slot leaves the other slots of the descriptor alone. *)
Lemma build_key_other (build : builder) (k k' : string) (s s' : frame) (o : outcome jsval) :
  String.eqb k' k = false ->
  build_key build k s = (o, s') ->
  lookup k' (fst s') = lookup k' (fst s).
Proof.
  intros Hk. unfold build_key, build_at.
  destruct (build (lookup k (fst s)) (snd s)) as [[o1 post] W1].
  intros E. inversion E; subst. cbn [fst]. now apply lookup_put_key_other.
Qed.

Lemma build_key_absent (H : host) (n : nat) (k : string) (s s' : frame) (v : jsval) :
  lookup k (fst s) = VUndefined ->
  build_key (Widget_fuel H (S n)) k s = (Ok v, s') ->
  v = absent_label /\ fst s' = fst s.
Proof.
  intros Hk E. destruct s as [fs W]. cbn [fst] in Hk.
  rewrite build_key_leaf in E by now rewrite Hk.
  rewrite Hk in E. inversion E; subst. split; reflexivity.
Qed.

(** X26. [CenterBox] builds its three slots whether they are given or not.
    For slots that hold nothing, a non-empty string or a live object the
    result is explicit: an absent slot gets the placeholder label and one
    error is reported for it, a string its text label, a live object
    itself, in the order start, centre, end, and the box is returned unless
    the toolkit rejects the orientation.  And whatever the given slots
    hold, when the box is returned each absent slot of it holds the
    placeholder label. *)
Theorem CenterBox_builds_every_slot (H : host) (n : nat) (props fs : fields)
    (ov : jsval) (W W1 : world) :
  _orientation H (dflt (lookup "orientation" props) (VStr "horizontal"))
    (snd (restcheck
            (delete_all ["type"; "startWidget"; "centerWidget"; "endWidget";
                         "orientation"] props)
            (lookup "type" props) W))
  = (Ok ov, W1) ->
  let s := lookup "startWidget" fs in
  let c := lookup "centerWidget" fs in
  let e := lookup "endWidget" fs in
  (leaf_slot s = true -> leaf_slot c = true -> leaf_slot e = true ->
   CenterBox H (Widget_fuel H (S n)) props (fs, W)
   = ((if enum_strict H && is_undefined ov
       then Throw "the toolkit rejects undefined for an enum"
       else Ok (VWidget (new_gtk "Gtk.CenterBox"
                           [("orientation", ov); ("start_widget", slot_object s);
                            ("center_widget", slot_object c);
                            ("end_widget", slot_object e)]))),
      (fs, MkWorld (diags W1 ++ slot_errors s ++ slot_errors c ++ slot_errors e)
                   (calls W1))))
  /\ (forall v st,
        CenterBox H (Widget_fuel H (S n)) props (fs, W) = (Ok v, st) ->
        exists w,
          v = VWidget w
          /\ gclass w = "Gtk.CenterBox"
          /\ (s = VUndefined -> lookup "start_widget" (gattrs w) = absent_label)
          /\ (c = VUndefined -> lookup "center_widget" (gattrs w) = absent_label)
          /\ (e = VUndefined -> lookup "end_widget" (gattrs w) = absent_label)).
Proof.
  intros Ho s c e.
  assert (Hstart : forall k : jsval -> F jsval,
             CenterBox H (Widget_fuel H (S n)) props (fs, W)
             = (sv <- build_key (Widget_fuel H (S n)) "startWidget" ;;
                cv <- build_key (Widget_fuel H (S n)) "centerWidget" ;;
                ev <- build_key (Widget_fuel H (S n)) "endWidget" ;;
                o <- lift (as_enum H ov) ;;
                ret (VWidget (new_gtk "Gtk.CenterBox"
                                [("orientation", o); ("start_widget", sv);
                                 ("center_widget", cv); ("end_widget", ev)])))
                 (fs, W1)).
  { intros _. unfold CenterBox; cbv zeta.
    rewrite bind_always_ok by apply lift_ok, restcheck_ok.
    unfold bind at 1. unfold lift at 1 2. cbn [fst snd].
    destruct (restcheck _ _ W) as [o0 W0]. cbn [snd] in Ho |- *.
    rewrite Ho. reflexivity. }
  specialize (Hstart (fun _ => ret VUndefined)).
  split.
  - intros Hs Hc He. rewrite Hstart.
    unfold bind at 1. rewrite build_key_leaf by exact Hs.
    unfold bind at 1. rewrite build_key_leaf by exact Hc.
    unfold bind at 1. rewrite build_key_leaf by exact He.
    cbn [diags calls]. rewrite <- !app_assoc.
    unfold bind, lift, ret, as_enum. cbn [fst snd].
    destruct ov; cbn [is_undefined]; rewrite ?andb_false_r; try reflexivity.
    destruct (enum_strict H); reflexivity.
  - intros v st E. rewrite Hstart in E.
    apply bind_Ok in E as [sv [s1 [Hs E]]].
    apply bind_Ok in E as [cv [s2 [Hc E]]].
    apply bind_Ok in E as [ev [s3 [He E]]].
    apply bind_Ok in E as [o [s4 [_ E]]].
    unfold ret in E. inversion E; subst v st.
    eexists; split; [reflexivity |]. split; [reflexivity |].
    cbn [gattrs new_gtk lookup String.eqb Ascii.eqb Bool.eqb].
    pose proof (@build_key_other _ "startWidget" "centerWidget" _ _ _ eq_refl Hs) as Lc.
    pose proof (@build_key_other _ "startWidget" "endWidget" _ _ _ eq_refl Hs) as Le1.
    pose proof (@build_key_other _ "centerWidget" "endWidget" _ _ _ eq_refl Hc) as Le2.
    cbn [fst] in Lc, Le1.
    split; [| split].
    + intros Ha. now destruct (build_key_absent H n "startWidget" (fs, W1) Ha Hs).
    + intros Ha. assert (Ha' : lookup "centerWidget" (fst s1) = VUndefined)
        by now rewrite Lc.
      now destruct (build_key_absent H n "centerWidget" s1 Ha' Hc).
    + intros Ha. assert (Ha' : lookup "endWidget" (fst s2) = VUndefined)
        by now rewrite Le2, Le1.
      now destruct (build_key_absent H n "endWidget" s2 Ha' He).
Qed.

Lemma CenterBox_builds_every_slot_witness :
  CenterBox (example_host true) (Widget_fuel (example_host true) 1)
    [("type", VStr "centerbox"); ("centerWidget", VStr "clock")]
    ([("type", VStr "centerbox"); ("centerWidget", VStr "clock")], empty_world)
  = (Ok (VWidget (new_gtk "Gtk.CenterBox"
                    [("orientation", VNum 0%float); ("start_widget", absent_label);
                     ("center_widget", text_label (VStr "clock"));
                     ("end_widget", absent_label)])),
     ([("type", VStr "centerbox"); ("centerWidget", VStr "clock")],
      MkWorld [absent_error; absent_error] [])).
Proof.
  exact (proj1 (@CenterBox_builds_every_slot (example_host true) 0
                  [("type", VStr "centerbox"); ("centerWidget", VStr "clock")]
                  [("type", VStr "centerbox"); ("centerWidget", VStr "clock")]
                  (VNum 0%float) empty_world empty_world eq_refl)
           eq_refl eq_refl eq_refl).
Defined.

(** ** The order of the calls on a surface *)

Lemma gcalls_invoke (k : string) (v : jsval) (w : gtk) :
  gcalls (invoke k v w) = gcalls w ++ [(k, v)].
Proof. destruct w; reflexivity. Qed.

Lemma gcalls_add_css_class (cn : string) (w : gtk) : gcalls (add_css_class cn w) = gcalls w.
Proof. destruct w; simpl. destruct (existsb _ _); reflexivity. Qed.

Lemma gcalls_apply_classes (cn : string) (w : gtk) : gcalls (apply_classes cn w) = gcalls w.
Proof.
  unfold apply_classes. generalize (split " " cn) as l. intros l; revert w.
  induction l as [| c r IH]; intros w; simpl; [reflexivity |].
  rewrite IH. destruct (negb _); [apply gcalls_add_css_class | reflexivity].
Qed.

Lemma gcalls_setStyle (w : gtk) (css : jsval) : gcalls (setStyle w css) = gcalls w.
Proof. destruct w; reflexivity. Qed.

Lemma calls_from_invoke (l : list (string * jsval)) (k : string) (v : jsval) (w : gtk) :
  calls_from l w -> calls_from l (invoke k v w).
Proof.
  intros [more E]. exists (more ++ [(k, v)]).
  now rewrite gcalls_invoke, E, app_assoc.
Qed.

Lemma calls_from_anchor (H : host) (l : list (string * jsval)) (a : jsval) (win : gtk) :
  calls_from l win -> post (apply_anchor H a win) (calls_from l).
Proof.
  intros Hl. unfold apply_anchor. destruct (truthy a); [| now apply post_ret].
  destruct a; try apply post_throw; try apply post_beyond.
  destruct (trim _); [| apply post_beyond].
  apply post_foldM; [| exact Hl].
  intros b x Hb. apply post_try_catch.
  - eapply post_bind; [apply post_any | intros u _].
    eapply post_bind; [apply post_any | intros e _].
    apply post_ret. now apply calls_from_invoke.
  - eapply post_bind; [apply post_any | intros _ _]. now apply post_ret.
Qed.

Lemma calls_from_margin (H : host) (l : list (string * jsval)) (m : jsval) (win : gtk) :
  calls_from l win -> post (apply_margin H m win) (calls_from l).
Proof.
  intros Hl. unfold apply_margin. destruct (truthy m); [| now apply post_ret].
  cbv zeta. eapply post_bind; [apply post_any | intros t _].
  apply post_foldM; [| exact Hl].
  intros b x Hb.
  eapply post_bind; [apply post_any | intros e _].
  apply post_ret. now apply calls_from_invoke.
Qed.

Lemma calls_from_layer (H : host) (l : list (string * jsval)) (v : jsval) (win : gtk) :
  calls_from l win -> post (apply_layer H v win) (calls_from l).
Proof.
  intros Hl. unfold apply_layer.
  eapply post_bind; [apply post_any | intros u _].
  eapply post_bind; [apply post_any | intros e _].
  apply post_ret. now apply calls_from_invoke.
Qed.

Lemma calls_from_monitor (H : host) (l : list (string * jsval)) (v : jsval) (win : gtk) :
  calls_from l win -> post (apply_monitor H v win) (calls_from l).
Proof.
  intros Hl. unfold apply_monitor. destruct (is_number v); [| now apply post_ret].
  destruct (monitor_at H v).
  - apply post_ret. now apply calls_from_invoke.
  - eapply post_bind; [apply post_any | intros _ _]. now apply post_ret.
Qed.

Lemma prepare_window_calls (H : host) (build : builder) (fs : fields) (win : gtk) :
  post (prepare_window H build fs win)
       (fun w =>
          exists more,
            gcalls w
            = gcalls win
              ++ surface_opening (dflt (lookup "name" fs) (VStr "gtk-layer-shell"))
              ++ more
              ++ (if truthy (dflt (lookup "visible" fs) (VBool true))
                  then [("present", VUndefined)] else [])).
Proof.
  unfold prepare_window; cbv zeta.
  set (L := gcalls win
            ++ surface_opening (dflt (lookup "name" fs) (VStr "gtk-layer-shell"))).
  eapply post_bind with (P := calls_from L).
  { apply post_lift, calls_from_anchor. exists [].
    rewrite !gcalls_set_attr, !gcalls_invoke, app_nil_r. subst L.
    unfold surface_opening. now rewrite <- !app_assoc. }
  intros w1 H1.
  eapply post_bind; [apply post_lift, calls_from_margin, H1 | intros w2 H2].
  eapply post_bind; [apply post_lift, calls_from_layer, H2 | intros w3 H3].
  eapply post_bind with (P := calls_from L).
  { apply post_lift, calls_from_monitor.
    destruct (truthy _); [now apply calls_from_invoke | exact H3]. }
  intros w4 H4.
  eapply post_bind with (P := calls_from L).
  { destruct (dflt (lookup "className" fs) (VStr "")); try apply post_beyond;
      apply post_ret; try exact H4.
    destruct H4 as [more E]. exists more. now rewrite gcalls_apply_classes. }
  intros w5 H5.
  eapply post_bind with (P := calls_from L).
  { assert (H5' : calls_from L
                    (if truthy (dflt (lookup "style" fs) (VStr ""))
                     then setStyle w5 (dflt (lookup "style" fs) (VStr "")) else w5)).
    { destruct (truthy _); [| exact H5].
      destruct H5 as [more E]. exists more. now rewrite gcalls_setStyle. }
    destruct (truthy (dflt (lookup "child" fs) VNull)); [| now apply post_ret].
    eapply post_bind; [apply post_any | intros c _].
    apply post_ret. now apply calls_from_invoke. }
  intros w6 H6.
  eapply post_bind with (P := calls_from L).
  { destruct (truthy (dflt (lookup "focusable" fs) (VBool false)));
      [| now apply post_ret].
    eapply post_bind; [apply post_any | intros m _].
    apply post_ret. now apply calls_from_invoke. }
  intros w7 [more E]. apply post_ret. exists more.
  destruct (truthy (dflt (lookup "visible" fs) (VBool true))).
  - rewrite gcalls_invoke, E. subst L. now rewrite <- !app_assoc.
  - rewrite gcalls_set_attr, E. subst L. now rewrite <- !app_assoc, app_nil_r.
Qed.

(** X27. The toolkit calls on a surface that [Window] returns: they start
    with [set_default_size(1, 1)], the layer-shell initialisation and
    [set_namespace] with the name, and when the surface is visible they end
    with [present]; anchors, margins, layer, exclusive zone, monitor, child
    and keyboard mode all come between, so the surface is shown, and
    [setup] is called, only after everything else has been applied. *)
Theorem Window_call_order (H : host) (fs : fields) (W W' : world) (d' : jsval) (w : gtk) :
  Window H (VObj fs) W = ((Ok (VWidget w), d'), W') ->
  exists more,
    gcalls w
    = surface_opening (dflt (lookup "name" fs) (VStr "gtk-layer-shell"))
      ++ more
      ++ (if truthy (dflt (lookup "visible" fs) (VBool true))
          then [("present", VUndefined)] else []).
Proof.
  intros E. cbn [Window] in E.
  unfold frame, fields in *.
  destruct (Window_fields H (Widget H) fs (fs, W)) as [o [fs' W1]] eqn:Ew.
  inversion E; subst. clear E.
  revert Ew. unfold Window_fields; cbv zeta.
  rewrite bind_always_ok.
  2: { apply lift_ok. intros s. unfold window_checks; cbv zeta.
       rewrite !bind_always_ok by apply typecheck_ok. apply restcheck_ok. }
  intros Ew.
  assert (Hp : post (configure_window H (Widget H) fs
                       (if truthy (dflt (lookup "dialog" fs) (VBool false))
                        then new_gtk "Gtk.Dialog"
                               [("name", dflt (lookup "name" fs) (VStr "gtk-layer-shell"))]
                        else new_gtk "Gtk.Window"
                               [("name", dflt (lookup "name" fs) (VStr "gtk-layer-shell"))]))
                    (fun v => forall w0, v = VWidget w0 ->
                       exists more,
                         gcalls w0
                         = surface_opening
                             (dflt (lookup "name" fs) (VStr "gtk-layer-shell"))
                           ++ more
                           ++ (if truthy (dflt (lookup "visible" fs) (VBool true))
                               then [("present", VUndefined)] else []))).
  { unfold configure_window; cbv zeta.
    eapply post_bind; [apply prepare_window_calls | intros w1 [more E1]].
    eapply post_bind; [apply post_any | intros _ _].
    apply post_ret. intros w0 [= <-]. exists more. rewrite E1.
    destruct (truthy (dflt (lookup "dialog" fs) (VBool false))); reflexivity. }
  exact (Hp _ _ _ Ew w eq_refl).
Qed.

Lemma Window_call_order_witness :
  exists w more,
    built (Window (example_host true)
             (VObj [("name", VStr "bar"); ("anchor", VStr "top left")]) empty_world)
    = Some w
    /\ gcalls w = surface_opening (VStr "bar") ++ more ++ [("present", VUndefined)].
Proof.
  destruct (Window (example_host true)
              (VObj [("name", VStr "bar"); ("anchor", VStr "top left")]) empty_world)
    as [[o d'] W'] eqn:E.
  assert (Ho : exists w, o = Ok (VWidget w)).
  { vm_compute in E. inversion E. eexists; reflexivity. }
  destruct Ho as [w ->].
  destruct (@Window_call_order (example_host true)
              [("name", VStr "bar"); ("anchor", VStr "top left")]
              empty_world W' d' w E) as [more Hm].
  exists w, more. split; [reflexivity | exact Hm].
Defined.
